(** * CTI dashboard: the IOC aggregation and scoring core

  A shallow embedding of the Python services

  - [services/threat_intel.py]  (score normalisation, classification,
    cached point lookups),
  - [services/database.py]      (the IOC collection: store with
    deduplication, tag update),
  - [services/realtime_feeds.py] (the monitoring loop),

  and the properties of them that the specification states.

  Conventions of the embedding.

  - A Python number is modelled by its exact value, a rational [Q]; an
    [int] is an integer-valued rational.  The one place where Python
    computes with floats ([positives / total * 100] in
    [normalize_threat_score]) is computed in binary64, as the Standard
    Library's [SpecFloat] specifies it.  The scores the repository stores
    are all [int]s ([random.randint] in the feed generators,
    [min(100, int)] in the lookups), so the collection holds [Z] scores.
  - A Mongo document is a record whose optional keys are [option]
    fields; the collection is the list of its documents in natural
    (insertion) order.
  - Effects (the collection, the clock, socket emissions, sleeping) are
    threaded through a state-and-exception monad over [world]. *)

From Stdlib Require Import ZArith QArith Qminmax Qpower Lqa String List Lia
  Permutation Sorted.
From Stdlib Require SpecFloat.
From stdpp Require Import base decidable option list gmap strings.

Open Scope string_scope.
Open Scope Z_scope.

(** ** Python numbers *)

Module Py.

(** [a < b] on numbers. *)
Definition ltb (a b : Q) : bool := negb (Qle_bool b a).

(** [a >= b] on numbers. *)
Definition geb (a b : Q) : bool := Qle_bool b a.

(** [min(100, x)]: Python's [min] keeps its first argument unless a later
    one is strictly smaller. *)
Definition min_100 (x : Q) : Q := if ltb x 100 then x else 100%Q.

(** A Python [float]: binary64. *)
Definition float : Type := SpecFloat.spec_float.

(** An [int] as the exact operand of a float operation. *)
Definition int_operand (n : Z) : float :=
  match n with
  | Z0 => SpecFloat.S754_zero false
  | Zpos p => SpecFloat.S754_finite false p 0
  | Zneg p => SpecFloat.S754_finite true p 0
  end.

(** [a / b] on two ints, [b] other than 0: the quotient rounded to the
    nearest float; [None] stands for the [OverflowError] that is raised
    when the quotient is beyond the floats. *)
Definition int_true_div (a b : Z) : option float :=
  match SpecFloat.SFdiv 53 1024 (int_operand a) (int_operand b) with
  | SpecFloat.S754_infinity _ => None
  | q => Some q
  end.

(** [x * 100] on a float: the product rounded to the nearest float, an
    infinity when it is beyond the floats. *)
Definition times_100 (x : float) : float :=
  SpecFloat.SFmul 53 1024 x (int_operand 100).

(** The exact value of a finite float (0 for both zeros). *)
Definition float_value (x : float) : Q :=
  match x with
  | SpecFloat.S754_finite s m e =>
      Qred (inject_Z (SpecFloat.cond_Zopp s (Zpos m)) * Qpower 2 e)
  | _ => 0%Q
  end.

(** The float is not below zero: its sign bit is clear, or it is a zero
    or no number at all. *)
Definition not_negative (x : float) : Prop :=
  match x with
  | SpecFloat.S754_finite true _ _ => False
  | SpecFloat.S754_infinity true => False
  | _ => True
  end.

(** The number is an [int] value. *)
Definition is_int (x : Q) : Prop := exists z : Z, (x == inject_Z z)%Q.

(** [timedelta.seconds] of a difference of [d] microseconds: Python
    normalises a [timedelta] to [days], [0 <= seconds < 86400] and
    [0 <= microseconds < 10^6], and [.seconds] reads the middle
    component only. *)
Definition timedelta_seconds (d : Z) : Z := (d / 1000000) mod 86400.

(** [timedelta.total_seconds()], truncated to whole seconds. *)
Definition timedelta_total_seconds (d : Z) : Z := d / 1000000.

Definition seconds (n : Z) : Z := n * 1000000.
Definition hours (n : Z) : Z := seconds (3600 * n).

(** [max(l)] of a list of ints, [None] for the empty list (where Python
    raises [ValueError]). *)
Definition maximum (l : list Z) : option Z :=
  match l with
  | nil => None
  | cons x l' => Some (fold_left Z.max l' x)
  end.

(** [str.upper] on ASCII text. *)
Definition upper_ascii (c : Ascii.ascii) : Ascii.ascii :=
  let n := Ascii.nat_of_ascii c in
  if ((97 <=? n) && (n <=? 122))%nat then Ascii.ascii_of_nat (n - 32) else c.

Fixpoint upper (s : string) : string :=
  match s with
  | EmptyString => EmptyString
  | String c s' => String (upper_ascii c) (upper s')
  end.

End Py.

(** ** services/threat_intel.py: the pure scoring functions *)

Module Score.

(** The [score] argument of [normalize_threat_score]: a detection-ratio
    dict (read with [.get('positives', 0)] and [.get('total', 1)]) or a
    number. *)
Inductive raw_score :=
| ScoreDict (positives total : option Z)
| ScoreNum (score : Q).

(** What a call of [normalize_threat_score] comes to: the number it
    returns, by its exact value, or the exception it raises.  Of the
    floats that are no numbers [min(100, .)] lets only [-inf] through. *)
Inductive normalized :=
| Returns (x : Q)
| ReturnsNegInf
| Raises (e : string).

(** [min(100, y)] for a float [y]: [y] when [y < 100] holds, else the
    [int] 100 (so for [inf] and for [nan], which compares false). *)
Definition min_100_float (y : Py.float) : normalized :=
  match y with
  | SpecFloat.S754_infinity true => ReturnsNegInf
  | SpecFloat.S754_infinity false => Returns 100
  | SpecFloat.S754_nan => Returns 100
  | _ => Returns (Py.min_100 (Py.float_value y))
  end.

(** [normalize_threat_score(self, source, score, max_score=100)]; the
    parameter [max_score] is never read.  [min(100, <dict>)] raises
    [TypeError]. *)
Definition normalize_threat_score (source : string) (score : raw_score)
  : normalized :=
  if String.eqb source "virustotal" then
    match score with
    | ScoreDict positives total =>
        let positives := default 0 positives in
        let total := default 1 total in
        if 0 <? total then
          match Py.int_true_div positives total with
          | Some ratio => min_100_float (Py.times_100 ratio)
          | None => Raises "OverflowError"
          end
        else Returns 0
    | ScoreNum score => Returns (Py.min_100 score)
    end
  else if String.eqb source "abuseipdb" then
    match score with
    | ScoreNum score => Returns (Py.min_100 score)
    | ScoreDict _ _ => Raises "TypeError"
    end
  else
    match score with
    | ScoreNum score => Returns (Py.min_100 score)
    | ScoreDict _ _ => Raises "TypeError"
    end.

(** [_classify_threat_score(self, score)]. *)
Definition _classify_threat_score (score : Q) : string :=
  if Py.geb score 80 then "critical"
  else if Py.geb score 60 then "high"
  else if Py.geb score 30 then "medium"
  else if Py.ltb 0 score then "low"
  else "clean".

(** The five classification tiers. *)
Definition tiers : list string :=
  ["clean"; "low"; "medium"; "high"; "critical"].

(** Classification of an [int] score. *)
Definition classify (score : Z) : string :=
  _classify_threat_score (inject_Z score).

End Score.


(** ** Documents *)

(** One per-source answer, the dict built by [lookup_virustotal_ip],
    [lookup_virustotal_domain] and [lookup_abuseipdb] and by the feed
    generators under ['source_details']. *)
Module Observation.

Record t := {
  source : string;
  threat_score : Z;
  classification : string;
  details : list (string * string)
}.

#[global] Instance eq_dec : EqDecision t.
Proof. solve_decision. Defined.

End Observation.

(** A document of the [iocs] collection, and equally the [ioc_data] dict a
    caller hands to [store_ioc].  A key that the code reads with
    [.get(key, default)], or that only some writers set, is an [option]. *)
Module Ioc.

Record t := {
  _id : option nat;
  value : string;
  type : string;
  threat_score : option Z;
  classification : option string;
  sources : option (list string);
  tags : option (list string);
  description : option string;
  source_details : option (list Observation.t);
  timestamp : option Z;
  last_seen : option Z
}.

#[global] Instance eq_dec : EqDecision t.
Proof. solve_decision. Defined.

(** [d["_id"] = i], as [insert_one] does to the dict it is given. *)
Definition set_id (i : nat) (d : t) : t :=
  {| _id := Some i; value := value d; type := type d;
     threat_score := threat_score d; classification := classification d;
     sources := sources d; tags := tags d; description := description d;
     source_details := source_details d; timestamp := timestamp d;
     last_seen := last_seen d |}.

(** [d["timestamp"] = ts]. *)
Definition set_timestamp (ts : Z) (d : t) : t :=
  {| _id := _id d; value := value d; type := type d;
     threat_score := threat_score d; classification := classification d;
     sources := sources d; tags := tags d; description := description d;
     source_details := source_details d; timestamp := Some ts;
     last_seen := last_seen d |}.

(** [d["last_seen"] = ts]. *)
Definition set_last_seen (ts : Z) (d : t) : t :=
  {| _id := _id d; value := value d; type := type d;
     threat_score := threat_score d; classification := classification d;
     sources := sources d; tags := tags d; description := description d;
     source_details := source_details d; timestamp := timestamp d;
     last_seen := Some ts |}.

(** [d["tags"] = tg]. *)
Definition set_tags (tg : list string) (d : t) : t :=
  {| _id := _id d; value := value d; type := type d;
     threat_score := threat_score d; classification := classification d;
     sources := sources d; tags := Some tg; description := description d;
     source_details := source_details d; timestamp := timestamp d;
     last_seen := last_seen d |}.

(** [d["sources"] = ss]. *)
Definition set_sources (ss : list string) (d : t) : t :=
  {| _id := _id d; value := value d; type := type d;
     threat_score := threat_score d; classification := classification d;
     sources := Some ss; tags := tags d; description := description d;
     source_details := source_details d; timestamp := timestamp d;
     last_seen := last_seen d |}.

(** [d["threat_score"] = s]. *)
Definition set_threat_score (s : Z) (d : t) : t :=
  {| _id := _id d; value := value d; type := type d;
     threat_score := Some s; classification := classification d;
     sources := sources d; tags := tags d; description := description d;
     source_details := source_details d; timestamp := timestamp d;
     last_seen := last_seen d |}.

(** The filter [{"value": v, "type": ty}]. *)
Definition has_key (v ty : string) (d : t) : bool :=
  String.eqb (value d) v && String.eqb (type d) ty.

(** The filter [{"_id": i}]. *)
Definition has_id (i : nat) (d : t) : bool :=
  bool_decide (_id d = Some i).

End Ioc.

(** ** The world: collection, clock, monitor state and emitted effects *)

Module World.

(** Exceptions the modelled code can raise. *)
Inductive exn :=
| KeyError (key : string)
| DuplicateKeyError
| Fault (what : string).

(** [self.live_stats]: the three statistics computed from the collection.
    The four remaining entries are [random.randint] demo figures and are
    left out. *)
Record stats := {
  threats_last_hour : nat;
  threats_last_24h : nat;
  current_threat_level : string
}.

(** What the services do to the outside, in the order it happens. *)
Inductive event :=
| NewThreat (threat : Ioc.t) (timestamp : Z)
| LiveStatsUpdate (s : stats)
| SourceCall (method ioc : string)
| Sleep (secs : Z).

Record world := {
  iocs : list Ioc.t;
  next_oid : nat;
  clock : nat -> Z;
  reads : nat;
  monitoring : bool;
  live_stats : stats;
  events : list event
}.

Definition with_iocs (c : list Ioc.t) (w : world) : world :=
  {| iocs := c; next_oid := next_oid w; clock := clock w; reads := reads w;
     monitoring := monitoring w; live_stats := live_stats w;
     events := events w |}.

Definition with_next_oid (n : nat) (w : world) : world :=
  {| iocs := iocs w; next_oid := n; clock := clock w; reads := reads w;
     monitoring := monitoring w; live_stats := live_stats w;
     events := events w |}.

Definition with_reads (n : nat) (w : world) : world :=
  {| iocs := iocs w; next_oid := next_oid w; clock := clock w; reads := n;
     monitoring := monitoring w; live_stats := live_stats w;
     events := events w |}.

Definition with_monitoring (b : bool) (w : world) : world :=
  {| iocs := iocs w; next_oid := next_oid w; clock := clock w;
     reads := reads w; monitoring := b; live_stats := live_stats w;
     events := events w |}.

Definition with_live_stats (s : stats) (w : world) : world :=
  {| iocs := iocs w; next_oid := next_oid w; clock := clock w;
     reads := reads w; monitoring := monitoring w; live_stats := s;
     events := events w |}.

Definition with_events (es : list event) (w : world) : world :=
  {| iocs := iocs w; next_oid := next_oid w; clock := clock w;
     reads := reads w; monitoring := monitoring w;
     live_stats := live_stats w; events := es |}.

(** The result of running a piece of code: a value or a raised exception. *)
Inductive outcome (A : Type) :=
| Ok (a : A)
| Raise (e : exn).
Arguments Ok {A} a.
Arguments Raise {A} e.

(** Code with effects: the world is kept when an exception is raised, as
    the writes made before a Python exception stay made. *)
Definition M (A : Type) : Type := world -> outcome A * world.

Definition ret {A} (a : A) : M A := fun w => (Ok a, w).

Definition bind {A B} (m : M A) (k : A -> M B) : M B :=
  fun w =>
    match m w with
    | (Ok a, w') => k a w'
    | (Raise e, w') => (Raise e, w')
    end.

Definition raise {A} (e : exn) : M A := fun w => (Raise e, w).

(** [try: m  except Exception as e: h e]. *)
Definition try_except {A} (m : M A) (h : exn -> M A) : M A :=
  fun w =>
    match m w with
    | (Ok a, w') => (Ok a, w')
    | (Raise e, w') => h e w'
    end.

Declare Scope py_scope.
Delimit Scope py_scope with py.
Notation "x <- m ;; k" := (bind m (fun x => k))
  (at level 100, m at next level, right associativity) : py_scope.
Notation "m ;; k" := (bind m (fun _ => k))
  (at level 100, right associativity) : py_scope.
Open Scope py_scope.

(** [datetime.utcnow()]: the next reading of the clock, in microseconds. *)
Definition utcnow : M Z :=
  fun w => (Ok (clock w (reads w)), with_reads (S (reads w)) w).

(** [socketio.emit], a source call or [time.sleep]: recorded. *)
Definition emit (e : event) : M unit :=
  fun w => (Ok tt, with_events (events w ++ [e])%list w).

(** [self.iocs.find_one(filter)]: the first matching document. *)
Definition find_one (p : Ioc.t -> bool) : M (option Ioc.t) :=
  fun w => (Ok (List.find p (iocs w)), w).

(** [self.iocs.count_documents(filter)]. *)
Definition count_documents (p : Ioc.t -> bool) : M nat :=
  fun w => (Ok (length (List.filter p (iocs w))), w).

(** The first document that satisfies [p] replaced by its image under
    [upd]. *)
Fixpoint update_first (p : Ioc.t -> bool) (upd : Ioc.t -> Ioc.t)
  (c : list Ioc.t) : list Ioc.t :=
  match c with
  | [] => []
  | d :: c' => if p d then upd d :: c' else d :: update_first p upd c'
  end.

(** [self.iocs.update_one({"_id": i}, {"$set": ...})], the [$set] given as
    the function [upd]; the result is [modified_count > 0]: a document
    matched and the update changed it. *)
Definition update_one (i : nat) (upd : Ioc.t -> Ioc.t) : M bool :=
  fun w =>
    match List.find (Ioc.has_id i) (iocs w) with
    | Some d =>
        (Ok (bool_decide (upd d <> d)),
         with_iocs (update_first (Ioc.has_id i) upd (iocs w)) w)
    | None => (Ok false, w)
    end.

(** [self.iocs.insert_one(d)]: a document without ["_id"] gets a fresh
    ObjectId, which pymongo also writes into the caller's dict; the dict as
    it is afterwards is returned with the id. *)
Definition insert_one (d : Ioc.t) : M (nat * Ioc.t) :=
  fun w =>
    match Ioc._id d with
    | None =>
        let i := next_oid w in
        let d' := Ioc.set_id i d in
        (Ok (i, d'), with_next_oid (S i) (with_iocs (iocs w ++ [d'])%list w))
    | Some i =>
        if existsb (Ioc.has_id i) (iocs w)
        then (Raise DuplicateKeyError, w)
        else (Ok (i, d),
              with_next_oid (Nat.max (next_oid w) (S i))
                (with_iocs (iocs w ++ [d])%list w))
    end.

End World.

(** ** services/database.py *)

Module Database.
Import World.

(** [list(set(a + b))]: the distinct elements, in the order the set yields
    them. *)
Definition list_set (l : list string) : list string :=
  elements (list_to_set (C := gset string) l).

(** The [$set] document [update_data] of [store_ioc], applied to a stored
    document. *)
Definition update_data (existing ioc_data : Ioc.t) (now : Z) (d : Ioc.t)
  : Ioc.t :=
  Ioc.set_threat_score
    (Z.max (default 0 (Ioc.threat_score existing))
           (default 0 (Ioc.threat_score ioc_data)))
    (Ioc.set_sources
       (list_set (default [] (Ioc.sources existing)
                  ++ default [] (Ioc.sources ioc_data))%list)
       (Ioc.set_last_seen now d)).

(** [store_ioc(self, ioc_data)]: store with deduplication.  Returns the
    ObjectId and the caller's dict as the call leaves it (the insert branch
    writes to it). *)
Definition store_ioc (ioc_data : Ioc.t) : M (nat * Ioc.t) :=
  existing <- find_one (Ioc.has_key (Ioc.value ioc_data) (Ioc.type ioc_data));;
  match existing with
  | Some existing =>
      now <- utcnow;;
      match Ioc._id existing with
      | Some i =>
          update_one i (update_data existing ioc_data now);;
          ret (i, ioc_data)
      | None => raise (KeyError "_id")
      end
  | None =>
      t1 <- utcnow;;
      let ioc_data := Ioc.set_timestamp t1 ioc_data in
      t2 <- utcnow;;
      let ioc_data := Ioc.set_last_seen t2 ioc_data in
      let ioc_data := Ioc.set_tags (default [] (Ioc.tags ioc_data)) ioc_data in
      insert_one ioc_data
  end.

(** [get_ioc(self, value, ioc_type)]. *)
Definition get_ioc (value ioc_type : string) : M (option Ioc.t) :=
  find_one (Ioc.has_key value ioc_type).

(** [update_ioc_tags(self, ioc_id, tags)] from the ObjectId on: what
    follows [ObjectId(ioc_id)]. *)
Definition update_ioc_tags (ioc_id : nat) (tags : list string) : M bool :=
  update_one ioc_id (Ioc.set_tags tags).

(** [update_ioc_tags(self, ioc_id, tags)] as the routes call it, with the
    id as the string of the request path.  [ObjectId] stands for bson's
    constructor on a string: the id that the string denotes, [None] where
    the constructor raises [InvalidId] (as it does for every string that
    is not 24 hexadecimal digits). *)
Definition update_ioc_tags_str (ObjectId : string -> option nat)
  (ioc_id : string) (tags : list string) : M bool :=
  match ObjectId ioc_id with
  | Some i => update_ioc_tags i tags
  | None => raise (Fault "InvalidId")
  end.

End Database.

(** ** services/threat_intel.py: the cached lookup *)

Module ThreatIntel.
Import World.

(** The three reputation lookups of the service.  Each wraps one HTTP
    request; here a lookup is the function from the indicator to the dict
    it returns, [None] for "no data". *)
Record service := {
  lookup_virustotal_ip : string -> option Observation.t;
  lookup_abuseipdb : string -> option Observation.t;
  lookup_virustotal_domain : string -> option Observation.t
}.

(** A call of one of the lookups, recorded as it is made. *)
Definition call (method : string) (f : string -> option Observation.t)
  (ioc : string) : M (option Observation.t) :=
  emit (SourceCall method ioc);; ret (f ioc).

(** [max(r['threat_score'] for r in results)] of a non-empty list. *)
Definition max_score (r : Observation.t) (rs : list Observation.t) : Z :=
  fold_left Z.max (map Observation.threat_score rs) (Observation.threat_score r).

(** The test [cached and (utcnow() - cached['last_seen']).seconds < 3600]. *)
Definition cache_hit (cached : option Ioc.t) : M bool :=
  match cached with
  | Some c =>
      now <- utcnow;;
      match Ioc.last_seen c with
      | Some seen => ret (Py.timedelta_seconds (now - seen) <? 3600)
      | None => raise (KeyError "last_seen")
      end
  | None => ret false
  end.

(** The fan-out of [lookup_ioc]: the answers of the sources that apply to
    [ioc_type], in call order. *)
Definition fan_out (self : service) (ioc ioc_type : string)
  : M (list Observation.t) :=
  if String.eqb ioc_type "ip" then
    vt_result <- call "lookup_virustotal_ip" (lookup_virustotal_ip self) ioc;;
    abuse_result <- call "lookup_abuseipdb" (lookup_abuseipdb self) ioc;;
    ret (option_list vt_result ++ option_list abuse_result)%list
  else if String.eqb ioc_type "domain" then
    vt_result <- call "lookup_virustotal_domain" (lookup_virustotal_domain self) ioc;;
    ret (option_list vt_result)
  else ret [].

(** The [ioc_data] dict that [lookup_ioc] builds from the answers
    [r :: rs]. *)
Definition aggregate (ioc ioc_type : string) (r : Observation.t)
  (rs : list Observation.t) : Ioc.t :=
  let results := r :: rs in
  let max_score := max_score r rs in
  {| Ioc._id := None;
     Ioc.value := ioc;
     Ioc.type := ioc_type;
     Ioc.threat_score := Some max_score;
     Ioc.classification := Some (Score.classify max_score);
     Ioc.sources := Some (map Observation.source results);
     Ioc.tags := None;
     Ioc.description := Some (Py.upper ioc_type ++ ": " ++ ioc);
     Ioc.source_details := Some results;
     Ioc.timestamp := None;
     Ioc.last_seen := None |}.

(** [lookup_ioc(self, ioc, ioc_type)]. *)
Definition lookup_ioc (self : service) (ioc ioc_type : string)
  : M (option Ioc.t) :=
  cached <- Database.get_ioc ioc ioc_type;;
  hit <- cache_hit cached;;
  if hit then ret cached
  else
    results <- fan_out self ioc ioc_type;;
    match results with
    | r :: rs =>
        stored <- Database.store_ioc (aggregate ioc ioc_type r rs);;
        ret (Some (snd stored))
    | [] => ret None
    end.

End ThreatIntel.

(** ** services/realtime_feeds.py: the monitoring loop *)

Module RealtimeFeeds.
Import World.

(** Where an injected error strikes while one threat is processed. *)
Inductive fault_point :=
| InGenerate   (* [_generate_threat_data] raises *)
| InStore      (* [self.db.store_ioc] raises before writing *)
| InEmit.      (* [self.socketio.emit] raises *)

(** One pass of the loop body of [_simulate_threat_detection]: the
    [threat_data] the random generator comes up with, and the injected
    error, if any. *)
Record draw := {
  threat_data : Ioc.t;
  fault : option fault_point
}.

Definition fault_is (p : fault_point) (d : draw) : bool :=
  match fault d, p with
  | Some InGenerate, InGenerate => true
  | Some InStore, InStore => true
  | Some InEmit, InEmit => true
  | _, _ => false
  end.

(** The body of the [for] loop of [_simulate_threat_detection]. *)
Definition detect_one (d : draw) : M unit :=
  (if fault_is InGenerate d then raise (Fault "generate") else ret tt);;
  stored <- (if fault_is InStore d then raise (Fault "store")
             else Database.store_ioc (threat_data d));;
  now <- utcnow;;
  (if fault_is InEmit d then raise (Fault "emit")
   else emit (NewThreat (snd stored) now)).

(** [_simulate_threat_detection(self)], the [num_threats] draws of the
    cycle given. *)
Fixpoint _simulate_threat_detection (draws : list draw) : M unit :=
  match draws with
  | [] => ret tt
  | d :: rest => detect_one d;; _simulate_threat_detection rest
  end.

(** The filter [{'timestamp': {'$gte': t}}]. *)
Definition since (t : Z) (d : Ioc.t) : bool :=
  match Ioc.timestamp d with
  | Some ts => t <=? ts
  | None => false
  end.

(** The filter [{'classification': c, 'timestamp': {'$gte': t}}]. *)
Definition classified_since (c : string) (t : Z) (d : Ioc.t) : bool :=
  bool_decide (Ioc.classification d = Some c) && since t d.

(** The threat level derived from the last hour's counts. *)
Definition threat_level (critical_count high_count : nat) : string :=
  if (5 <? critical_count)%nat then "critical"
  else if ((0 <? critical_count) || (10 <? high_count))%nat then "high"
  else if (0 <? high_count)%nat then "medium"
  else "low".

(** What the environment holds for one call of [_update_live_stats]:
    whether one of its [count_documents] raises, and the figures
    [random.randint(5, 20)] and [random.randint(50, 200)] that the
    [except] branch then falls back on. *)
Record stats_draw := {
  read_fails : bool;
  fallback_last_hour : nat;
  fallback_last_24h : nat
}.

(** The draws [random.randint] can come up with. *)
Definition in_range (d : stats_draw) : Prop :=
  (5 <= fallback_last_hour d <= 20)%nat /\
  (50 <= fallback_last_24h d <= 200)%nat.

(** Reads that succeed. *)
Definition reads_succeed : stats_draw :=
  {| read_fails := false; fallback_last_hour := 5; fallback_last_24h := 50 |}.

(** [_update_live_stats(self)].  The three figures are written one by one
    in the source; the [except] branch overwrites all three, so it does
    not matter which of the reads is the one that raises. *)
Definition _update_live_stats (d : stats_draw) : M unit :=
  try_except
    (now <- utcnow;;
     let hour_ago := now - Py.hours 1 in
     let day_ago := now - Py.hours 24 in
     (if read_fails d then raise (Fault "count_documents") else ret tt);;
     last_hour <- count_documents (since hour_ago);;
     last_24h <- count_documents (since day_ago);;
     critical_count <- count_documents (classified_since "critical" hour_ago);;
     high_count <- count_documents (classified_since "high" hour_ago);;
     fun w =>
       (Ok tt,
        with_live_stats
          {| threats_last_hour := last_hour;
             threats_last_24h := last_24h;
             current_threat_level := threat_level critical_count high_count |}
          w))
    (fun _ w =>
       (Ok tt,
        with_live_stats
          {| threats_last_hour := fallback_last_hour d;
             threats_last_24h := fallback_last_24h d;
             current_threat_level := "medium" |}
          w)).

(** [_broadcast_updates(self)]. *)
Definition _broadcast_updates : M unit :=
  fun w => emit (LiveStatsUpdate (live_stats w)) w.

(** One turn of the [while] loop of [_monitor_threats].  The reads of the
    statistics are taken to succeed in the cycles modelled here: a read
    that fails is caught inside [_update_live_stats] and changes nothing
    of the cycle but the figures that are broadcast. *)
Definition monitor_cycle (draws : list draw) : M unit :=
  try_except
    (_simulate_threat_detection draws;;
     _update_live_stats reads_succeed;;
     _broadcast_updates;;
     emit (Sleep 10))
    (fun _ => emit (Sleep 30)).

(** [_monitor_threats(self)] over the cycles whose draws are given: the
    loop runs while [self.monitoring] holds. *)
Fixpoint _monitor_threats (cycles : list (list draw)) : M unit :=
  match cycles with
  | [] => ret tt
  | draws :: rest =>
      fun w =>
        if monitoring w
        then (monitor_cycle draws;; _monitor_threats rest) w
        else (Ok tt, w)
  end.

End RealtimeFeeds.

(** ** Observing a world *)

Module Store.
Import World.

(** The stored records with the key [(v, ty)]. *)
Definition records_of (v ty : string) (w : world) : list Ioc.t :=
  List.filter (Ioc.has_key v ty) (iocs w).

(** What Mongo guarantees of the collection: every document carries an
    ["_id"], no two share one, and the ObjectId generator is ahead of all
    of them. *)
Definition wf (w : world) : Prop :=
  Forall (fun d => exists i, Ioc._id d = Some i /\ (i < next_oid w)%nat)
         (iocs w)
  /\ NoDup (map Ioc._id (iocs w)).

(** A dict as a caller builds it: no ["_id"] yet. *)
Definition fresh (d : Ioc.t) : Prop := Ioc._id d = None.

(** One [store_ioc] call per observation, in order. *)
Fixpoint store_all (obs : list Ioc.t) : M unit :=
  match obs with
  | [] => ret tt
  | d :: rest => Database.store_ioc d;; store_all rest
  end.

(** The observations of a stream that carry the key [(v, ty)]. *)
Definition obs_for (v ty : string) (obs : list Ioc.t) : list Ioc.t :=
  List.filter (Ioc.has_key v ty) obs.

(** The sources of a document, [d.get("sources", [])]. *)
Definition sources_of (d : Ioc.t) : list string := default [] (Ioc.sources d).

(** The tags of a document, [d.get("tags", [])]. *)
Definition tags_of (d : Ioc.t) : list string := default [] (Ioc.tags d).

(** The score of a document, [d.get("threat_score", 0)]. *)
Definition score_of (d : Ioc.t) : Z := default 0 (Ioc.threat_score d).

(** A write took the collection [c] to [c']: every document of [c] is
    still there, in place and under its ["_id"], related to its new
    version by [R]; documents may have been added behind. *)
Definition evolves (R : Ioc.t -> Ioc.t -> Prop) (c c' : list Ioc.t) : Prop :=
  exists kept added,
    c' = (kept ++ added)%list /\
    Forall2 (fun d d' => Ioc._id d' = Ioc._id d /\ R d d') c kept.

(** The sources of [d'] include those of [d]. *)
Definition sources_grow (d d' : Ioc.t) : Prop :=
  forall s, s ∈ sources_of d -> s ∈ sources_of d'.

(** The external source calls among the events. *)
Definition source_calls (es : list event) : list event :=
  List.filter (fun e => match e with SourceCall _ _ => true | _ => false end) es.

(** The statistics broadcasts among the events. *)
Definition stats_updates (es : list event) : list event :=
  List.filter (fun e => match e with LiveStatsUpdate _ => true | _ => false end) es.

(** A [$set] that leaves ["_id"], ["value"] and ["type"] alone. *)
Definition keeps_identity (upd : Ioc.t -> Ioc.t) : Prop :=
  forall d, Ioc._id (upd d) = Ioc._id d /\
            Ioc.value (upd d) = Ioc.value d /\
            Ioc.type (upd d) = Ioc.type d.

(** The document [store_ioc] inserts for a new key. *)
Definition inserted (w : world) (ioc_data : Ioc.t) : Ioc.t :=
  Ioc.set_id (next_oid w)
    (Ioc.set_tags (default [] (Ioc.tags ioc_data))
       (Ioc.set_last_seen (clock w (S (reads w)))
          (Ioc.set_timestamp (clock w (reads w)) ioc_data))).

(** No two stored records share a key. *)
Definition unique_keys (w : world) : Prop :=
  forall v ty, (length (records_of v ty w) <= 1)%nat.

(** The age of a record at time [now], in whole seconds. *)
Definition age_seconds (now : Z) (seen : Z) : Z :=
  Py.timedelta_total_seconds (now - seen).

End Store.

(** ** Sample data *)

Module Demo.
Import World.

(** An empty collection; the clock starts at [t0] and advances [tick]
    microseconds per reading. *)
Definition empty_at (t0 tick : Z) : world :=
  {| iocs := [];
     next_oid := 0;
     clock := fun n => t0 + Z.of_nat n * tick;
     reads := 0;
     monitoring := true;
     live_stats := {| threats_last_hour := 0;
                      threats_last_24h := 0;
                      current_threat_level := "medium" |};
     events := [] |}.

(** What one source says of an indicator. *)
Definition answer (source : string) (score : Z) (cls : string)
  : Observation.t :=
  {| Observation.source := source;
     Observation.threat_score := score;
     Observation.classification := cls;
     Observation.details := [] |}.

(** An observation of the address [ip] as a feed generator hands it to
    [store_ioc]. *)
Definition threat (ip source : string) (score : Z) (cls : string)
  (tags : list string) : Ioc.t :=
  {| Ioc._id := None;
     Ioc.value := ip;
     Ioc.type := "ip";
     Ioc.threat_score := Some score;
     Ioc.classification := Some cls;
     Ioc.sources := Some [source];
     Ioc.tags := Some tags;
     Ioc.description := None;
     Ioc.source_details := Some [answer source score cls];
     Ioc.timestamp := None;
     Ioc.last_seen := None |}.

(** An observation of the address 198.51.100.7. *)
Definition seen : string -> Z -> string -> list string -> Ioc.t :=
  threat "198.51.100.7".

(** The collection after one observation of 198.51.100.7, by the honeypot
    with score 70. *)
Definition one_record (tick : Z) : world :=
  snd (Database.store_ioc (seen "honeypot" 70 "high" ["malware"])
         (empty_at 0 tick)).

(** A service whose VirusTotal lookups answer with [score] and whose
    AbuseIPDB lookup has no data. *)
Definition virustotal_says (score : Z) : ThreatIntel.service :=
  {| ThreatIntel.lookup_virustotal_ip :=
       fun _ => Some (answer "virustotal" score (Score.classify score));
     ThreatIntel.lookup_abuseipdb := fun _ => None;
     ThreatIntel.lookup_virustotal_domain :=
       fun _ => Some (answer "virustotal" score (Score.classify score)) |}.

End Demo.

(** ** services/realtime_feeds.py: reading the monitor *)

Module Monitor.
Import World.

(** [get_live_stats(self)]. *)
Definition get_live_stats (d : RealtimeFeeds.stats_draw) : M stats :=
  RealtimeFeeds._update_live_stats d;;
  fun w => (Ok (live_stats w), w).

(** The new-threat emissions among the events. *)
Definition new_threats (es : list event) : list event :=
  List.filter (fun e => match e with NewThreat _ _ => true | _ => false end) es.

(** The sleeps among the events. *)
Definition sleeps (es : list event) : list event :=
  List.filter (fun e => match e with Sleep _ => true | _ => false end) es.

(** The clock never runs backwards. *)
Definition monotone_clock (w : world) : Prop :=
  forall n m : nat, (n <= m)%nat -> clock w n <= clock w m.

(** Every record was first seen no later than it was last seen, and last
    seen no later than the next reading of the clock. *)
Definition seen_in_order (w : world) : Prop :=
  Forall (fun d => exists ts ls,
            Ioc.timestamp d = Some ts /\ Ioc.last_seen d = Some ls /\
            ts <= ls /\ ls <= clock w (reads w))
         (iocs w).

(** The levels [_update_live_stats] can set. *)
Definition threat_levels : list string := ["critical"; "high"; "medium"; "low"].

End Monitor.

(** ** services/database.py: sorted, paged and grouped reads *)

Module Cursor.

(** Mongo's order on a sort key: a missing field is null and comes below
    every number. *)
Definition key_leb (a b : option Z) : bool :=
  match a, b with
  | None, _ => true
  | Some _, None => false
  | Some x, Some y => x <=? y
  end.

(** [d] put into a list that is in descending order of [key], before the
    first document whose key is not above its own. *)
Fixpoint insert_desc (key : Ioc.t -> option Z) (d : Ioc.t)
  (l : list Ioc.t) : list Ioc.t :=
  match l with
  | [] => [d]
  | x :: l' =>
      if key_leb (key x) (key d) then d :: x :: l'
      else x :: insert_desc key d l'
  end.

(** [.sort(field, -1)]: descending order of [key]; documents with equal
    keys stay in natural order (Mongo leaves their order open). *)
Definition sort_desc (key : Ioc.t -> option Z) (l : list Ioc.t)
  : list Ioc.t :=
  fold_right (insert_desc key) [] l.

(** [.limit(n)]: 0 is no limit, and a negative [n] limits like [-n]. *)
Definition limit (n : Z) (l : list Ioc.t) : list Ioc.t :=
  if n =? 0 then l else take (Z.abs_nat n) l.

(** The largest number that a [skip] or a [limit] can be sent as. *)
Definition int64_max : Z := 2 ^ 63 - 1.

(** Descending order of [key]. *)
Definition descending (key : Ioc.t -> option Z) (l : list Ioc.t) : Prop :=
  forall i j a b,
    (i <= j)%nat -> l !! i = Some a -> l !! j = Some b ->
    key_leb (key b) (key a) = true.

End Cursor.

Module Paging.
Import World.

(** What [get_iocs_paginated] returns. *)
Record result := {
  iocs : list Ioc.t;
  total : Z;
  page : Z;
  pages : Z
}.

Section Query.

(** Mongo's [{"$regex": pattern, "$options": "i"}] on a string field:
    whether the pattern is found in the text, letter case ignored. *)
Variable regex_search : string -> string -> bool.

(** The [query] dict of [get_iocs_paginated] as a filter.  An [$or] over
    the value and the description is there when [search] is not empty, a
    test of the tags when [tag_filter] is not empty; a field that is
    missing matches neither. *)
Definition query (search tag_filter : string) (d : Ioc.t) : bool :=
  (if negb (String.eqb search "")
   then regex_search search (Ioc.value d)
        || match Ioc.description d with
           | Some text => regex_search search text
           | None => false
           end
   else true)
  && (if negb (String.eqb tag_filter "")
      then match Ioc.tags d with
           | Some tags => existsb (String.eqb tag_filter) tags
           | None => false
           end
      else true).

(** The documents that match, newest first. *)
Definition matching (search tag_filter : string) (w : world) : list Ioc.t :=
  Cursor.sort_desc Ioc.timestamp
    (List.filter (query search tag_filter) (World.iocs w)).

(** Whether Mongo accepts the pattern of a [$regex]; a query with a
    pattern it cannot compile is refused with [OperationFailure]. *)
Variable regex_valid : string -> bool.

(** The search can be run: there is none, or its pattern is accepted. *)
Definition searchable (search : string) : bool :=
  String.eqb search "" || regex_valid search.

(** [get_iocs_paginated(self, page, limit, search, tag_filter)], with a
    database that answers.  The count comes first and is where a pattern
    that Mongo cannot compile is refused.  pymongo refuses a negative
    [skip] with [ValueError] when the cursor is built, and a [skip] or
    [limit] beyond 8 bytes with [OverflowError] when the cursor is read;
    the division by a zero [limit] raises [ZeroDivisionError].  The
    ObjectIds, which the method turns into strings, stand for their
    strings. *)
Definition get_iocs_paginated (page limit : Z) (search tag_filter : string)
  : M result :=
  let skip := (page - 1) * limit in
  total <- (if searchable search
            then count_documents (query search tag_filter)
            else raise (Fault "OperationFailure"));;
  found <- (fun w =>
              if skip <? 0 then (Raise (Fault "ValueError"), w)
              else if (Cursor.int64_max <? skip)
                      || (Cursor.int64_max <? Z.abs limit)
              then (Raise (Fault "OverflowError"), w)
              else (Ok (Cursor.limit limit
                          (drop (Z.to_nat skip)
                             (matching search tag_filter w))), w));;
  if limit =? 0 then raise (Fault "ZeroDivisionError")
  else ret {| iocs := found;
              total := Z.of_nat total;
              page := page;
              pages := (Z.of_nat total + limit - 1) / limit |}.

(** The documents on a page; none when the call raises. *)
Definition page_items (page limit : Z) (search tag_filter : string)
  (w : world) : list Ioc.t :=
  match fst (get_iocs_paginated page limit search tag_filter w) with
  | Ok res => iocs res
  | Raise _ => []
  end.

(** What a caller collects who asks for page 1 and then for every page
    up to the number of [pages] that the first answer reports. *)
Definition all_pages (limit : Z) (search tag_filter : string) (w : world)
  : list Ioc.t :=
  match fst (get_iocs_paginated 1 limit search tag_filter w) with
  | Ok res =>
      concat (map (fun p => page_items (Z.of_nat p) limit search tag_filter w)
                (seq 1 (Z.to_nat (pages res))))
  | Raise _ => []
  end.

End Query.

End Paging.

Module Stats.
Import World.

(** What [get_threat_stats] returns. *)
Record result := {
  classification_stats : list (option string * nat);
  recent_count : nat;
  top_malicious : list Ioc.t;
  total_iocs : nat
}.

(** One more document in the group of [k]. *)
Fixpoint bump (k : option string) (groups : list (option string * nat))
  : list (option string * nat) :=
  match groups with
  | [] => [(k, 1%nat)]
  | (k', n) :: rest =>
      if decide (k = k') then (k', S n) :: rest
      else (k', n) :: bump k rest
  end.

(** The pipeline [{"$group": {"_id": "$classification", "count":
    {"$sum": 1}}}]: one group per classification (null for a missing
    one) with the number of its documents, in order of first appearance
    (Mongo leaves the order of the groups open). *)
Definition group_by_classification (c : list Ioc.t)
  : list (option string * nat) :=
  fold_left (fun groups d => bump (Ioc.classification d) groups) c [].

(** The filter [{"classification": k}], [k] being null for the documents
    without the field. *)
Definition has_classification (k : option string) (d : Ioc.t) : bool :=
  bool_decide (Ioc.classification d = k).

(** The count that the groups report for [k]: that of the first group
    with this [_id], 0 when there is none. *)
Definition count_of (k : option string) (groups : list (option string * nat))
  : nat :=
  match List.find (fun g => bool_decide (fst g = k)) groups with
  | Some g => snd g
  | None => 0%nat
  end.

(** The filter [{"$or": [{"classification": "critical"},
    {"classification": "high"}, {"classification": "malicious"}]}]. *)
Definition malicious (d : Ioc.t) : bool :=
  bool_decide (Ioc.classification d = Some "critical")
  || bool_decide (Ioc.classification d = Some "high")
  || bool_decide (Ioc.classification d = Some "malicious").

(** The read of [get_threat_stats] at which pymongo raises, when one
    does. *)
Inductive failing_read :=
| InAggregate      (* [self.iocs.aggregate(pipeline)] *)
| InRecentCount    (* the [count_documents] of the last 24 hours *)
| InTopMalicious   (* the [find] of the top records *)
| InTotalCount.    (* [self.iocs.count_documents({})] *)

#[global] Instance failing_read_eq_dec : EqDecision failing_read.
Proof. solve_decision. Defined.

(** The read [p], which fails when [failure] names it. *)
Definition read {A} (failure : option failing_read) (p : failing_read)
  (m : M A) : M A :=
  if bool_decide (failure = Some p) then raise (Fault "PyMongoError") else m.

(** The result of the [except] branch. *)
Definition zeroed : result :=
  {| classification_stats := [];
     recent_count := 0;
     top_malicious := [];
     total_iocs := 0 |}.

(** [get_threat_stats(self)], with the read that fails given, if one
    does. *)
Definition get_threat_stats (failure : option failing_read) : M result :=
  try_except
    (stats <- read failure InAggregate
                (fun w => (Ok (group_by_classification (iocs w)), w));;
     now <- utcnow;;
     recent_count <- read failure InRecentCount
                       (count_documents
                          (RealtimeFeeds.since (now - Py.hours 24)));;
     top_malicious <- read failure InTopMalicious
                        (fun w =>
                           (Ok (Cursor.limit 10
                                  (Cursor.sort_desc Ioc.threat_score
                                     (List.filter malicious (iocs w)))), w));;
     total <- read failure InTotalCount (count_documents (fun _ => true));;
     ret {| classification_stats := stats;
            recent_count := recent_count;
            top_malicious := top_malicious;
            total_iocs := total |})
    (fun _ => ret zeroed).

End Stats.

(** ** services/threat_intel.py: the three reputation lookups *)

Module Sources.
Import World.

(** What [requests.get] (and [response.json()] after it) comes to:
    an exception, or a response with its status code and, when the body
    parses, its JSON. *)
Inductive http (A : Type) :=
| Fails
| Answers (status_code : Z) (json : option A).
Arguments Fails {A}.
Arguments Answers {A} status_code json.

(** The keys the lookups read in a VirusTotal report. *)
Record vt_report := {
  response_code : option Z;
  detected_urls : option (list string);
  country : option string;
  as_owner : option string;
  categories : option (list string)
}.

(** The keys [lookup_abuseipdb] reads under ['data'] (an absent ['data']
    is the empty dict: every key missing). *)
Record abuse_data := {
  abuseConfidencePercentage : option Q;
  countryCode : option string;
  usageType : option string;
  isp : option string;
  totalReports : option Z
}.

(** A value under ['details']. *)
Inductive detail :=
| DInt (n : Z)
| DNum (x : Q)
| DStr (s : string)
| DList (l : list string).

(** The dict a lookup returns. *)
Record answer := {
  source : string;
  threat_score : Q;
  classification : string;
  details : list (string * detail)
}.

(** [if not key]: the key is missing or empty. *)
Definition no_key (key : option string) : bool :=
  match key with
  | Some k => String.eqb k ""
  | None => true
  end.

Definition vt_base_url : string := "https://www.virustotal.com/vtapi/v2".
Definition abuseipdb_base_url : string := "https://api.abuseipdb.com/api/v2".

(** The answer built from a VirusTotal report, [weight] points per
    detected URL.  [None] is an exception inside the [try], which the
    lookup turns into "no data"; the score given to
    [normalize_threat_score] is a number, for which it returns one. *)
Definition vt_answer (weight : Z) (details : list (string * detail))
  (data : vt_report) : option answer :=
  let detected_urls := default [] (detected_urls data) in
  let threat_score := Z.of_nat (length detected_urls) * weight in
  match Score.normalize_threat_score "virustotal"
          (Score.ScoreNum (inject_Z threat_score)) with
  | Score.Returns normalized =>
      Some {| source := "virustotal";
              threat_score := normalized;
              classification :=
                Score._classify_threat_score (inject_Z threat_score);
              details := details |}
  | _ => None
  end.

(** What the two VirusTotal lookups share: the request, then the answer
    or, when the report was not usable, the 15 second pause. *)
Definition vt_lookup (api_key : option string) (url : string)
  (get : string -> http vt_report)
  (answer_of : vt_report -> option answer) (ioc : string)
  : M (option answer) :=
  if no_key api_key then ret None
  else
    emit (SourceCall url ioc);;
    match get ioc with
    | Fails => ret None
    | Answers status_code json =>
        if status_code =? 200 then
          match json with
          | None => ret None
          | Some data =>
              if bool_decide (response_code data = Some 1)
              then ret (answer_of data)
              else emit (Sleep 15);; ret None
          end
        else emit (Sleep 15);; ret None
    end.

(** [lookup_virustotal_ip(self, ip)]. *)
Definition lookup_virustotal_ip (api_key : option string)
  (get : string -> http vt_report) (ip : string) : M (option answer) :=
  vt_lookup api_key (vt_base_url ++ "/ip-address/report") get
    (fun data =>
       vt_answer 10
         [("detected_urls",
           DInt (Z.of_nat (length (default [] (detected_urls data)))));
          ("country", DStr (default "Unknown" (country data)));
          ("as_owner", DStr (default "Unknown" (as_owner data)))]
         data)
    ip.

(** [lookup_virustotal_domain(self, domain)]. *)
Definition lookup_virustotal_domain (api_key : option string)
  (get : string -> http vt_report) (domain : string) : M (option answer) :=
  vt_lookup api_key (vt_base_url ++ "/domain/report") get
    (fun data =>
       vt_answer 5
         [("detected_urls",
           DInt (Z.of_nat (length (default [] (detected_urls data)))));
          ("categories", DList (default [] (categories data)))]
         data)
    domain.

(** [lookup_abuseipdb(self, ip)]. *)
Definition lookup_abuseipdb (api_key : option string)
  (get : string -> http abuse_data) (ip : string) : M (option answer) :=
  if no_key api_key then ret None
  else
    emit (SourceCall (abuseipdb_base_url ++ "/check") ip);;
    match get ip with
    | Fails => ret None
    | Answers status_code json =>
        if status_code =? 200 then
          match json with
          | None => ret None
          | Some data =>
              let confidence := default 0%Q (abuseConfidencePercentage data) in
              match Score.normalize_threat_score "abuseipdb"
                      (Score.ScoreNum confidence) with
              | Score.Returns normalized =>
                  ret (Some
                    {| source := "abuseipdb";
                       threat_score := normalized;
                       classification :=
                         Score._classify_threat_score confidence;
                       details :=
                         [("abuse_confidence", DNum confidence);
                          ("country_code",
                           DStr (default "Unknown" (countryCode data)));
                          ("usage_type",
                           DStr (default "Unknown" (usageType data)));
                          ("isp", DStr (default "Unknown" (isp data)));
                          ("total_reports",
                           DInt (default 0 (totalReports data)))] |})
              | _ => ret None
              end
          end
        else ret None
    end.

End Sources.

(** ** More sample data *)

Module Samples.
Import World.

(** The collection after first sightings of three addresses. *)
Definition three_records : world :=
  snd (Store.store_all
         [Demo.threat "203.0.113.1" "honeypot" 80 "critical" ["botnet"];
          Demo.threat "203.0.113.2" "email_filter" 65 "high" ["phishing"];
          Demo.threat "203.0.113.3" "honeypot" 40 "medium" ["botnet"]]
         (Demo.empty_at 0 1)).

(** A hexadecimal digit. *)
Definition hex_digit (c : Ascii.ascii) : option N :=
  let n := Ascii.N_of_ascii c in
  if ((48 <=? n) && (n <=? 57))%N then Some (n - 48)%N
  else if ((97 <=? n) && (n <=? 102))%N then Some (n - 87)%N
  else if ((65 <=? n) && (n <=? 70))%N then Some (n - 55)%N
  else None.

Fixpoint hex_value (s : string) (acc : N) : option N :=
  match s with
  | EmptyString => Some acc
  | String c s' =>
      match hex_digit c with
      | Some d => hex_value s' (16 * acc + d)%N
      | None => None
      end
  end.

(** An [ObjectId] constructor: the value of 24 hexadecimal digits. *)
Definition object_id (s : string) : option nat :=
  if (String.length s =? 24)%nat
  then option_map N.to_nat (hex_value s 0%N)
  else None.

(** Patterns that start with a star are refused, all others accepted. *)
Definition no_leading_star (pattern : string) : bool :=
  negb (String.prefix "*" pattern).

(** A pattern search that finds nothing. *)
Definition finds_nothing (pattern text : string) : bool := false.

End Samples.

(** * Properties *)

(** ** Comparisons and [min] on numbers *)

Section PyFacts.

Lemma ltb_lt (a b : Q) : Py.ltb a b = true <-> (a < b)%Q.
Proof.
  unfold Py.ltb. rewrite negb_true_iff. split.
  - intros H. apply Qnot_le_lt. intros Hle.
    apply Qle_bool_iff in Hle. congruence.
  - intros H. destruct (Qle_bool b a) eqn:E; [|reflexivity].
    apply Qle_bool_iff in E. exfalso. exact (Qlt_not_le _ _ H E).
Qed.

Lemma ltb_ge (a b : Q) : Py.ltb a b = false <-> (b <= a)%Q.
Proof. unfold Py.ltb. rewrite negb_false_iff. apply Qle_bool_iff. Qed.

Lemma geb_ge (a b : Q) : Py.geb a b = true <-> (b <= a)%Q.
Proof. apply Qle_bool_iff. Qed.

Lemma geb_lt (a b : Q) : Py.geb a b = false <-> (a < b)%Q.
Proof.
  unfold Py.geb. split.
  - intros H. apply Qnot_le_lt. intros Hle.
    apply Qle_bool_iff in Hle. congruence.
  - intros H. destruct (Qle_bool b a) eqn:E; [|reflexivity].
    apply Qle_bool_iff in E. exfalso. exact (Qlt_not_le _ _ H E).
Qed.

Lemma min_100_le (x : Q) : (Py.min_100 x <= 100)%Q.
Proof.
  unfold Py.min_100. destruct (Py.ltb x 100) eqn:E.
  - apply ltb_lt in E. apply Qlt_le_weak, E.
  - apply Qle_refl.
Qed.

Lemma min_100_Qmin (x : Q) : (Py.min_100 x == Qmin 100 x)%Q.
Proof.
  unfold Py.min_100. destruct (Py.ltb x 100) eqn:E.
  - apply ltb_lt in E. symmetry. apply Q.min_r. apply Qlt_le_weak, E.
  - apply ltb_ge in E. symmetry. apply Q.min_l. exact E.
Qed.

Lemma min_100_nonneg (x : Q) : (0 <= x)%Q -> (0 <= Py.min_100 x)%Q.
Proof.
  intros H. unfold Py.min_100. destruct (Py.ltb x 100); [exact H|].
  discriminate.
Qed.

Lemma min_100_below (x : Q) : (x < 100)%Q -> Py.min_100 x = x.
Proof.
  intros H. unfold Py.min_100. apply ltb_lt in H. now rewrite H.
Qed.

Lemma not_int_25_2 : ~ Py.is_int (25 # 2).
Proof.
  intros [z Hz]. unfold Qeq in Hz. simpl in Hz. lia.
Qed.

End PyFacts.

(** Decide the comparisons of [_classify_threat_score] one after the
    other, turning each into a fact on [Q]. *)
Ltac classify_cases :=
  unfold Score._classify_threat_score;
  repeat match goal with
  | |- context [Py.geb ?a ?b] =>
      let E := fresh "E" in
      destruct (Py.geb a b) eqn:E;
      [apply geb_ge in E | apply geb_lt in E]
  | |- context [Py.ltb ?a ?b] =>
      let E := fresh "E" in
      destruct (Py.ltb a b) eqn:E;
      [apply ltb_lt in E | apply ltb_ge in E]
  end.

(** ** Scoring: [normalize_threat_score] and [_classify_threat_score] *)

Section ScoreFacts.
Import Score.

Lemma normalize_num (source : string) (x : Q) :
  normalize_threat_score source (ScoreNum x) = Returns (Py.min_100 x).
Proof.
  unfold normalize_threat_score.
  destruct (String.eqb source "virustotal"); [reflexivity|].
  destruct (String.eqb source "abuseipdb"); reflexivity.
Qed.

Lemma normalize_ratio (positives total : option Z) :
  normalize_threat_score "virustotal" (ScoreDict positives total)
  = if 0 <? default 1 total
    then match Py.int_true_div (default 0 positives) (default 1 total) with
         | Some ratio => min_100_float (Py.times_100 ratio)
         | None => Raises "OverflowError"
         end
    else Returns 0.
Proof. reflexivity. Qed.

Lemma min_100_float_le (y : Py.float) (r : Q) :
  min_100_float y = Returns r -> (r <= 100)%Q.
Proof.
  destruct y as [s|[|]| |s m e]; simpl; try discriminate;
    intros [= <-]; try apply min_100_le; apply Qle_refl.
Qed.

Lemma normalize_le_100 (source : string) (score : raw_score) (r : Q) :
  normalize_threat_score source score = Returns r -> (r <= 100)%Q.
Proof.
  destruct score as [p t|x].
  - unfold normalize_threat_score.
    destruct (String.eqb source "virustotal").
    + destruct (0 <? default 1 t).
      * destruct (Py.int_true_div _ _); [apply min_100_float_le|discriminate].
      * intros [= <-]. discriminate.
    + destruct (String.eqb source "abuseipdb"); discriminate.
  - rewrite normalize_num. intros [= <-]. apply min_100_le.
Qed.

(** C6.  [_classify_threat_score] assigns one tier to every score, with
    each boundary in the upper tier: a score of at least 80 is critical,
    one in [60, 80) is high, one in [30, 60) is medium, one in (0, 30) is
    low and 0 is clean; the scores 0, 1, 29, 30, 59, 60, 79, 80, 100 are
    classified clean, low, low, medium, medium, high, high, critical,
    critical. *)
Theorem classify_tiers (score : Q) :
  ((80 <= score)%Q -> _classify_threat_score score = "critical") /\
  ((60 <= score)%Q /\ (score < 80)%Q -> _classify_threat_score score = "high") /\
  ((30 <= score)%Q /\ (score < 60)%Q -> _classify_threat_score score = "medium") /\
  ((0 < score)%Q /\ (score < 30)%Q -> _classify_threat_score score = "low") /\
  ((score == 0)%Q -> _classify_threat_score score = "clean") /\
  map classify [0; 1; 29; 30; 59; 60; 79; 80; 100]
  = ["clean"; "low"; "low"; "medium"; "medium"; "high"; "high";
     "critical"; "critical"].
Proof.
  repeat split.
  - intros H. classify_cases; try reflexivity; lra.
  - intros [H1 H2]. classify_cases; try reflexivity; lra.
  - intros [H1 H2]. classify_cases; try reflexivity; lra.
  - intros [H1 H2]. classify_cases; try reflexivity; lra.
  - intros H. classify_cases; try reflexivity; lra.
Qed.

(** The tier bounds at work on the score 85. *)
Lemma classify_tiers_witness : _classify_threat_score 85 = "critical".
Proof.
  apply (proj1 (classify_tiers 85)). discriminate.
Defined.

(** C10.  [_classify_threat_score] returns one of the five tiers on every
    number, and "clean" on every number that is at most 0; a negative
    number does reach it through [normalize_threat_score], which returns
    it as it is for every source. *)
Theorem classify_total_clean_below_zero (score : Q) :
  In (_classify_threat_score score) tiers /\
  ((score <= 0)%Q -> _classify_threat_score score = "clean") /\
  (forall source : string,
     (score < 0)%Q ->
     normalize_threat_score source (ScoreNum score) = Returns score).
Proof.
  repeat split.
  - unfold tiers. classify_cases; simpl; tauto.
  - intros H. classify_cases; try reflexivity; lra.
  - intros source H. rewrite normalize_num. f_equal.
    apply min_100_below. lra.
Qed.

(** A score of -5 from a source without a branch of its own is passed on
    and classified clean. *)
Lemma classify_total_clean_below_zero_witness :
  normalize_threat_score "otx" (ScoreNum (-5)) = Returns (-5) /\
  _classify_threat_score (-5) = "clean".
Proof.
  split.
  - apply (proj2 (proj2 (classify_total_clean_below_zero (-5)))).
    reflexivity.
  - apply (proj1 (proj2 (classify_total_clean_below_zero (-5)))).
    discriminate.
Defined.

(** Rounding keeps the sign it is given. *)
Lemma binary_round_aux_sign (sx : bool) (mx ex : Z)
  (lx : SpecFloat.location) :
  let r := SpecFloat.binary_round_aux 53 1024 sx mx ex lx in
  r = SpecFloat.S754_zero sx \/
  (exists m e, r = SpecFloat.S754_finite sx m e) \/
  r = SpecFloat.S754_infinity sx \/
  r = SpecFloat.S754_nan.
Proof.
  unfold SpecFloat.binary_round_aux.
  destruct (SpecFloat.shr_fexp 53 1024 mx ex lx) as [mrs1 e1].
  destruct (SpecFloat.shr_fexp 53 1024 _ e1 SpecFloat.loc_Exact)
    as [mrs2 e2].
  destruct (SpecFloat.shr_m mrs2) as [|m|m];
    [now left| |now right; right; right].
  destruct (e2 <=? 1024 - 53);
    [right; left; eauto|right; right; left; reflexivity].
Qed.

Lemma int_true_div_not_negative (a b : Z) (q : Py.float) :
  0 <= a -> 0 < b -> Py.int_true_div a b = Some q -> Py.not_negative q.
Proof.
  intros Ha Hb. unfold Py.int_true_div.
  destruct b as [|pb|pb]; try lia.
  destruct a as [|pa|pa]; try lia.
  - simpl. intros [= <-]. exact I.
  - cbn [Py.int_operand SpecFloat.SFdiv xorb].
    destruct (SpecFloat.SFdiv_core_binary 53 1024 (Z.pos pa) 0 (Z.pos pb) 0)
      as [[mz ez] lz].
    destruct (binary_round_aux_sign false mz ez lz)
      as [E|[(m & e & E)|[E|E]]]; rewrite E; try discriminate;
      intros [= <-]; exact I.
Qed.

Lemma times_100_not_negative (x : Py.float) :
  Py.not_negative x -> Py.not_negative (Py.times_100 x).
Proof.
  unfold Py.times_100.
  destruct x as [s|[|]| |[|] m e]; simpl; try tauto; intros _.
  destruct (binary_round_aux_sign false (Z.pos (m * 100)) (e + 0)
              SpecFloat.loc_Exact)
    as [E|[(m' & e' & E)|[E|E]]]; cbv zeta in E; rewrite E; exact I.
Qed.

Lemma float_value_not_negative (x : Py.float) :
  Py.not_negative x -> (0 <= Py.float_value x)%Q.
Proof.
  destruct x as [s|s| |[|] m e]; simpl; try discriminate; try tauto.
  intros _. rewrite Qred_correct.
  apply Qmult_le_0_compat; [discriminate|].
  apply Qpower_0_le. discriminate.
Qed.

Lemma min_100_float_not_negative (y : Py.float) :
  Py.not_negative y ->
  exists r, min_100_float y = Returns r /\ (0 <= r)%Q /\ (r <= 100)%Q.
Proof.
  intros H.
  assert (Hv : (0 <= Py.float_value y)%Q)
    by (apply float_value_not_negative; exact H).
  destruct y as [s|[|]| |s m e]; simpl in H; try tauto;
    eexists; (split; [reflexivity|]);
    try (split; [now apply min_100_nonneg|apply min_100_le]);
    split; discriminate.
Qed.

(** C5, as the specification words it, fails: nothing is rounded.  A
    detection ratio of 1 in 8 comes back as 12.5, which is no integer
    (binary64 computes it exactly: 0.125 times 100). *)
Lemma normalize_ratio_is_not_rounded :
  normalize_threat_score "virustotal" (ScoreDict (Some 1) (Some 8))
  = Returns (25 # 2) /\
  (Py.is_int (25 # 2) -> False).
Proof.
  split; [vm_compute; reflexivity|exact not_int_25_2].
Qed.

(** C5, amended.  [normalize_threat_score] caps at 100 and rounds
    nothing.  A numeric input [x] that is not negative comes back as
    [min(100, x)] for every source, within [0, 100].  A detection ratio
    given for virustotal (a missing [positives] read as 0, a missing
    [total] as 1) comes back as 0 when [total] is not above 0, and else
    as the float [positives / total * 100], computed in binary64 and
    capped at 100: within [0, 100] when [positives] is not negative,
    unless the quotient is beyond the floats and [OverflowError] is
    raised; so 1 in 3 gives 33.33333333333333, the float
    2345624805922133 / 2^46.  Whatever number is returned is at most
    100. *)
Theorem normalize_threat_score_caps_at_100 (source : string) :
  (forall x : Q,
     (0 <= x)%Q ->
     normalize_threat_score source (ScoreNum x) = Returns (Py.min_100 x) /\
     (Py.min_100 x == Qmin 100 x)%Q /\
     (0 <= Py.min_100 x)%Q /\ (Py.min_100 x <= 100)%Q) /\
  (forall positives total : option Z,
     (default 1 total <= 0 ->
      normalize_threat_score "virustotal" (ScoreDict positives total)
      = Returns 0) /\
     (0 < default 1 total -> 0 <= default 0 positives ->
      normalize_threat_score "virustotal" (ScoreDict positives total)
      = Raises "OverflowError" \/
      exists r : Q,
        normalize_threat_score "virustotal" (ScoreDict positives total)
        = Returns r /\ (0 <= r)%Q /\ (r <= 100)%Q)) /\
  normalize_threat_score "virustotal" (ScoreDict (Some 1) (Some 3))
  = Returns (2345624805922133 # 70368744177664) /\
  normalize_threat_score "virustotal" (ScoreDict (Some 250) (Some 100))
  = Returns 100 /\
  normalize_threat_score "virustotal" (ScoreDict (Some (10 ^ 400)) None)
  = Raises "OverflowError" /\
  (forall (score : raw_score) (r : Q),
     normalize_threat_score source score = Returns r -> (r <= 100)%Q).
Proof.
  split; [|split; [|split; [|split; [|split]]]].
  - intros x H. split; [apply normalize_num|]. split; [apply min_100_Qmin|].
    split; [now apply min_100_nonneg | apply min_100_le].
  - intros positives total. rewrite normalize_ratio. split.
    + intros H. replace (0 <? default 1 total) with false; [reflexivity|].
      symmetry. apply Z.ltb_ge. exact H.
    + intros Ht Hp. replace (0 <? default 1 total) with true
        by (symmetry; apply Z.ltb_lt; exact Ht).
      destruct (Py.int_true_div (default 0 positives) (default 1 total))
        as [q|] eqn:E; [right|now left].
      apply min_100_float_not_negative, times_100_not_negative.
      exact (int_true_div_not_negative _ _ q Hp Ht E).
  - vm_compute. reflexivity.
  - vm_compute. reflexivity.
  - vm_compute. reflexivity.
  - intros score r. apply normalize_le_100.
Qed.

(** The cap at work: 150 from AbuseIPDB becomes 100, 42 stays; 7
    detections in 100 come back as the float 7.000000000000001. *)
Lemma normalize_threat_score_caps_at_100_witness :
  normalize_threat_score "abuseipdb" (ScoreNum 150) = Returns 100 /\
  normalize_threat_score "abuseipdb" (ScoreNum 42) = Returns 42 /\
  (exists r : Q,
     normalize_threat_score "virustotal" (ScoreDict (Some 7) (Some 100))
     = Returns r /\ (0 <= r)%Q /\ (r <= 100)%Q) /\
  normalize_threat_score "virustotal" (ScoreDict (Some 7) (Some 100))
  = Returns (7881299347898369 # 1125899906842624).
Proof.
  pose proof (normalize_threat_score_caps_at_100 "abuseipdb") as [H [H2 _]].
  split; [exact (proj1 (H 150%Q ltac:(discriminate)))|].
  split; [exact (proj1 (H 42%Q ltac:(discriminate)))|].
  split; [|vm_compute; reflexivity].
  destruct (proj2 (H2 (Some 7) (Some 100)) ltac:(simpl; lia) ltac:(simpl; lia))
    as [E|E]; [discriminate E|exact E].
Defined.

End ScoreFacts.

(** ** The collection under [store_ioc] and [update_ioc_tags] *)

Section StoreFacts.
Import World Database Store.

Lemma wf_empty_at (t0 tick : Z) : wf (Demo.empty_at t0 tick).
Proof. split; constructor. Qed.

Lemma wf_one_record (tick : Z) : wf (Demo.one_record tick).
Proof.
  split; vm_compute.
  - repeat constructor. exists 0%nat. split; [reflexivity|lia].
  - apply NoDup_singleton.
Qed.

Lemma has_key_true (v ty : string) (d : Ioc.t) :
  Ioc.has_key v ty d = true <-> Ioc.value d = v /\ Ioc.type d = ty.
Proof.
  unfold Ioc.has_key. rewrite andb_true_iff, !String.eqb_eq. tauto.
Qed.

Lemma has_key_self (d : Ioc.t) :
  Ioc.has_key (Ioc.value d) (Ioc.type d) d = true.
Proof. apply has_key_true. tauto. Qed.

Lemma has_id_true (i : nat) (d : Ioc.t) :
  Ioc.has_id i d = true <-> Ioc._id d = Some i.
Proof. unfold Ioc.has_id. apply bool_decide_eq_true. Qed.

Lemma update_data_keeps_identity (existing ioc_data : Ioc.t) (now : Z) :
  keeps_identity (update_data existing ioc_data now).
Proof. intros d. repeat split. Qed.

Lemma set_tags_keeps_identity (tags : list string) :
  keeps_identity (Ioc.set_tags tags).
Proof. intros d. repeat split. Qed.

Lemma has_key_keeps (upd : Ioc.t -> Ioc.t) (v ty : string) (d : Ioc.t) :
  keeps_identity upd -> Ioc.has_key v ty (upd d) = Ioc.has_key v ty d.
Proof.
  intros K. destruct (K d) as (_ & Hv & Ht).
  unfold Ioc.has_key. now rewrite Hv, Ht.
Qed.

Lemma update_first_ids (p : Ioc.t -> bool) (upd : Ioc.t -> Ioc.t)
  (c : list Ioc.t) :
  keeps_identity upd ->
  map Ioc._id (update_first p upd c) = map Ioc._id c.
Proof.
  intros K. induction c as [|d c IH]; [reflexivity|]. simpl.
  destruct (p d); simpl.
  - now destruct (K d) as (-> & _).
  - now rewrite IH.
Qed.

Lemma update_first_length (p : Ioc.t -> bool) (upd : Ioc.t -> Ioc.t)
  (c : list Ioc.t) :
  length (update_first p upd c) = length c.
Proof.
  induction c as [|d c IH]; [reflexivity|]. simpl.
  destruct (p d); simpl; [reflexivity|]. now rewrite IH.
Qed.

(** With distinct ids, updating by the id of the first document with a
    key rewrites that very document. *)
Lemma update_first_found (v ty : string) (upd : Ioc.t -> Ioc.t)
  (c : list Ioc.t) (e : Ioc.t) (i : nat) :
  NoDup (map Ioc._id c) ->
  List.find (Ioc.has_key v ty) c = Some e ->
  Ioc._id e = Some i ->
  exists pre post,
    c = (pre ++ e :: post)%list /\
    Forall (fun d => Ioc.has_key v ty d = false) pre /\
    update_first (Ioc.has_id i) upd c = (pre ++ upd e :: post)%list.
Proof.
  intros ND. induction c as [|d c IH]; [discriminate|].
  simpl. intros F Hi. destruct (Ioc.has_key v ty d) eqn:Ek.
  - injection F as ->. exists [], c. split; [reflexivity|].
    split; [constructor|]. simpl.
    apply has_id_true in Hi. now rewrite Hi.
  - apply NoDup_cons in ND as [Hd ND].
    destruct (IH ND F Hi) as (pre & post & -> & Hpre & Hup).
    exists (d :: pre), post. split; [reflexivity|].
    split; [now constructor|]. simpl.
    destruct (Ioc.has_id i d) eqn:Ei.
    + exfalso. apply Hd. apply has_id_true in Ei. rewrite Ei, <- Hi.
      apply list_elem_of_In, in_map, in_or_app. right. now left.
    + now rewrite Hup.
Qed.

Lemma find_has_id (c : list Ioc.t) (e : Ioc.t) (i : nat) :
  In e c -> Ioc._id e = Some i ->
  exists d, List.find (Ioc.has_id i) c = Some d.
Proof.
  intros Hin Hi. destruct (List.find (Ioc.has_id i) c) eqn:E; [eauto|].
  exfalso. pose proof (find_none _ _ E _ Hin) as H.
  apply has_id_true in Hi. congruence.
Qed.

(** [store_ioc] on a key that is stored: the merge. *)
Lemma store_ioc_merge (w : world) (ioc_data e : Ioc.t) (i : nat) :
  List.find (Ioc.has_key (Ioc.value ioc_data) (Ioc.type ioc_data)) (iocs w)
  = Some e ->
  Ioc._id e = Some i ->
  store_ioc ioc_data w
  = (Ok (i, ioc_data),
     with_iocs
       (update_first (Ioc.has_id i)
          (update_data e ioc_data (clock w (reads w))) (iocs w))
       (with_reads (S (reads w)) w)).
Proof.
  intros F Hi. unfold store_ioc, bind, find_one, utcnow. rewrite F.
  simpl. rewrite Hi. unfold bind, update_one. simpl.
  destruct (find_some _ _ F) as [Hin _].
  destruct (find_has_id _ _ _ Hin Hi) as [d ->]. reflexivity.
Qed.

(** [store_ioc] on a key that is not stored: the insertion. *)
Lemma store_ioc_insert (w : world) (ioc_data : Ioc.t) :
  List.find (Ioc.has_key (Ioc.value ioc_data) (Ioc.type ioc_data)) (iocs w)
  = None ->
  fresh ioc_data ->
  store_ioc ioc_data w
  = (Ok (next_oid w, inserted w ioc_data),
     with_next_oid (S (next_oid w))
       (with_iocs (iocs w ++ [inserted w ioc_data])%list
          (with_reads (S (S (reads w))) w))).
Proof.
  intros F Hf. unfold store_ioc, bind, find_one, utcnow. rewrite F.
  simpl. unfold insert_one. simpl. unfold fresh in Hf. rewrite Hf.
  reflexivity.
Qed.

Lemma filter_none (p : Ioc.t -> bool) (c : list Ioc.t) :
  Forall (fun d => p d = false) c -> List.filter p c = [].
Proof.
  induction 1 as [|d c Hd _ IH]; [reflexivity|]. simpl. now rewrite Hd.
Qed.

Lemma find_none_filter (p : Ioc.t -> bool) (c : list Ioc.t) :
  List.find p c = None -> List.filter p c = [].
Proof.
  intros F. apply filter_none. apply List.Forall_forall. intros d Hd.
  exact (find_none _ _ F d Hd).
Qed.

Lemma filter_nil_find (p : Ioc.t -> bool) (c : list Ioc.t) :
  List.filter p c = [] -> List.find p c = None.
Proof.
  induction c as [|d c IH]; [reflexivity|]. simpl.
  destruct (p d); [discriminate|]. exact IH.
Qed.

Lemma filter_cons_find (p : Ioc.t -> bool) (c : list Ioc.t) (e : Ioc.t)
  (rest : list Ioc.t) :
  List.filter p c = e :: rest -> List.find p c = Some e.
Proof.
  induction c as [|d c IH]; [discriminate|]. simpl.
  destruct (p d); [now intros [= ->]|]. exact IH.
Qed.

Lemma evolves_refl_app (R : Ioc.t -> Ioc.t -> Prop) (c added : list Ioc.t) :
  (forall d, R d d) -> evolves R c (c ++ added)%list.
Proof.
  intros HR. exists c, added. split; [reflexivity|].
  induction c; constructor; auto.
Qed.

Lemma evolves_at (R : Ioc.t -> Ioc.t -> Prop) (pre post : list Ioc.t)
  (e r : Ioc.t) :
  (forall d, R d d) -> Ioc._id r = Ioc._id e -> R e r ->
  evolves R (pre ++ e :: post)%list (pre ++ r :: post)%list.
Proof.
  intros HR Hid Her. exists (pre ++ r :: post)%list, [].
  split; [now rewrite app_nil_r|].
  induction pre as [|d pre IH]; simpl.
  - constructor; [auto|]. induction post; constructor; auto.
  - constructor; auto.
Qed.

(** What one [store_ioc] call does to a well-formed collection. *)
Lemma store_ioc_step (w : world) (d : Ioc.t) :
  wf w -> fresh d ->
  exists r w',
    store_ioc d w = (Ok r, w') /\ wf w' /\
    clock w' = clock w /\ live_stats w' = live_stats w /\
    events w' = events w /\ monitoring w' = monitoring w /\
    match List.find (Ioc.has_key (Ioc.value d) (Ioc.type d)) (iocs w) with
    | Some e =>
        exists pre post,
          iocs w = (pre ++ e :: post)%list /\
          Forall (fun x => Ioc.has_key (Ioc.value d) (Ioc.type d) x = false)
                 pre /\
          iocs w'
          = (pre ++ update_data e d (clock w (reads w)) e :: post)%list /\
          snd r = d
    | None =>
        iocs w' = (iocs w ++ [inserted w d])%list /\ snd r = inserted w d
    end.
Proof.
  intros [Hids Hnd] Hf.
  destruct (List.find (Ioc.has_key (Ioc.value d) (Ioc.type d)) (iocs w))
    as [e|] eqn:F.
  - destruct (find_some _ _ F) as [Hin _].
    destruct (proj1 (List.Forall_forall _ _) Hids e Hin) as (i & Hi & _).
    rewrite (store_ioc_merge w d e i F Hi).
    destruct (update_first_found _ _ (update_data e d (clock w (reads w)))
                _ _ _ Hnd F Hi) as (pre & post & Hc & Hpre & Hup).
    eexists _, _. split; [reflexivity|]. simpl.
    split; [|repeat split; try reflexivity; exists pre, post; auto].
    split; simpl.
    + rewrite Hup. rewrite Hc in Hids.
      apply Forall_app in Hids as [H1 H2].
      apply Forall_cons in H2 as [H2 H3].
      apply Forall_app. split; [exact H1|]. apply Forall_cons. auto.
    + rewrite update_first_ids; [exact Hnd|].
      apply update_data_keeps_identity.
  - rewrite (store_ioc_insert w d F Hf).
    eexists _, _. split; [reflexivity|]. simpl.
    split; [|repeat split; reflexivity].
    split; simpl.
    + apply Forall_app. split.
      * eapply List.Forall_impl; [|exact Hids].
        intros x (i & Hi & Hlt). exists i. split; [exact Hi|lia].
      * apply Forall_cons. split; [|constructor].
        exists (next_oid w). split; [reflexivity|lia].
    + rewrite map_app. simpl. apply NoDup_app. split; [exact Hnd|].
      split; [|apply NoDup_singleton].
      intros x Hx Hx'. apply list_elem_of_singleton in Hx'. subst x.
      apply list_elem_of_In, in_map_iff in Hx as (y & Hy & Hyin).
      destruct (proj1 (List.Forall_forall _ _) Hids y Hyin) as (i & Hi & Hlt).
      rewrite Hi in Hy. injection Hy as ->. lia.
Qed.

(** The same, read off the records of each key. *)
Lemma store_ioc_records (w : world) (d : Ioc.t) :
  wf w -> fresh d ->
  exists r w',
    store_ioc d w = (Ok r, w') /\ wf w' /\
    (forall v ty, Ioc.has_key v ty d = false ->
                  records_of v ty w' = records_of v ty w) /\
    match records_of (Ioc.value d) (Ioc.type d) w with
    | [] =>
        records_of (Ioc.value d) (Ioc.type d) w' = [inserted w d] /\
        length (iocs w') = S (length (iocs w))
    | e :: rest =>
        records_of (Ioc.value d) (Ioc.type d) w'
        = update_data e d (clock w (reads w)) e :: rest /\
        length (iocs w') = length (iocs w)
    end.
Proof.
  intros Hwf Hf.
  destruct (store_ioc_step w d Hwf Hf)
    as (r & w' & Hrun & Hwf' & _ & _ & _ & _ & Hc).
  exists r, w'. split; [exact Hrun|]. split; [exact Hwf'|].
  unfold records_of.
  destruct (List.find (Ioc.has_key (Ioc.value d) (Ioc.type d)) (iocs w))
    as [e|] eqn:F.
  - destruct Hc as (pre & post & Hw & Hpre & Hw' & _).
    destruct (find_some _ _ F) as [_ He].
    rewrite Hw, Hw'. split.
    + intros v ty Hk. rewrite !List.filter_app. simpl.
      rewrite (has_key_keeps _ v ty e (update_data_keeps_identity _ _ _)).
      apply has_key_true in He as [Hv Ht].
      replace (Ioc.has_key v ty e) with (Ioc.has_key v ty d)
        by (unfold Ioc.has_key; now rewrite Hv, Ht).
      now rewrite Hk.
    + rewrite !List.filter_app, (filter_none _ _ Hpre). simpl.
      rewrite (has_key_keeps _ _ _ e (update_data_keeps_identity _ _ _)).
      rewrite He. split; [reflexivity|].
      rewrite !length_app. reflexivity.
  - destruct Hc as [Hw' _]. rewrite Hw'. split.
    + intros v ty Hk. rewrite List.filter_app. simpl.
      replace (Ioc.has_key v ty (inserted w d)) with (Ioc.has_key v ty d)
        by reflexivity.
      rewrite Hk. apply app_nil_r.
    + rewrite (find_none_filter _ _ F).
      rewrite List.filter_app, (find_none_filter _ _ F). simpl.
      replace (Ioc.has_key (Ioc.value d) (Ioc.type d) (inserted w d))
        with (Ioc.has_key (Ioc.value d) (Ioc.type d) d) by reflexivity.
      rewrite has_key_self. split; [reflexivity|].
      rewrite length_app. simpl. lia.
Qed.

Lemma list_set_elem (l : list string) (s : string) :
  s ∈ list_set l <-> s ∈ l.
Proof.
  unfold list_set. rewrite elem_of_elements. apply elem_of_list_to_set.
Qed.

Lemma list_set_NoDup (l : list string) : NoDup (list_set l).
Proof. unfold list_set. apply NoDup_elements. Qed.

Lemma update_data_sources (e d x : Ioc.t) (now : Z) (s : string) :
  s ∈ sources_of (update_data e d now x)
  <-> s ∈ sources_of e \/ s ∈ sources_of d.
Proof.
  unfold sources_of. simpl. rewrite list_set_elem. apply elem_of_app.
Qed.

Lemma update_data_score (e d x : Ioc.t) (now : Z) :
  Ioc.threat_score (update_data e d now x)
  = Some (Z.max (score_of e) (score_of d)).
Proof. reflexivity. Qed.

(** A stream of stores onto a key that already has its record. *)
Lemma store_all_merges (v ty : string) (obs : list Ioc.t) :
  forall (w : world) (e : Ioc.t),
    wf w -> Forall fresh obs -> records_of v ty w = [e] ->
    exists w' r,
      store_all obs w = (Ok tt, w') /\ wf w' /\
      records_of v ty w' = [r] /\
      score_of r
      = fold_left Z.max (map score_of (obs_for v ty obs)) (score_of e) /\
      (is_Some (Ioc.threat_score e) -> is_Some (Ioc.threat_score r)) /\
      (forall s, s ∈ sources_of r <->
                 s ∈ sources_of e \/
                 exists d, In d (obs_for v ty obs) /\ s ∈ sources_of d) /\
      Ioc.classification r = Ioc.classification e /\
      Ioc.tags r = Ioc.tags e /\
      (Forall (fun d => Ioc.has_key v ty d = true) obs ->
       length (iocs w') = length (iocs w)).
Proof.
  induction obs as [|d obs IH]; intros w e Hwf Hfr Hrec.
  - exists w, e. simpl. split; [reflexivity|]. split; [exact Hwf|].
    split; [exact Hrec|]. split; [reflexivity|]. split; [auto|].
    split; [|auto]. intros s. split; [intros H; now left|].
    intros [H|(d & [] & _)]. exact H.
  - apply Forall_cons in Hfr as [Hd Hfr].
    destruct (store_ioc_records w d Hwf Hd)
      as (r1 & w1 & Hrun & Hwf1 & Hframe & Hkey).
    simpl store_all. unfold bind at 1. rewrite Hrun.
    unfold obs_for. simpl List.filter.
    destruct (Ioc.has_key v ty d) eqn:Ek.
    + apply has_key_true in Ek as [<- <-]. rewrite Hrec in Hkey.
      destruct Hkey as [Hrec1 Hlen1].
      destruct (IH w1 _ Hwf1 Hfr Hrec1)
        as (w' & r & Hrun' & Hwf' & Hrec' & Hsc & Hsome & Hsrc & Hcl & Htg
            & Hlen).
      exists w', r. split; [exact Hrun'|]. split; [exact Hwf'|].
      split; [exact Hrec'|]. split; [exact Hsc|].
      split; [intros _; apply Hsome; now eexists|].
      split; [|split; [exact Hcl|split; [exact Htg|]]].
      * intros s. rewrite Hsrc, update_data_sources. split.
        -- intros [[H|H]|(x & Hx & H)]; [now left| |].
           ++ right. exists d. split; [now left|exact H].
           ++ right. exists x. split; [now right|exact H].
        -- intros [H|(x & [<-|Hx] & H)].
           ++ left. now left.
           ++ left. now right.
           ++ right. exists x. now split.
      * intros Hall. apply Forall_cons in Hall as [_ Hall].
        rewrite (Hlen Hall). exact Hlen1.
    + rewrite <- (Hframe v ty Ek) in Hrec.
      destruct (IH w1 e Hwf1 Hfr Hrec)
        as (w' & r & Hrun' & Hwf' & Hrec' & Hsc & Hsome & Hsrc & Hcl & Htg
            & Hlen).
      exists w', r. split; [exact Hrun'|]. split; [exact Hwf'|].
      split; [exact Hrec'|]. split; [exact Hsc|]. split; [exact Hsome|].
      split; [exact Hsrc|]. split; [exact Hcl|]. split; [exact Htg|].
      intros Hall. apply Forall_cons in Hall as [Hk _]. congruence.
Qed.

(** A stream of stores onto a key that has no record yet. *)
Lemma store_all_creates (v ty : string) (obs : list Ioc.t) :
  forall w : world,
    wf w -> Forall fresh obs -> records_of v ty w = [] ->
    match obs_for v ty obs with
    | [] =>
        exists w',
          store_all obs w = (Ok tt, w') /\ wf w' /\ records_of v ty w' = []
    | d0 :: ds =>
        exists w' r,
          store_all obs w = (Ok tt, w') /\ wf w' /\
          records_of v ty w' = [r] /\
          score_of r = fold_left Z.max (map score_of ds) (score_of d0) /\
          (is_Some (Ioc.threat_score d0) -> is_Some (Ioc.threat_score r)) /\
          (forall s, s ∈ sources_of r <->
                     exists d, In d (d0 :: ds) /\ s ∈ sources_of d) /\
          Ioc.classification r = Ioc.classification d0 /\
          Ioc.tags r = Some (tags_of d0) /\
          (Forall (fun d => Ioc.has_key v ty d = true) obs ->
           length (iocs w') = S (length (iocs w)))
    end.
Proof.
  induction obs as [|d obs IH]; intros w Hwf Hfr Hrec.
  - simpl. exists w. auto.
  - apply Forall_cons in Hfr as [Hd Hfr].
    destruct (store_ioc_records w d Hwf Hd)
      as (r1 & w1 & Hrun & Hwf1 & Hframe & Hkey).
    unfold obs_for. simpl List.filter.
    destruct (Ioc.has_key v ty d) eqn:Ek.
    + apply has_key_true in Ek as [<- <-]. rewrite Hrec in Hkey.
      destruct Hkey as [Hrec1 Hlen1].
      destruct (store_all_merges _ _ obs w1 _ Hwf1 Hfr Hrec1)
        as (w' & r & Hrun' & Hwf' & Hrec' & Hsc & Hsome & Hsrc & Hcl & Htg
            & Hlen).
      exists w', r. simpl store_all. unfold bind at 1. rewrite Hrun.
      split; [exact Hrun'|]. split; [exact Hwf'|].
      split; [exact Hrec'|]. split; [exact Hsc|].
      split; [exact Hsome|].
      split; [|split; [exact Hcl|split; [exact Htg|]]].
      * intros s. rewrite Hsrc. split.
        -- intros [H|(x & Hx & H)].
           ++ exists d. split; [now left|exact H].
           ++ exists x. split; [now right|exact H].
        -- intros (x & [<-|Hx] & H); [now left|].
           right. exists x. now split.
      * intros Hall. apply Forall_cons in Hall as [_ Hall].
        rewrite (Hlen Hall). exact Hlen1.
    + rewrite <- (Hframe v ty Ek) in Hrec.
      specialize (IH w1 Hwf1 Hfr Hrec). fold (obs_for v ty obs).
      destruct (obs_for v ty obs) as [|d0 ds].
      * destruct IH as (w' & Hrun' & Hwf' & Hrec').
        exists w'. simpl store_all. unfold bind at 1. rewrite Hrun. auto.
      * destruct IH
          as (w' & r & Hrun' & Hwf' & Hrec' & Hsc & Hsome & Hsrc & Hcl & Htg
              & Hlen).
        exists w', r. simpl store_all. unfold bind at 1. rewrite Hrun.
        split; [exact Hrun'|]. split; [exact Hwf'|].
        split; [exact Hrec'|]. split; [exact Hsc|]. split; [exact Hsome|].
        split; [exact Hsrc|]. split; [exact Hcl|]. split; [exact Htg|].
        intros Hall. apply Forall_cons in Hall as [Hk _]. congruence.
Qed.

Lemma fold_max_spec (l : list Z) (x : Z) :
  In (fold_left Z.max l x) (x :: l) /\
  Forall (fun y => y <= fold_left Z.max l x) (x :: l).
Proof.
  revert x. induction l as [|a l IH]; intros x; simpl.
  - split; [now left|]. constructor; [lia|constructor].
  - destruct (IH (Z.max x a)) as [Hin Hall].
    apply Forall_cons in Hall as [Hm Hall]. split.
    + destruct Hin as [Hin|Hin]; [|right; right; exact Hin].
      destruct (Z.max_spec x a) as [[_ E]|[_ E]]; rewrite E in *.
      * right. left. exact Hin.
      * left. exact Hin.
    + constructor; [lia|]. constructor; [lia|exact Hall].
Qed.

Lemma maximum_spec (l : list Z) (m : Z) :
  Py.maximum l = Some m <-> In m l /\ Forall (fun y => y <= m) l.
Proof.
  destruct l as [|x l]; simpl.
  - split; [discriminate|]. now intros [[] _].
  - destruct (fold_max_spec l x) as [Hin Hall]. split.
    + now intros [= <-].
    + intros [Hm Hle]. f_equal.
      pose proof (proj1 (List.Forall_forall _ _) Hall m Hm) as H1.
      pose proof (proj1 (List.Forall_forall _ _) Hle _ Hin) as H2.
      simpl in H1, H2. lia.
Qed.

Lemma maximum_perm (l l' : list Z) :
  Permutation l l' -> Py.maximum l = Py.maximum l'.
Proof.
  intros HP. destruct (Py.maximum l) as [m|] eqn:E.
  - symmetry. apply maximum_spec. apply maximum_spec in E as [Hin Hall].
    split; [exact (Permutation_in _ HP Hin)|].
    exact (Permutation_Forall HP Hall).
  - destruct l; [|discriminate].
    apply Permutation_nil in HP. now subst l'.
Qed.

Lemma filter_perm (p : Ioc.t -> bool) (l l' : list Ioc.t) :
  Permutation l l' -> Permutation (List.filter p l) (List.filter p l').
Proof.
  induction 1 as [|x l l' _ IH|x y l|l l' l'' _ IH1 _ IH2]; simpl.
  - constructor.
  - destruct (p x); [now constructor|exact IH].
  - destruct (p x), (p y); try reflexivity. constructor.
  - now transitivity (List.filter p l').
Qed.

(** A stream of stores goes through and keeps the keys unique. *)
Lemma store_all_unique (obs : list Ioc.t) :
  forall w : world,
    wf w -> Forall fresh obs -> unique_keys w ->
    exists w', store_all obs w = (Ok tt, w') /\ wf w' /\ unique_keys w'.
Proof.
  induction obs as [|d obs IH]; intros w Hwf Hfr Hu.
  - exists w. auto.
  - apply Forall_cons in Hfr as [Hd Hfr].
    destruct (store_ioc_records w d Hwf Hd)
      as (r1 & w1 & Hrun & Hwf1 & Hframe & Hkey).
    assert (Hu1 : unique_keys w1).
    { intros v ty. destruct (Ioc.has_key v ty d) eqn:Ek.
      - apply has_key_true in Ek as [<- <-].
        specialize (Hu (Ioc.value d) (Ioc.type d)).
        destruct (records_of (Ioc.value d) (Ioc.type d) w) as [|e rest].
        + destruct Hkey as [-> _]. simpl. lia.
        + destruct Hkey as [-> _]. exact Hu.
      - rewrite (Hframe v ty Ek). apply Hu. }
    destruct (IH w1 Hwf1 Hfr Hu1) as (w' & Hrun' & Hwf' & Hu').
    exists w'. simpl. unfold bind. rewrite Hrun. auto.
Qed.

(** C1.  Whatever the order in which the observations of a stream arrive,
    the record that [store_ioc] keeps for a key ends with the maximum of
    the scores observed for that key; and a single merge sets the score to
    [max(existing, incoming)], never below what was stored. *)
Theorem store_ioc_score_is_maximum :
  (forall (w : world) (v ty : string) (obs obs' : list Ioc.t),
     wf w -> records_of v ty w = [] -> Forall fresh obs ->
     Forall (fun d => is_Some (Ioc.threat_score d)) (obs_for v ty obs) ->
     obs_for v ty obs <> [] ->
     Permutation obs obs' ->
     exists w' r,
       store_all obs' w = (Ok tt, w') /\
       records_of v ty w' = [r] /\
       Ioc.threat_score r = Py.maximum (map score_of (obs_for v ty obs))) /\
  (forall (w : world) (d e : Ioc.t) (rest : list Ioc.t),
     wf w -> fresh d ->
     records_of (Ioc.value d) (Ioc.type d) w = e :: rest ->
     exists r1 w' r,
       store_ioc d w = (Ok r1, w') /\
       records_of (Ioc.value d) (Ioc.type d) w' = r :: rest /\
       Ioc.threat_score r = Some (Z.max (score_of e) (score_of d)) /\
       score_of e <= score_of r).
Proof.
  split.
  - intros w v ty obs obs' Hwf Hrec Hfr Hsome Hne HP.
    pose proof (filter_perm (Ioc.has_key v ty) _ _ HP) as HPf.
    fold (obs_for v ty obs) (obs_for v ty obs') in HPf.
    pose proof (store_all_creates v ty obs' w Hwf
                  (Permutation_Forall HP Hfr) Hrec) as H.
    rewrite (maximum_perm _ _ (Permutation_map score_of HPf)).
    pose proof (Permutation_Forall HPf Hsome) as Hsome'.
    destruct (obs_for v ty obs') as [|d0 ds].
    + apply Permutation_sym, Permutation_nil in HPf. contradiction.
    + destruct H as (w' & r & Hrun & _ & Hr & Hsc & His & _).
      exists w', r. split; [exact Hrun|]. split; [exact Hr|].
      apply Forall_cons in Hsome' as [Hd0 _].
      destruct (His Hd0) as [x Hx]. unfold score_of in Hsc at 1.
      rewrite Hx in Hsc |- *. simpl in Hsc |- *. now rewrite Hsc.
  - intros w d e rest Hwf Hd Hrec.
    destruct (store_ioc_records w d Hwf Hd)
      as (r1 & w1 & Hrun & _ & _ & Hkey).
    rewrite Hrec in Hkey. destruct Hkey as [Hrec1 _].
    exists r1, w1, (update_data e d (clock w (reads w)) e).
    split; [exact Hrun|]. split; [exact Hrec1|].
    split; [apply update_data_score|].
    unfold score_of at 2. rewrite update_data_score. simpl. lia.
Qed.

(** The scores 30 and 90 stored for one address in the other order. *)
Lemma store_ioc_score_is_maximum_witness :
  exists w' r,
    store_all [Demo.seen "B" 30 "medium" []; Demo.seen "A" 90 "critical" []]
      (Demo.empty_at 0 1) = (Ok tt, w') /\
    records_of "198.51.100.7" "ip" w' = [r] /\
    Ioc.threat_score r = Some 90.
Proof.
  apply (proj1 store_ioc_score_is_maximum (Demo.empty_at 0 1)
           "198.51.100.7" "ip"
           [Demo.seen "A" 90 "critical" []; Demo.seen "B" 30 "medium" []]).
  - apply wf_empty_at.
  - reflexivity.
  - repeat constructor.
  - repeat constructor; eexists; reflexivity.
  - discriminate.
  - apply perm_swap.
Defined.

(** Once a merge has run the sources of a record hold no name twice:
    the merge writes them as [list(set(...))]. *)
Lemma store_all_merges_NoDup (v ty : string) (obs : list Ioc.t) :
  forall (w w' : world) (e r : Ioc.t),
    wf w -> Forall fresh obs -> records_of v ty w = [e] ->
    NoDup (sources_of e) \/ obs_for v ty obs <> [] ->
    store_all obs w = (Ok tt, w') -> records_of v ty w' = [r] ->
    NoDup (sources_of r).
Proof.
  induction obs as [|d obs IH]; intros w w' e r Hwf Hfr Hrec Hnd Hrun' Hrec'.
  - simpl in Hrun'. injection Hrun' as <-.
    rewrite Hrec in Hrec'. injection Hrec' as <-.
    destruct Hnd as [H|H]; [exact H|]. now contradiction H.
  - apply Forall_cons in Hfr as [Hd Hfr].
    destruct (store_ioc_records w d Hwf Hd)
      as (r1 & w1 & Hrun & Hwf1 & Hframe & Hkey).
    simpl store_all in Hrun'. unfold bind at 1 in Hrun'.
    rewrite Hrun in Hrun'.
    destruct (Ioc.has_key v ty d) eqn:Ek.
    + apply has_key_true in Ek as [<- <-]. rewrite Hrec in Hkey.
      destruct Hkey as [Hrec1 _].
      apply (IH w1 w' _ r Hwf1 Hfr Hrec1); [|exact Hrun'|exact Hrec'].
      left. unfold sources_of, update_data. simpl. apply list_set_NoDup.
    + rewrite <- (Hframe v ty Ek) in Hrec.
      apply (IH w1 w' e r Hwf1 Hfr Hrec); [|exact Hrun'|exact Hrec'].
      destruct Hnd as [H|H]; [now left|right].
      unfold obs_for in *. simpl in H. rewrite Ek in H. exact H.
Qed.

Lemma store_all_creates_NoDup (v ty : string) (obs : list Ioc.t) :
  forall (w w' : world) (r : Ioc.t),
    wf w -> Forall fresh obs -> records_of v ty w = [] ->
    (2 <= length (obs_for v ty obs))%nat ->
    store_all obs w = (Ok tt, w') -> records_of v ty w' = [r] ->
    NoDup (sources_of r).
Proof.
  induction obs as [|d obs IH]; intros w w' r Hwf Hfr Hrec Hlen Hrun' Hrec'.
  - simpl in Hlen. lia.
  - apply Forall_cons in Hfr as [Hd Hfr].
    destruct (store_ioc_records w d Hwf Hd)
      as (r1 & w1 & Hrun & Hwf1 & Hframe & Hkey).
    simpl store_all in Hrun'. unfold bind at 1 in Hrun'.
    rewrite Hrun in Hrun'.
    unfold obs_for in Hlen. simpl in Hlen.
    destruct (Ioc.has_key v ty d) eqn:Ek.
    + apply has_key_true in Ek as [<- <-]. rewrite Hrec in Hkey.
      destruct Hkey as [Hrec1 _].
      apply (store_all_merges_NoDup _ _ obs w1 w' _ r Hwf1 Hfr Hrec1);
        [|exact Hrun'|exact Hrec'].
      right. unfold obs_for. intros E. rewrite E in Hlen. simpl in Hlen. lia.
    + rewrite <- (Hframe v ty Ek) in Hrec.
      exact (IH w1 w' r Hwf1 Hfr Hrec Hlen Hrun' Hrec').
Qed.

(** C2.  [store_ioc] never leaves two records under one key: a stream of
    stores keeps the keys of the collection unique; the stores for a key
    that was absent leave exactly one record for it, the later ones having
    updated the first one's record (a stream on that key alone grows the
    collection by that one document); and the sources of the record are
    those of all the observations stored for the key, as a set: each is
    there once as soon as a second observation has been merged (a single
    stored observation keeps its list as it came). *)
Theorem store_ioc_one_record_sources_union (w : world)
  (obs : list Ioc.t) :
  wf w -> Forall fresh obs ->
  (unique_keys w ->
   exists w', store_all obs w = (Ok tt, w') /\ unique_keys w') /\
  (forall v ty : string,
     records_of v ty w = [] -> obs_for v ty obs <> [] ->
     exists w' r,
       store_all obs w = (Ok tt, w') /\
       records_of v ty w' = [r] /\
       (forall s, s ∈ sources_of r <->
                  exists d, In d (obs_for v ty obs) /\ s ∈ sources_of d) /\
       ((2 <= length (obs_for v ty obs))%nat -> NoDup (sources_of r)) /\
       (Forall (fun d => Ioc.has_key v ty d = true) obs ->
        length (iocs w') = S (length (iocs w)))).
Proof.
  intros Hwf Hfr. split.
  - intros Hu. destruct (store_all_unique obs w Hwf Hfr Hu)
      as (w' & Hrun & _ & Hu').
    exists w'. auto.
  - intros v ty Hrec Hne.
    pose proof (store_all_creates v ty obs w Hwf Hfr Hrec) as H.
    pose proof (store_all_creates_NoDup v ty obs w) as Hnd.
    destruct (obs_for v ty obs) as [|d0 ds]; [contradiction|].
    destruct H as (w' & r & Hrun & _ & Hr & _ & _ & Hsrc & _ & _ & Hlen).
    exists w', r. split; [exact Hrun|]. split; [exact Hr|].
    split; [exact Hsrc|]. split; [|exact Hlen].
    intros H2. exact (Hnd w' r Hwf Hfr Hrec H2 Hrun Hr).
Qed.

(** Three observations of one address, by the sources A, B and A again:
    one record, whose sources are A and B, each once. *)
Lemma store_ioc_one_record_sources_union_witness :
  exists w' r,
    store_all [Demo.seen "A" 90 "critical" []; Demo.seen "B" 30 "medium" [];
               Demo.seen "A" 50 "medium" []]
      (Demo.empty_at 0 1) = (Ok tt, w') /\
    records_of "198.51.100.7" "ip" w' = [r] /\
    (forall s, s ∈ sources_of r <-> s = "A" \/ s = "B") /\
    NoDup (sources_of r) /\
    length (iocs w') = 1%nat.
Proof.
  destruct (proj2 (store_ioc_one_record_sources_union (Demo.empty_at 0 1)
              [Demo.seen "A" 90 "critical" []; Demo.seen "B" 30 "medium" [];
               Demo.seen "A" 50 "medium" []]
              (wf_empty_at 0 1) ltac:(repeat constructor))
              "198.51.100.7" "ip" eq_refl ltac:(discriminate))
    as (w' & r & Hrun & Hr & Hsrc & Hnd & Hlen).
  exists w', r. split; [exact Hrun|]. split; [exact Hr|]. split; [|split].
  - intros s. rewrite Hsrc. split.
    + intros (d & [ <- | [ <- | [ <- | [] ] ] ] & Hs);
        apply list_elem_of_singleton in Hs; auto.
    + intros [ -> | -> ].
      * exists (Demo.seen "A" 90 "critical" []).
        split; [now left|]. now apply list_elem_of_singleton.
      * exists (Demo.seen "B" 30 "medium" []).
        split; [now right; left|]. now apply list_elem_of_singleton.
  - apply Hnd. vm_compute. lia.
  - apply Hlen. repeat constructor.
Defined.

(** C4, as the specification words it, fails: the merge writes neither
    the tags nor the per-source observations.  A second observation tagged
    "botnet" and carrying its own observation leaves the record with the
    tags and the one observation of the first. *)
Lemma merge_keeps_tags_and_observations :
  let first := Demo.seen "honeypot" 70 "high" ["malware"] in
  let second := Demo.seen "dns_sinkhole" 90 "high" ["botnet"] in
  let stored := iocs (snd (store_all [first; second] (Demo.empty_at 0 1))) in
  map Ioc.tags stored = [Some ["malware"]] /\
  map Ioc.source_details stored
  = [Some [Demo.answer "honeypot" 70 "high"]] /\
  map Ioc.threat_score stored = [Some 90] /\
  map Ioc.last_seen stored = [Some 2].
Proof. vm_compute. repeat split. Qed.

(** C4, amended.  When [store_ioc] is called for a key that has a record,
    the merge sets [last_seen] to the current time, [threat_score] to the
    maximum of the stored and the incoming score and [sources] to the
    union (without repeats) of the stored and the incoming sources; the
    tags, the per-source observations and every other field of the record
    stay as they were, and so does every other document. *)
Theorem store_ioc_merge_fields (w : world) (d e : Ioc.t) :
  wf w ->
  List.find (Ioc.has_key (Ioc.value d) (Ioc.type d)) (iocs w) = Some e ->
  exists i pre post r,
    Ioc._id e = Some i /\
    iocs w = (pre ++ e :: post)%list /\
    store_ioc d w
    = (Ok (i, d),
       with_iocs (pre ++ r :: post)%list (with_reads (S (reads w)) w)) /\
    Ioc.last_seen r = Some (clock w (reads w)) /\
    Ioc.threat_score r = Some (Z.max (score_of e) (score_of d)) /\
    (forall s, s ∈ sources_of r <-> s ∈ sources_of e \/ s ∈ sources_of d) /\
    NoDup (sources_of r) /\
    Ioc.tags r = Ioc.tags e /\
    Ioc.source_details r = Ioc.source_details e /\
    Ioc.classification r = Ioc.classification e /\
    Ioc.description r = Ioc.description e /\
    Ioc.timestamp r = Ioc.timestamp e /\
    Ioc._id r = Ioc._id e /\
    Ioc.value r = Ioc.value e /\
    Ioc.type r = Ioc.type e.
Proof.
  intros [Hids Hnd] F.
  destruct (find_some _ _ F) as [Hin _].
  destruct (proj1 (List.Forall_forall _ _) Hids e Hin) as (i & Hi & _).
  destruct (update_first_found _ _ (update_data e d (clock w (reads w)))
              _ _ _ Hnd F Hi) as (pre & post & Hc & _ & Hup).
  exists i, pre, post, (update_data e d (clock w (reads w)) e).
  split; [exact Hi|]. split; [exact Hc|].
  split; [rewrite (store_ioc_merge w d e i F Hi), Hup; reflexivity|].
  split; [reflexivity|]. split; [reflexivity|].
  split; [intros s; apply update_data_sources|].
  split; [apply list_set_NoDup|].
  repeat split.
Qed.

(** The merge of a second observation into the record of the first. *)
Lemma store_ioc_merge_fields_witness :
  exists i pre post r,
    store_ioc (Demo.seen "dns_sinkhole" 90 "high" ["botnet"])
      (Demo.one_record 1)
    = (Ok (i, Demo.seen "dns_sinkhole" 90 "high" ["botnet"]),
       with_iocs (pre ++ r :: post)%list
         (with_reads (S (reads (Demo.one_record 1))) (Demo.one_record 1))) /\
    Ioc.threat_score r = Some 90 /\
    Ioc.tags r = Some ["malware"].
Proof.
  destruct (store_ioc_merge_fields (Demo.one_record 1)
              (Demo.seen "dns_sinkhole" 90 "high" ["botnet"])
              (Ioc.set_id 0
                 (Ioc.set_last_seen 1
                    (Ioc.set_timestamp 0
                       (Demo.seen "honeypot" 70 "high" ["malware"]))))
              (wf_one_record 1) eq_refl)
    as (i & pre & post & r & _ & _ & Hrun & _ & Hsc & _ & _ & Htg & _).
  exists i, pre, post, r. split; [exact Hrun|].
  split; [exact Hsc|exact Htg].
Defined.

Lemma update_first_evolves (R : Ioc.t -> Ioc.t -> Prop) (p : Ioc.t -> bool)
  (upd : Ioc.t -> Ioc.t) (c : list Ioc.t) :
  (forall d, R d d) -> (forall d, R d (upd d)) -> keeps_identity upd ->
  evolves R c (update_first p upd c).
Proof.
  intros Hrefl Hupd K. exists (update_first p upd c), [].
  split; [now rewrite app_nil_r|].
  induction c as [|d c IH]; simpl; [constructor|].
  destruct (p d).
  - constructor; [split; [apply K|apply Hupd]|].
    clear IH. induction c; constructor; auto.
  - constructor; auto.
Qed.

Lemma find_update_first (i : nat) (upd : Ioc.t -> Ioc.t) (c : list Ioc.t)
  (e : Ioc.t) :
  keeps_identity upd ->
  List.find (Ioc.has_id i) c = Some e ->
  List.find (Ioc.has_id i) (update_first (Ioc.has_id i) upd c)
  = Some (upd e).
Proof.
  intros K. induction c as [|d c IH]; [discriminate|]. simpl.
  destruct (Ioc.has_id i d) eqn:Ei.
  - intros [= ->]. simpl.
    replace (Ioc.has_id i (upd e)) with true; [reflexivity|].
    symmetry. apply has_id_true. apply has_id_true in Ei.
    destruct (K e) as (-> & _). exact Ei.
  - intros F. simpl. rewrite Ei. exact (IH F).
Qed.

Lemma update_first_evolves_by_id (i : nat) (tags : list string)
  (c : list Ioc.t) :
  evolves (fun a b => Ioc.sources b = Ioc.sources a /\
                      (Ioc.tags b = Ioc.tags a \/
                       Ioc._id a = Some i /\ Ioc.tags b = Some tags))
          c (update_first (Ioc.has_id i) (Ioc.set_tags tags) c).
Proof.
  exists (update_first (Ioc.has_id i) (Ioc.set_tags tags) c), [].
  split; [now rewrite app_nil_r|].
  induction c as [|d c IH]; simpl; [constructor|].
  destruct (Ioc.has_id i d) eqn:Ei.
  - constructor.
    + split; [reflexivity|]. split; [reflexivity|]. right.
      split; [now apply has_id_true|reflexivity].
    + clear IH. induction c; constructor; auto.
  - constructor; auto.
Qed.

(** C9, as the specification words it, fails: [update_ioc_tags] replaces
    the tags.  A record tagged "malware" that is given the tag "reviewed"
    is left with "reviewed" alone. *)
Lemma update_ioc_tags_drops_old_tags :
  let first := Demo.seen "honeypot" 70 "high" ["malware"] in
  let run := (store_ioc first;; update_ioc_tags 0 ["reviewed"]) in
  fst (run (Demo.empty_at 0 1)) = Ok true /\
  map Ioc.tags (iocs (snd (run (Demo.empty_at 0 1))))
  = [Some ["reviewed"]] /\
  map Ioc.tags (iocs (snd (store_ioc first (Demo.empty_at 0 1))))
  = [Some ["malware"]].
Proof. vm_compute. repeat split. Qed.

(** C9, amended.  Under every write the sources of a record only grow:
    [store_ioc] keeps every document in place, with its sources (and the
    new ones, on a merge) and with its tags unchanged, and
    [update_ioc_tags] leaves all sources as they are.  The tags do not
    accumulate: [update_ioc_tags] sets the tags of the record with the
    given id to exactly the list it is given and changes no other
    document's tags. *)
Theorem sources_only_grow_tags_are_replaced (w : world) :
  wf w ->
  (forall d : Ioc.t,
     fresh d ->
     exists r w',
       store_ioc d w = (Ok r, w') /\
       evolves (fun a b => sources_grow a b /\ Ioc.tags b = Ioc.tags a)
               (iocs w) (iocs w')) /\
  (forall (ioc_id : nat) (tags : list string),
     exists b w',
       update_ioc_tags ioc_id tags w = (Ok b, w') /\
       length (iocs w') = length (iocs w) /\
       evolves (fun a b => Ioc.sources b = Ioc.sources a /\
                           (Ioc.tags b = Ioc.tags a \/
                            Ioc._id a = Some ioc_id /\
                            Ioc.tags b = Some tags))
               (iocs w) (iocs w') /\
       (forall e,
          List.find (Ioc.has_id ioc_id) (iocs w) = Some e ->
          List.find (Ioc.has_id ioc_id) (iocs w')
          = Some (Ioc.set_tags tags e))).
Proof.
  intros Hwf. split.
  - intros d Hd.
    destruct (store_ioc_step w d Hwf Hd)
      as (r & w' & Hrun & _ & _ & _ & _ & _ & Hc).
    exists r, w'. split; [exact Hrun|].
    destruct (List.find (Ioc.has_key (Ioc.value d) (Ioc.type d)) (iocs w))
      as [e|].
    + destruct Hc as (pre & post & -> & _ & -> & _).
      apply evolves_at.
      * intros x. split; [now intros s|reflexivity].
      * reflexivity.
      * split; [|reflexivity]. intros s Hs.
        apply update_data_sources. now left.
    + destruct Hc as [-> _]. apply evolves_refl_app.
      intros x. split; [now intros s|reflexivity].
  - intros ioc_id tags. unfold update_ioc_tags, update_one.
    destruct (List.find (Ioc.has_id ioc_id) (iocs w)) as [e|] eqn:F.
    + eexists _, _. split; [reflexivity|]. simpl.
      split; [apply update_first_length|]. split.
      * apply update_first_evolves_by_id.
      * intros e' [= <-].
        apply find_update_first; [apply set_tags_keeps_identity|exact F].
    + exists false, w. split; [reflexivity|]. split; [reflexivity|].
      split; [|discriminate].
      rewrite <- (app_nil_r (iocs w)) at 2. apply evolves_refl_app.
      intros x. split; [reflexivity|now left].
Qed.

(** The record of the sample collection is given the tag "reviewed". *)
Lemma sources_only_grow_tags_are_replaced_witness :
  exists b w',
    update_ioc_tags 0 ["reviewed"] (Demo.one_record 1) = (Ok b, w') /\
    length (iocs w') = 1%nat /\
    option_map Ioc.tags (List.find (Ioc.has_id 0) (iocs w'))
    = Some (Some ["reviewed"]).
Proof.
  destruct (proj2 (sources_only_grow_tags_are_replaced (Demo.one_record 1)
                     (wf_one_record 1)) 0%nat ["reviewed"])
    as (b & w' & Hrun & Hlen & _ & Hfind).
  exists b, w'. split; [exact Hrun|]. split; [exact Hlen|].
  now rewrite (Hfind _ eq_refl).
Defined.

End StoreFacts.

(** ** The cached lookup *)

Section IntelFacts.
Import World Database Store ThreatIntel.

(** The fan-out never raises and does nothing but call sources. *)
Lemma fan_out_run (self : service) (ioc ioc_type : string) (w : world) :
  exists results calls,
    fan_out self ioc ioc_type w
    = (Ok results, with_events (events w ++ calls)%list w) /\
    source_calls calls = calls.
Proof.
  unfold fan_out. destruct (String.eqb ioc_type "ip").
  - eexists _, [_; _]. unfold call, bind, emit, ret. simpl.
    rewrite <- app_assoc. split; reflexivity.
  - destruct (String.eqb ioc_type "domain").
    + eexists _, [_]. unfold call, bind, emit, ret. simpl.
      split; reflexivity.
    + exists [], []. unfold ret. rewrite app_nil_r.
      split; [|reflexivity]. now destruct w.
Qed.

(** A record that passes the cache test is returned as it is; the only
    effect is the reading of the clock. *)
Lemma lookup_ioc_hit (self : service) (ioc ioc_type : string) (w : world)
  (c : Ioc.t) (seen : Z) :
  List.find (Ioc.has_key ioc ioc_type) (iocs w) = Some c ->
  Ioc.last_seen c = Some seen ->
  Py.timedelta_seconds (clock w (reads w) - seen) < 3600 ->
  lookup_ioc self ioc ioc_type w
  = (Ok (Some c), with_reads (S (reads w)) w).
Proof.
  intros F Hseen Hlt.
  unfold lookup_ioc, get_ioc, bind, find_one. rewrite F.
  unfold cache_hit, bind, utcnow. rewrite Hseen. unfold ret.
  apply Z.ltb_lt in Hlt. simpl. now rewrite Hlt.
Qed.

(** [timedelta.seconds] forgets whole days. *)
Lemma timedelta_seconds_forgets_days (days secs : Z) :
  0 <= secs < 86400 ->
  Py.timedelta_seconds (Py.seconds (days * 86400 + secs)) = secs.
Proof.
  intros H. unfold Py.timedelta_seconds, Py.seconds.
  rewrite Z.div_mul by lia.
  rewrite Z.add_comm, Z.mod_add by lia.
  apply Z.mod_small. exact H.
Qed.

(** Every record whose age is a number of whole days plus less than an
    hour passes the cache test, however many the days. *)
Lemma lookup_ioc_hit_days_old (self : service) (ioc ioc_type : string)
  (w : world) (c : Ioc.t) (seen days secs : Z) :
  List.find (Ioc.has_key ioc ioc_type) (iocs w) = Some c ->
  Ioc.last_seen c = Some seen ->
  clock w (reads w) = seen + Py.seconds (days * 86400 + secs) ->
  0 <= secs < 3600 ->
  lookup_ioc self ioc ioc_type w
  = (Ok (Some c), with_reads (S (reads w)) w).
Proof.
  intros F Hseen Hnow Hsecs.
  apply (lookup_ioc_hit self ioc ioc_type w c seen F Hseen).
  rewrite Hnow.
  replace (seen + Py.seconds (days * 86400 + secs) - seen)
    with (Py.seconds (days * 86400 + secs)) by lia.
  rewrite timedelta_seconds_forgets_days; lia.
Qed.

(** A cached record less than an hour old is returned as it is, and no
    source is called. *)
Theorem lookup_ioc_fresh_record_no_source_call (self : service)
  (ioc ioc_type : string) (w : world) (c : Ioc.t) (seen : Z) :
  List.find (Ioc.has_key ioc ioc_type) (iocs w) = Some c ->
  Ioc.last_seen c = Some seen ->
  0 <= clock w (reads w) - seen < Py.hours 1 ->
  exists w',
    lookup_ioc self ioc ioc_type w = (Ok (Some c), w') /\
    events w' = events w /\ iocs w' = iocs w.
Proof.
  intros F Hseen Hage. exists (with_reads (S (reads w)) w).
  split; [|split; reflexivity].
  apply (lookup_ioc_hit self ioc ioc_type w c seen F Hseen).
  unfold Py.timedelta_seconds. unfold Py.hours, Py.seconds in Hage.
  assert (0 <= (clock w (reads w) - seen) / 1000000 < 3600).
  { split; [apply Z.div_pos; lia|].
    apply Z.div_lt_upper_bound; lia. }
  rewrite Z.mod_small; lia.
Qed.

(** The sample record, looked up two clock readings after it was stored. *)
Lemma lookup_ioc_fresh_record_no_source_call_witness :
  exists w',
    lookup_ioc (Demo.virustotal_says 90) "198.51.100.7" "ip"
      (Demo.one_record 1)
    = (Ok (List.find (Ioc.has_key "198.51.100.7" "ip")
             (iocs (Demo.one_record 1))), w') /\
    events w' = [] /\ iocs w' = iocs (Demo.one_record 1).
Proof.
  apply (lookup_ioc_fresh_record_no_source_call (Demo.virustotal_says 90)
           "198.51.100.7" "ip" (Demo.one_record 1) _ 1 eq_refl eq_refl).
  vm_compute. split; [discriminate|reflexivity].
Defined.

(** When no source has data for an indicator that is not stored,
    [lookup_ioc] returns [None] and stores nothing, having called
    VirusTotal and then AbuseIPDB for an ip and VirusTotal alone for a
    domain.  For every other type it calls no source and does nothing at
    all. *)
Theorem lookup_ioc_no_data_no_record (self : service)
  (ioc ioc_type : string) (w : world) :
  records_of ioc ioc_type w = [] ->
  (fst (fan_out self ioc ioc_type w) = Ok [] ->
   exists w',
     lookup_ioc self ioc ioc_type w = (Ok None, w') /\ iocs w' = iocs w /\
     events w'
     = (events w
        ++ if String.eqb ioc_type "ip"
           then [SourceCall "lookup_virustotal_ip" ioc;
                 SourceCall "lookup_abuseipdb" ioc]
           else if String.eqb ioc_type "domain"
                then [SourceCall "lookup_virustotal_domain" ioc]
                else [])%list) /\
  (ioc_type <> "ip" -> ioc_type <> "domain" ->
   lookup_ioc self ioc ioc_type w = (Ok None, w)).
Proof.
  intros Hrec. pose proof (filter_nil_find _ _ Hrec) as F. split.
  - intros Hfan.
    assert (Hrun : exists results,
               fan_out self ioc ioc_type w
               = (Ok results,
                  with_events
                    (events w
                     ++ if String.eqb ioc_type "ip"
                        then [SourceCall "lookup_virustotal_ip" ioc;
                              SourceCall "lookup_abuseipdb" ioc]
                        else if String.eqb ioc_type "domain"
                             then [SourceCall "lookup_virustotal_domain" ioc]
                             else [])%list w)).
    { unfold fan_out. destruct (String.eqb ioc_type "ip").
      - eexists. unfold call, bind, emit, ret. simpl.
        rewrite <- app_assoc. reflexivity.
      - destruct (String.eqb ioc_type "domain").
        + eexists. unfold call, bind, emit, ret. simpl. reflexivity.
        + exists []. unfold ret. rewrite app_nil_r. now destruct w. }
    destruct Hrun as (results & Hrun).
    rewrite Hrun in Hfan. simpl in Hfan. injection Hfan as ->.
    eexists. split; [|split].
    + unfold lookup_ioc, get_ioc, bind at 1, find_one. rewrite F.
      unfold cache_hit, bind at 1, ret at 1.
      unfold bind at 1. rewrite Hrun. reflexivity.
    + reflexivity.
    + reflexivity.
  - intros Hip Hdom.
    unfold lookup_ioc, get_ioc, bind at 1, find_one. rewrite F.
    unfold cache_hit, bind at 1, ret at 1.
    unfold bind at 1, fan_out.
    replace (String.eqb ioc_type "ip") with false
      by (symmetry; apply String.eqb_neq; exact Hip).
    replace (String.eqb ioc_type "domain") with false
      by (symmetry; apply String.eqb_neq; exact Hdom).
    reflexivity.
Qed.

(** A hash is looked up: no source applies to it and none is called.  An
    address of which neither source knows anything: both are asked. *)
Lemma lookup_ioc_no_data_no_record_witness :
  let knows_nothing :=
    {| lookup_virustotal_ip := fun _ => None;
       lookup_abuseipdb := fun _ => None;
       lookup_virustotal_domain := fun _ => None |} in
  lookup_ioc (Demo.virustotal_says 90) "d41d8cd9" "hash" (Demo.empty_at 0 1)
  = (Ok None, Demo.empty_at 0 1) /\
  exists w',
    lookup_ioc knows_nothing "198.51.100.7" "ip" (Demo.empty_at 0 1)
    = (Ok None, w') /\ iocs w' = [] /\
    events w' = [SourceCall "lookup_virustotal_ip" "198.51.100.7";
                 SourceCall "lookup_abuseipdb" "198.51.100.7"].
Proof.
  intros knows_nothing. split.
  - apply (lookup_ioc_no_data_no_record (Demo.virustotal_says 90)
             "d41d8cd9" "hash" (Demo.empty_at 0 1) eq_refl); discriminate.
  - exact (proj1 (lookup_ioc_no_data_no_record knows_nothing
                    "198.51.100.7" "ip" (Demo.empty_at 0 1) eq_refl)
             eq_refl).
Defined.

(** C7.  The cache test reads [timedelta.seconds], the seconds within the
    day, not the age.  A record last seen one day and ten minutes ago
    (87000 seconds, more than the hour of the cache) is returned as
    cached, without a single source call, by a service whose VirusTotal
    lookup has an answer. *)
Theorem lookup_ioc_serves_day_old_record :
  let w := Demo.one_record (Py.seconds 87000) in
  let run := lookup_ioc (Demo.virustotal_says 90) "198.51.100.7" "ip" w in
  fst run = Ok (List.find (Ioc.has_key "198.51.100.7" "ip") (iocs w)) /\
  map Ioc.last_seen (iocs w) = [Some (Py.seconds 87000)] /\
  clock w (reads w) = Py.seconds 174000 /\
  age_seconds (Py.seconds 174000) (Py.seconds 87000) = 87000 /\
  source_calls (events (snd run)) = [] /\
  iocs (snd run) = iocs w.
Proof. vm_compute. repeat split. Qed.

(** C3, as the specification words it, fails: a merge raises the score and
    leaves the classification.  An address first looked up when its score
    was 40 is stored as medium; looked up again two hours later, when the
    score is 90, its record holds the score 90 and still says medium,
    where [classify 90] is critical. *)
Lemma merge_leaves_classification_stale :
  let run :=
    (lookup_ioc (Demo.virustotal_says 40) "198.51.100.7" "ip";;
     lookup_ioc (Demo.virustotal_says 90) "198.51.100.7" "ip") in
  map (fun d => (Ioc.threat_score d, Ioc.classification d))
      (iocs (snd (run (Demo.empty_at 0 (Py.hours 2)))))
  = [(Some 90, Some "medium")] /\
  Score.classify 90 = "critical".
Proof. vm_compute. split; reflexivity. Qed.

(** C3, amended.  A record that [lookup_ioc] creates is stored with
    [classification = classify(threat_score)].  [store_ioc] itself never
    recomputes the classification: a merge sets the score to
    [max(existing, incoming)] and leaves the classification as it is
    stored, so the equation is kept exactly when the merged score is of
    the same tier as the stored one (in particular when the score is not
    raised). *)
Theorem classification_follows_score_within_tier (w : world) :
  wf w ->
  (forall (self : service) (ioc ioc_type : string) (r : Observation.t)
          (rs : list Observation.t),
     records_of ioc ioc_type w = [] ->
     fst (fan_out self ioc ioc_type w) = Ok (r :: rs) ->
     exists w' rec s,
       lookup_ioc self ioc ioc_type w = (Ok (Some rec), w') /\
       records_of ioc ioc_type w' = [rec] /\
       Ioc.threat_score rec = Some s /\
       Ioc.classification rec = Some (Score.classify s)) /\
  (forall (d e : Ioc.t) (rest : list Ioc.t),
     fresh d ->
     records_of (Ioc.value d) (Ioc.type d) w = e :: rest ->
     exists r1 w' rec,
       store_ioc d w = (Ok r1, w') /\
       records_of (Ioc.value d) (Ioc.type d) w' = rec :: rest /\
       Ioc.threat_score rec = Some (Z.max (score_of e) (score_of d)) /\
       Ioc.classification rec = Ioc.classification e /\
       (forall s,
          Ioc.threat_score e = Some s ->
          Ioc.classification e = Some (Score.classify s) ->
          (Ioc.classification rec
           = Some (Score.classify (Z.max s (score_of d)))
           <-> Score.classify (Z.max s (score_of d)) = Score.classify s))).
Proof.
  intros Hwf. split.
  - intros self ioc ioc_type r rs Hrec Hfan.
    destruct (fan_out_run self ioc ioc_type w) as (results & calls & Hrun & _).
    rewrite Hrun in Hfan. simpl in Hfan. injection Hfan as ->.
    pose proof (filter_nil_find _ _ Hrec) as F.
    set (w1 := with_events (events w ++ calls)%list w) in *.
    assert (F1 : List.find
                   (Ioc.has_key (Ioc.value (aggregate ioc ioc_type r rs))
                                (Ioc.type (aggregate ioc ioc_type r rs)))
                   (iocs w1) = None) by exact F.
    pose proof (store_ioc_insert w1 (aggregate ioc ioc_type r rs) F1 eq_refl)
      as Hst.
    eexists _, (inserted w1 (aggregate ioc ioc_type r rs)), (max_score r rs).
    split; [|split; [|split; reflexivity]].
    + unfold lookup_ioc, get_ioc, bind at 1, find_one. rewrite F.
      unfold cache_hit, bind at 1, ret at 1.
      unfold bind at 1. rewrite Hrun.
      unfold bind. fold w1. rewrite Hst. reflexivity.
    + unfold records_of in *. simpl. rewrite List.filter_app, Hrec. simpl.
      replace (Ioc.has_key ioc ioc_type
                 (inserted w1 (aggregate ioc ioc_type r rs)))
        with (Ioc.has_key ioc ioc_type (aggregate ioc ioc_type r rs))
        by reflexivity.
      assert (Hk : Ioc.has_key ioc ioc_type (aggregate ioc ioc_type r rs)
                   = true) by (apply has_key_true; split; reflexivity).
      now rewrite Hk.
  - intros d e rest Hd Hrec.
    destruct (store_ioc_records w d Hwf Hd)
      as (r1 & w1 & Hrun & _ & _ & Hkey).
    rewrite Hrec in Hkey. destruct Hkey as [Hrec1 _].
    exists r1, w1, (update_data e d (clock w (reads w)) e).
    split; [exact Hrun|]. split; [exact Hrec1|].
    split; [apply update_data_score|]. split; [reflexivity|].
    intros s Hs Hcl.
    change (Ioc.classification (update_data e d (clock w (reads w)) e))
      with (Ioc.classification e).
    rewrite Hcl. split; [intros [= H]; now symmetry|intros ->; reflexivity].
Qed.

(** An address stored as high with score 70 is seen again with score 75
    and with score 90: both merges leave "high", which is the tier of 75
    and not the tier of 90. *)
Lemma classification_follows_score_within_tier_witness :
  (exists r1 w' rec,
     store_ioc (Demo.seen "dns_sinkhole" 75 "high" []) (Demo.one_record 1)
     = (Ok r1, w') /\
     records_of "198.51.100.7" "ip" w' = [rec] /\
     Ioc.threat_score rec = Some 75 /\
     Ioc.classification rec = Some (Score.classify 75)) /\
  (exists r1 w' rec,
     store_ioc (Demo.seen "dns_sinkhole" 90 "critical" []) (Demo.one_record 1)
     = (Ok r1, w') /\
     records_of "198.51.100.7" "ip" w' = [rec] /\
     Ioc.threat_score rec = Some 90 /\
     Ioc.classification rec = Some "high" /\
     Ioc.classification rec <> Some (Score.classify 90)).
Proof.
  pose proof (proj2 (classification_follows_score_within_tier
                       (Demo.one_record 1) (wf_one_record 1))) as H.
  split.
  - destruct (H (Demo.seen "dns_sinkhole" 75 "high" []) _ [] eq_refl eq_refl)
      as (r1 & w' & rec & Hrun & Hrec & Hs & Hcl & Hiff).
    exists r1, w', rec. split; [exact Hrun|]. split; [exact Hrec|].
    split; [exact Hs|]. apply (Hiff 70); reflexivity.
  - destruct (H (Demo.seen "dns_sinkhole" 90 "critical" []) _ [] eq_refl
                eq_refl)
      as (r1 & w' & rec & Hrun & Hrec & Hs & Hcl & Hiff).
    exists r1, w', rec. split; [exact Hrun|]. split; [exact Hrec|].
    split; [exact Hs|]. split; [exact Hcl|].
    intros E. apply (Hiff 70) in E; [discriminate| |]; reflexivity.
Defined.

End IntelFacts.

(** ** The monitoring loop *)

Section FeedFacts.
Import World Database Store RealtimeFeeds.

(** [store_ioc] touches the collection, the id generator and the clock
    only, raise or not. *)
Lemma store_ioc_frame (d : Ioc.t) (w : world) :
  live_stats (snd (store_ioc d w)) = live_stats w /\
  events (snd (store_ioc d w)) = events w /\
  monitoring (snd (store_ioc d w)) = monitoring w.
Proof.
  unfold store_ioc, bind, find_one, utcnow, update_one, insert_one, ret,
    raise.
  destruct (List.find (Ioc.has_key (Ioc.value d) (Ioc.type d)) (iocs w))
    as [e|]; simpl.
  - destruct (Ioc._id e) as [i|]; simpl; [|repeat split].
    destruct (List.find (Ioc.has_id i) (iocs w)); repeat split.
  - destruct (Ioc._id d) as [i|]; simpl; [|repeat split].
    destruct (existsb (Ioc.has_id i) (iocs w)); repeat split.
Qed.

(** Processing one threat never recomputes or broadcasts statistics; when
    it raises it has emitted nothing, and the collection is as before or
    as the store left it. *)
Lemma detect_one_frame (d : draw) (w : world) :
  live_stats (snd (detect_one d w)) = live_stats w /\
  monitoring (snd (detect_one d w)) = monitoring w /\
  stats_updates (events (snd (detect_one d w))) = stats_updates (events w) /\
  (forall e, fst (detect_one d w) = Raise e ->
     events (snd (detect_one d w)) = events w /\
     (iocs (snd (detect_one d w)) = iocs w \/
      iocs (snd (detect_one d w))
      = iocs (snd (store_ioc (threat_data d) w)))).
Proof.
  destruct (store_ioc_frame (threat_data d) w) as (Hl & He & Hm).
  unfold detect_one, bind, raise, ret, utcnow, emit.
  destruct (fault_is InGenerate d); simpl; [repeat split; auto|].
  destruct (fault_is InStore d); simpl; [repeat split; auto|].
  destruct (store_ioc (threat_data d) w) as [[r|x] w1]; simpl in *.
  - destruct (fault_is InEmit d); simpl.
    + rewrite Hl, He, Hm. repeat split; auto.
    + rewrite Hl, He, Hm. split; [reflexivity|]. split; [reflexivity|].
      split; [|discriminate].
      unfold stats_updates. rewrite List.filter_app. simpl.
      apply app_nil_r.
  - rewrite Hl, He, Hm. repeat split; auto.
Qed.

Lemma simulate_frame (draws : list draw) :
  forall w : world,
    live_stats (snd (_simulate_threat_detection draws w)) = live_stats w /\
    monitoring (snd (_simulate_threat_detection draws w)) = monitoring w /\
    stats_updates (events (snd (_simulate_threat_detection draws w)))
    = stats_updates (events w).
Proof.
  induction draws as [|d draws IH]; intros w; [repeat split|].
  simpl. unfold bind.
  destruct (detect_one_frame d w) as (Hl & Hm & Hs & _).
  destruct (detect_one d w) as [[[]|x] w1]; simpl in *.
  - destruct (IH w1) as (Hl1 & Hm1 & Hs1).
    rewrite Hl1, Hm1, Hs1. auto.
  - auto.
Qed.

(** The loop over the draws, taken apart at a draw. *)
Lemma simulate_app (pre rest : list draw) :
  forall w w1 : world,
    _simulate_threat_detection pre w = (Ok tt, w1) ->
    _simulate_threat_detection (pre ++ rest) w
    = _simulate_threat_detection rest w1.
Proof.
  induction pre as [|d pre IH]; intros w w1.
  - intros [= ->]. reflexivity.
  - simpl. unfold bind.
    destruct (detect_one d w) as [[[]|x] w0]; [|discriminate].
    apply IH.
Qed.

(** The decision list of [threat_level]. *)
Lemma threat_level_cases (critical_count high_count : nat) :
  ((5 < critical_count)%nat ->
   threat_level critical_count high_count = "critical") /\
  ((critical_count <= 5)%nat ->
   (0 < critical_count)%nat \/ (10 < high_count)%nat ->
   threat_level critical_count high_count = "high") /\
  (critical_count = 0%nat -> (0 < high_count <= 10)%nat ->
   threat_level critical_count high_count = "medium") /\
  (critical_count = 0%nat -> high_count = 0%nat ->
   threat_level critical_count high_count = "low").
Proof.
  unfold threat_level. repeat split.
  - intros H. apply Nat.ltb_lt in H. now rewrite H.
  - intros H1 H2.
    destruct (5 <? critical_count)%nat eqn:E1;
      [apply Nat.ltb_lt in E1; lia|].
    destruct H2 as [H2|H2]; apply Nat.ltb_lt in H2; rewrite H2;
      [reflexivity|now rewrite orb_true_r].
  - intros -> [H1 H2]. simpl.
    destruct (10 <? high_count)%nat eqn:E; [apply Nat.ltb_lt in E; lia|].
    apply Nat.ltb_lt in H1. now rewrite H1.
  - intros -> ->. reflexivity.
Qed.

(** When its reads succeed, [_update_live_stats] sets the threat level
    from two counts over the records first seen within the last hour,
    those classified critical and those classified high: more than 5
    critical gives critical; else any critical, or more than 10 high,
    gives high; else any high gives medium; else low. *)
Theorem threat_level_thresholds (d : stats_draw) (w : world) :
  read_fails d = false ->
  let hour_ago := clock w (reads w) - Py.hours 1 in
  let recent (c : string) (x : Ioc.t) :=
    bool_decide (Ioc.classification x = Some c)
    && match Ioc.timestamp x with
       | Some ts => hour_ago <=? ts
       | None => false
       end in
  let critical_count := length (List.filter (recent "critical") (iocs w)) in
  let high_count := length (List.filter (recent "high") (iocs w)) in
  let level :=
    current_threat_level (live_stats (snd (_update_live_stats d w))) in
  fst (_update_live_stats d w) = Ok tt /\
  ((5 < critical_count)%nat -> level = "critical") /\
  ((critical_count <= 5)%nat ->
   (0 < critical_count)%nat \/ (10 < high_count)%nat -> level = "high") /\
  (critical_count = 0%nat -> (0 < high_count <= 10)%nat ->
   level = "medium") /\
  (critical_count = 0%nat -> high_count = 0%nat -> level = "low").
Proof.
  intros Hok hour_ago recent critical_count high_count level.
  assert (E : level = threat_level critical_count high_count).
  { unfold level, _update_live_stats, try_except, bind, utcnow,
      count_documents, raise, ret. rewrite Hok. reflexivity. }
  split.
  - unfold _update_live_stats, try_except, bind, utcnow, count_documents,
      raise, ret. rewrite Hok. reflexivity.
  - rewrite E. apply threat_level_cases.
Qed.

(** Six records classified critical in the last hour, and one: the level
    is critical, and high. *)
Lemma threat_level_thresholds_witness :
  let six :=
    snd (Store.store_all
           (map (fun ip => Demo.threat ip "honeypot" 85 "critical" [])
              ["203.0.113.1"; "203.0.113.2"; "203.0.113.3"; "203.0.113.4";
               "203.0.113.5"; "203.0.113.6"])
           (Demo.empty_at 0 1)) in
  let one :=
    snd (Database.store_ioc
           (Demo.threat "203.0.113.1" "honeypot" 85 "critical" [])
           (Demo.empty_at 0 1)) in
  current_threat_level (live_stats (snd (_update_live_stats reads_succeed six)))
  = "critical" /\
  current_threat_level (live_stats (snd (_update_live_stats reads_succeed one)))
  = "high".
Proof.
  intros six one. split.
  - apply (proj1 (proj2 (threat_level_thresholds reads_succeed six eq_refl))).
    vm_compute. lia.
  - apply (proj1 (proj2 (proj2
             (threat_level_thresholds reads_succeed one eq_refl)))).
    + vm_compute. lia.
    + left. vm_compute. lia.
Defined.

(** C8, as the specification words it, fails: the loop has one [try]
    around the whole cycle.  Of three threats at three addresses, with an
    error in the store of the second, the first is recorded, the third is
    not, and the statistics are neither recomputed nor broadcast: the
    cycle ends with the 30 second sleep. *)
Lemma cycle_error_drops_rest_and_stats :
  let draws :=
    [ {| threat_data := Demo.threat "203.0.113.1" "honeypot" 80 "high" [];
         fault := None |};
      {| threat_data := Demo.threat "203.0.113.2" "honeypot" 80 "high" [];
         fault := Some InStore |};
      {| threat_data := Demo.threat "203.0.113.3" "honeypot" 80 "high" [];
         fault := None |} ] in
  let w' := snd (monitor_cycle draws (Demo.empty_at 0 1)) in
  map Ioc.value (iocs w') = ["203.0.113.1"] /\
  stats_updates (events w') = [] /\
  live_stats w' = live_stats (Demo.empty_at 0 1) /\
  last (events w') = Some (Sleep 30).
Proof. vm_compute. repeat split. Qed.

(** C8, amended.  An error raised while one threat of a cycle is processed
    ends that cycle: the threats before it stay recorded, the threats
    after it are not processed, the statistics are neither recomputed nor
    broadcast in that cycle; the loop catches the error, sleeps 30 seconds
    and goes on with the next cycle. *)
Theorem cycle_ends_at_first_error (w w1 w2 : world) (pre post : list draw)
  (d : draw) (e : exn) :
  _simulate_threat_detection pre w = (Ok tt, w1) ->
  detect_one d w1 = (Raise e, w2) ->
  monitor_cycle (pre ++ d :: post) w
  = (Ok tt, with_events (events w2 ++ [Sleep 30])%list w2) /\
  (iocs w2 = iocs w1 \/
   iocs w2 = iocs (snd (store_ioc (threat_data d) w1))) /\
  events w2 = events w1 /\
  live_stats w2 = live_stats w /\
  stats_updates (events w2) = stats_updates (events w) /\
  (monitoring w = true ->
   forall rest,
     _monitor_threats ((pre ++ d :: post)%list :: rest) w
     = _monitor_threats rest
         (with_events (events w2 ++ [Sleep 30])%list w2)).
Proof.
  intros Hpre Hd.
  assert (Hcycle : monitor_cycle (pre ++ d :: post) w
                   = (Ok tt, with_events (events w2 ++ [Sleep 30])%list w2)).
  { unfold monitor_cycle, try_except, bind at 1.
    rewrite (simulate_app pre (d :: post) w w1 Hpre).
    simpl. unfold bind at 1. rewrite Hd. reflexivity. }
  destruct (simulate_frame pre w) as (Hl & Hm & Hs).
  rewrite Hpre in Hl, Hm, Hs. simpl in Hl, Hm, Hs.
  destruct (detect_one_frame d w1) as (Hl2 & Hm2 & Hs2 & Hr).
  rewrite Hd in Hl2, Hm2, Hs2, Hr. simpl in Hl2, Hm2, Hs2, Hr.
  destruct (Hr e eq_refl) as [Hev Hio].
  split; [exact Hcycle|]. split; [exact Hio|]. split; [exact Hev|].
  split; [congruence|]. split; [congruence|].
  intros Hmon rest. simpl. rewrite Hmon. unfold bind.
  now rewrite Hcycle.
Qed.

(** The cycle of three threats with an error in the store of the second. *)
Lemma cycle_ends_at_first_error_witness :
  let d1 := {| threat_data := Demo.threat "203.0.113.1" "honeypot" 80 "high" [];
               fault := None |} in
  let d2 := {| threat_data := Demo.threat "203.0.113.2" "honeypot" 80 "high" [];
               fault := Some InStore |} in
  let d3 := {| threat_data := Demo.threat "203.0.113.3" "honeypot" 80 "high" [];
               fault := None |} in
  let w1 := snd (_simulate_threat_detection [d1] (Demo.empty_at 0 1)) in
  monitor_cycle [d1; d2; d3] (Demo.empty_at 0 1)
  = (Ok tt, with_events (events w1 ++ [Sleep 30])%list w1) /\
  live_stats w1 = live_stats (Demo.empty_at 0 1).
Proof.
  intros d1 d2 d3 w1.
  destruct (cycle_ends_at_first_error (Demo.empty_at 0 1) w1 w1
              [d1] [d3] d2 (Fault "store") eq_refl eq_refl)
    as (Hrun & _ & _ & Hl & _).
  split; [exact Hrun|exact Hl].
Defined.

End FeedFacts.

(** ** More on the collection: round trips, tags, times *)

Section StoreRoundTrips.
Import World Database Store Monitor.

Lemma find_after_prefix (p : Ioc.t -> bool) (pre post : list Ioc.t)
  (x : Ioc.t) :
  Forall (fun d => p d = false) pre -> p x = true ->
  List.find p (pre ++ x :: post)%list = Some x.
Proof.
  intros Hpre Hx. induction Hpre as [|d pre Hd _ IH]; simpl.
  - now rewrite Hx.
  - now rewrite Hd.
Qed.

Lemma find_app_none (p : Ioc.t -> bool) (c : list Ioc.t) (x : Ioc.t) :
  List.find p c = None -> p x = true ->
  List.find p (c ++ [x])%list = Some x.
Proof.
  intros F Hx. rewrite <- (app_nil_r (c ++ [x])%list), <- app_assoc.
  apply find_after_prefix; [|exact Hx].
  apply List.Forall_forall. intros d Hd. exact (find_none _ _ F d Hd).
Qed.

(** What [store_ioc] stores, [get_ioc] finds: after a store the key has a
    record under the returned id, with a score that is at least the
    stored observation's and with all of its sources. *)
Theorem get_ioc_finds_what_store_ioc_stored (w : world) (d : Ioc.t) :
  wf w -> fresh d ->
  exists i d' w' r,
    store_ioc d w = (Ok (i, d'), w') /\
    get_ioc (Ioc.value d) (Ioc.type d) w' = (Ok (Some r), w') /\
    Ioc._id r = Some i /\
    Ioc.value r = Ioc.value d /\ Ioc.type r = Ioc.type d /\
    score_of d <= score_of r /\
    sources_grow d r.
Proof.
  intros Hwf Hf. destruct Hwf as [Hids Hnd].
  destruct (List.find (Ioc.has_key (Ioc.value d) (Ioc.type d)) (iocs w))
    as [e|] eqn:F.
  - destruct (find_some _ _ F) as [Hin Hk].
    destruct (proj1 (List.Forall_forall _ _) Hids e Hin) as (i & Hi & _).
    destruct (update_first_found _ _ (update_data e d (clock w (reads w)))
                _ _ _ Hnd F Hi) as (pre & post & Hc & Hpre & Hup).
    exists i, d. eexists. exists (update_data e d (clock w (reads w)) e).
    split; [exact (store_ioc_merge w d e i F Hi)|].
    apply has_key_true in Hk as [Hv Ht].
    split; [|repeat split; auto].
    + unfold get_ioc, find_one. simpl. rewrite Hup.
      rewrite find_after_prefix; [reflexivity|exact Hpre|].
      apply has_key_true. auto.
    + unfold score_of at 2. rewrite update_data_score. simpl. lia.
    + intros s Hs. apply update_data_sources. now right.
  - exists (next_oid w), (inserted w d). eexists. exists (inserted w d).
    split; [exact (store_ioc_insert w d F Hf)|].
    split; [|repeat split].
    + unfold get_ioc, find_one. simpl.
      rewrite find_app_none; [reflexivity|exact F|].
      apply has_key_true. split; reflexivity.
    + reflexivity.
    + now intros s.
Qed.

(** The first observation of an address, stored and looked up. *)
Lemma get_ioc_finds_what_store_ioc_stored_witness :
  exists i d' w' r,
    store_ioc (Demo.seen "honeypot" 70 "high" ["malware"]) (Demo.empty_at 0 1)
    = (Ok (i, d'), w') /\
    get_ioc "198.51.100.7" "ip" w' = (Ok (Some r), w') /\
    Ioc._id r = Some i /\ 70 <= score_of r.
Proof.
  destruct (get_ioc_finds_what_store_ioc_stored (Demo.empty_at 0 1)
              (Demo.seen "honeypot" 70 "high" ["malware"])
              (wf_empty_at 0 1) eq_refl)
    as (i & d' & w' & r & Hrun & Hget & Hid & _ & _ & Hsc & _).
  exists i, d', w', r. auto.
Defined.

Lemma update_first_twice (p : Ioc.t -> bool) (upd : Ioc.t -> Ioc.t)
  (c : list Ioc.t) :
  (forall d, upd (upd d) = upd d) ->
  (forall d, p (upd d) = p d) ->
  update_first p upd (update_first p upd c) = update_first p upd c.
Proof.
  intros Hidem Hp. induction c as [|d c IH]; [reflexivity|]. simpl.
  destruct (p d) eqn:E; simpl.
  - now rewrite Hp, E, Hidem.
  - now rewrite E, IH.
Qed.

Lemma with_iocs_same (w : world) : with_iocs (iocs w) w = w.
Proof. now destruct w. Qed.

(** From the ObjectId on, [update_ioc_tags] answers whether it changed
    anything. *)
Lemma update_ioc_tags_change (w : world) (ioc_id : nat)
  (tags : list string) :
  (List.find (Ioc.has_id ioc_id) (iocs w) = None ->
   update_ioc_tags ioc_id tags w = (Ok false, w)) /\
  (forall e,
     List.find (Ioc.has_id ioc_id) (iocs w) = Some e ->
     fst (update_ioc_tags ioc_id tags w)
     = Ok (bool_decide (Ioc.tags e <> Some tags)) /\
     (Ioc.tags e = Some tags ->
      update_ioc_tags ioc_id tags w = (Ok false, w))) /\
  (forall b w',
     update_ioc_tags ioc_id tags w = (Ok b, w') ->
     update_ioc_tags ioc_id tags w' = (Ok false, w')).
Proof.
  assert (Hsame : forall e, Ioc.tags e = Some tags -> Ioc.set_tags tags e = e).
  { intros e He. destruct e. simpl in He. subst. reflexivity. }
  assert (Hfix : forall c,
    (forall e, List.find (Ioc.has_id ioc_id) c = Some e ->
               Ioc.tags e = Some tags) ->
    update_first (Ioc.has_id ioc_id) (Ioc.set_tags tags) c = c).
  { induction c as [|d c IH]; [reflexivity|]. simpl. intros H.
    destruct (Ioc.has_id ioc_id d) eqn:E.
    - now rewrite (Hsame d (H d eq_refl)).
    - now rewrite (IH H). }
  split; [|split].
  - intros F. unfold update_ioc_tags, update_one. now rewrite F.
  - intros e F. unfold update_ioc_tags, update_one. rewrite F. simpl. split.
    + f_equal. apply bool_decide_ext. split.
      * intros H He. apply H. now apply Hsame.
      * intros H He. apply H. rewrite <- He. reflexivity.
    + intros He. rewrite Hfix, with_iocs_same.
      * do 2 f_equal. apply bool_decide_eq_false_2. intros H. apply H.
        now apply Hsame.
      * intros e' F'. congruence.
  - intros b w'. unfold update_ioc_tags, update_one.
    destruct (List.find (Ioc.has_id ioc_id) (iocs w)) as [e|] eqn:F.
    + intros [= <- <-]. simpl.
      rewrite (find_update_first ioc_id (Ioc.set_tags tags) (iocs w) e
                 (set_tags_keeps_identity tags) F).
      rewrite update_first_twice; try reflexivity.
      do 2 f_equal. apply bool_decide_eq_false_2. intros H. now apply H.
    + intros [= <- <-]. now rewrite F.
Qed.

(** [update_ioc_tags], called with the id string of the request: a
    string that is no ObjectId makes it raise [InvalidId] before the
    collection is touched.  For a string that is one it answers whether
    it changed anything: false for an id that is not stored, and false
    when the record already has exactly these tags, in either case with
    the collection untouched; so a second call with the same id and tags
    always answers false. *)
Theorem update_ioc_tags_reports_change (ObjectId : string -> option nat)
  (w : world) (ioc_id : string) (tags : list string) :
  (ObjectId ioc_id = None ->
   update_ioc_tags_str ObjectId ioc_id tags w
   = (Raise (Fault "InvalidId"), w)) /\
  (forall i : nat,
     ObjectId ioc_id = Some i ->
     (List.find (Ioc.has_id i) (iocs w) = None ->
      update_ioc_tags_str ObjectId ioc_id tags w = (Ok false, w)) /\
     (forall e,
        List.find (Ioc.has_id i) (iocs w) = Some e ->
        fst (update_ioc_tags_str ObjectId ioc_id tags w)
        = Ok (bool_decide (Ioc.tags e <> Some tags)) /\
        (Ioc.tags e = Some tags ->
         update_ioc_tags_str ObjectId ioc_id tags w = (Ok false, w))) /\
     (forall b w',
        update_ioc_tags_str ObjectId ioc_id tags w = (Ok b, w') ->
        update_ioc_tags_str ObjectId ioc_id tags w' = (Ok false, w'))).
Proof.
  unfold update_ioc_tags_str. split.
  - intros ->. reflexivity.
  - intros i ->. apply update_ioc_tags_change.
Qed.

(** The sample record, whose id is 0, is tagged "malware" again: nothing
    changes.  The id "abc" is refused. *)
Lemma update_ioc_tags_reports_change_witness :
  update_ioc_tags_str Samples.object_id "000000000000000000000000"
    ["malware"] (Demo.one_record 1)
  = (Ok false, Demo.one_record 1) /\
  update_ioc_tags_str Samples.object_id "abc" ["malware"] (Demo.one_record 1)
  = (Raise (Fault "InvalidId"), Demo.one_record 1).
Proof.
  split.
  - apply (proj2 (proj1 (proj2 (proj2 (update_ioc_tags_reports_change
                                         Samples.object_id
                                         (Demo.one_record 1)
                                         "000000000000000000000000"
                                         ["malware"])
                                  0%nat eq_refl))
                    _ eq_refl)).
    reflexivity.
  - apply (proj1 (update_ioc_tags_reports_change Samples.object_id
                    (Demo.one_record 1) "abc" ["malware"])).
    reflexivity.
Defined.

End StoreRoundTrips.

(** ** Times: first seen, last seen, and what counts as recent *)

Section TimeFacts.
Import World Database Store Monitor RealtimeFeeds.

Lemma seen_in_order_later (c : list Ioc.t) (clk : nat -> Z) (r r' : nat) :
  (forall n m : nat, (n <= m)%nat -> clk n <= clk m) -> (r <= r')%nat ->
  Forall (fun d => exists ts ls,
            Ioc.timestamp d = Some ts /\ Ioc.last_seen d = Some ls /\
            ts <= ls /\ ls <= clk r) c ->
  Forall (fun d => exists ts ls,
            Ioc.timestamp d = Some ts /\ Ioc.last_seen d = Some ls /\
            ts <= ls /\ ls <= clk r') c.
Proof.
  intros Hmono Hr. apply List.Forall_impl.
  intros d (ts & ls & Hts & Hls & H1 & H2). exists ts, ls.
  repeat split; auto. specialize (Hmono r r' Hr). lia.
Qed.

(** With a clock that does not run backwards, [store_ioc] keeps every
    record's first-seen time no later than its last-seen time; it never
    changes a first-seen time and never moves a last-seen time back. *)
Theorem store_ioc_keeps_first_seen (w : world) (d : Ioc.t) :
  wf w -> fresh d -> monotone_clock w -> seen_in_order w ->
  exists r w',
    store_ioc d w = (Ok r, w') /\
    seen_in_order w' /\
    evolves (fun a b =>
               Ioc.timestamp b = Ioc.timestamp a /\
               forall la lb, Ioc.last_seen a = Some la ->
                             Ioc.last_seen b = Some lb -> la <= lb)
            (iocs w) (iocs w').
Proof.
  intros [Hids Hnd] Hf Hmono Hord.
  assert (Hrefl : forall x : Ioc.t,
            Ioc.timestamp x = Ioc.timestamp x /\
            forall la lb, Ioc.last_seen x = Some la ->
                          Ioc.last_seen x = Some lb -> la <= lb).
  { intros x. split; [reflexivity|]. intros la lb -> [= ->]. lia. }
  destruct (List.find (Ioc.has_key (Ioc.value d) (Ioc.type d)) (iocs w))
    as [e|] eqn:F.
  - destruct (find_some _ _ F) as [Hin _].
    destruct (proj1 (List.Forall_forall _ _) Hids e Hin) as (i & Hi & _).
    destruct (update_first_found _ _ (update_data e d (clock w (reads w)))
                _ _ _ Hnd F Hi) as (pre & post & Hc & _ & Hup).
    eexists _, _. split; [exact (store_ioc_merge w d e i F Hi)|].
    unfold seen_in_order in *. simpl. rewrite Hup. rewrite Hc in Hord.
    apply Forall_app in Hord as [H1 H2].
    apply Forall_cons in H2 as [(ts & ls & Hts & Hls & Ha & Hb) H3].
    split.
    + apply Forall_app. split.
      * apply (seen_in_order_later pre (clock w) (reads w)); auto.
      * apply Forall_cons. split.
        -- exists ts, (clock w (reads w)).
           split; [exact Hts|]. split; [reflexivity|].
           split; [lia|]. apply Hmono. lia.
        -- apply (seen_in_order_later post (clock w) (reads w)); auto.
    + rewrite Hc. apply evolves_at; [exact Hrefl|reflexivity|].
      split; [reflexivity|]. simpl. intros la lb Hla [= <-].
      rewrite Hls in Hla. injection Hla as <-. exact Hb.
  - eexists _, _. split; [exact (store_ioc_insert w d F Hf)|].
    unfold seen_in_order in *. simpl. split.
    + apply Forall_app. split.
      * apply (seen_in_order_later (iocs w) (clock w) (reads w)); auto.
      * apply Forall_cons. split; [|constructor].
        exists (clock w (reads w)), (clock w (S (reads w))).
        split; [reflexivity|]. split; [reflexivity|].
        split; apply Hmono; lia.
    + apply evolves_refl_app. exact Hrefl.
Qed.

(** A first observation on the ticking sample clock. *)
Lemma store_ioc_keeps_first_seen_witness :
  exists r w',
    store_ioc (Demo.seen "honeypot" 70 "high" ["malware"]) (Demo.empty_at 0 1)
    = (Ok r, w') /\
    seen_in_order w'.
Proof.
  destruct (store_ioc_keeps_first_seen (Demo.empty_at 0 1)
              (Demo.seen "honeypot" 70 "high" ["malware"])
              (wf_empty_at 0 1) eq_refl) as (r & w' & Hrun & Hord & _).
  - intros n m Hnm. simpl. lia.
  - constructor.
  - exists r, w'. auto.
Defined.

Lemma filter_length_at (p : Ioc.t -> bool) (pre post : list Ioc.t)
  (e r : Ioc.t) :
  p r = p e ->
  length (List.filter p (pre ++ r :: post)%list)
  = length (List.filter p (pre ++ e :: post)%list).
Proof.
  intros H. rewrite !List.filter_app, !length_app. simpl. rewrite H.
  now destruct (p e).
Qed.

(** Only a first sighting counts as a recent threat.  The statistics
    count by the first-seen time and the classification, and a merge
    touches neither: storing an observation of an indicator that is
    already stored changes no count, and storing a new indicator adds one
    to the counts whose window and classification it falls in. *)
Theorem store_ioc_counts_first_sightings (w : world) (d : Ioc.t)
  (t : Z) (c : string) :
  wf w -> fresh d ->
  exists r w',
    store_ioc d w = (Ok r, w') /\
    match List.find (Ioc.has_key (Ioc.value d) (Ioc.type d)) (iocs w) with
    | Some _ =>
        fst (count_documents (since t) w')
        = fst (count_documents (since t) w) /\
        fst (count_documents (classified_since c t) w')
        = fst (count_documents (classified_since c t) w)
    | None =>
        fst (count_documents (since t) w')
        = Ok (length (List.filter (since t) (iocs w))
              + (if (t <=? clock w (reads w))%Z then 1 else 0))%nat /\
        fst (count_documents (classified_since c t) w')
        = Ok (length (List.filter (classified_since c t) (iocs w))
              + (if bool_decide (Ioc.classification d = Some c)
                    && (t <=? clock w (reads w))%Z then 1 else 0))%nat
    end.
Proof.
  intros Hwf Hf.
  destruct (store_ioc_step w d Hwf Hf)
    as (r & w' & Hrun & _ & _ & _ & _ & _ & Hc).
  exists r, w'. split; [exact Hrun|].
  unfold count_documents. simpl.
  destruct (List.find (Ioc.has_key (Ioc.value d) (Ioc.type d)) (iocs w))
    as [e|].
  - destruct Hc as (pre & post & -> & _ & -> & _).
    split; f_equal; apply filter_length_at; reflexivity.
  - destruct Hc as [-> _].
    split; f_equal; rewrite List.filter_app, length_app; f_equal; simpl.
    + change (since t (inserted w d)) with (t <=? clock w (reads w)).
      now destruct (t <=? clock w (reads w)).
    + change (classified_since c t (inserted w d))
        with (bool_decide (Ioc.classification d = Some c)
              && (t <=? clock w (reads w))).
      now destruct (bool_decide (Ioc.classification d = Some c)
                    && (t <=? clock w (reads w))).
Qed.

(** A second observation of the sample address adds nothing to the
    count of threats since time 0. *)
Lemma store_ioc_counts_first_sightings_witness :
  exists r w',
    store_ioc (Demo.seen "dns_sinkhole" 90 "high" ["botnet"])
      (Demo.one_record 1) = (Ok r, w') /\
    fst (count_documents (since 0) w') = Ok 1%nat.
Proof.
  destruct (store_ioc_counts_first_sightings (Demo.one_record 1)
              (Demo.seen "dns_sinkhole" 90 "high" ["botnet"]) 0 "high"
              (wf_one_record 1) eq_refl)
    as (r & w' & Hrun & Hcount).
  exists r, w'. split; [exact Hrun|]. exact (proj1 Hcount).
Defined.

End TimeFacts.

(** ** The monitoring loop, cycle by cycle *)

Section MonitorFacts.
Import World Database Store Monitor RealtimeFeeds.

Lemma filter_length_impl (p q : Ioc.t -> bool) (c : list Ioc.t) :
  (forall d, p d = true -> q d = true) ->
  (length (List.filter p c) <= length (List.filter q c))%nat.
Proof.
  intros H. induction c as [|d c IH]; [constructor|]. simpl.
  destruct (p d) eqn:E.
  - rewrite (H d E). simpl. lia.
  - destruct (q d); simpl; lia.
Qed.

Lemma filter_length_le (p : Ioc.t -> bool) (c : list Ioc.t) :
  (length (List.filter p c) <= length c)%nat.
Proof.
  induction c as [|d c IH]; [constructor|]. simpl.
  destruct (p d); simpl; lia.
Qed.

Lemma threat_level_in_levels (critical_count high_count : nat) :
  In (threat_level critical_count high_count) threat_levels.
Proof.
  unfold threat_level, threat_levels.
  destruct (5 <? critical_count)%nat; [simpl; tauto|].
  destruct ((0 <? critical_count) || (10 <? high_count))%nat; [simpl; tauto|].
  destruct (0 <? high_count)%nat; simpl; tauto.
Qed.

(** With reads that succeed [_update_live_stats] only reads the
    collection, and counts no more threats in the last hour than in the
    last 24 hours. *)
Lemma update_live_stats_reads (w : world) :
  exists w',
    _update_live_stats reads_succeed w = (Ok tt, w') /\
    iocs w' = iocs w /\ events w' = events w /\
    (threats_last_hour (live_stats w')
     <= threats_last_24h (live_stats w'))%nat /\
    (threats_last_24h (live_stats w') <= length (iocs w))%nat.
Proof.
  exists (snd (_update_live_stats reads_succeed w)).
  split; [reflexivity|]. simpl.
  split; [reflexivity|]. split; [reflexivity|]. split.
  - apply filter_length_impl. intros d. unfold since.
    destruct (Ioc.timestamp d) as [ts|]; [|discriminate].
    rewrite !Z.leb_le. unfold Py.hours, Py.seconds. lia.
  - apply filter_length_le.
Qed.

(** [_update_live_stats] never raises and only reads the collection, and
    [get_live_stats] returns just the statistics it leaves.  Whether the
    reads succeed or the [except] branch falls back on its random
    figures, the threats of the last hour are no more than those of the
    last 24 hours and the level is one of the four levels.  When the
    reads succeed, the figures are the counts of the records first seen
    within the hour and within the 24 hours before the clock reading, so
    neither exceeds the number of stored records; when one fails, they
    are the two fallback figures with the level medium. *)
Theorem live_stats_are_consistent (d : stats_draw) (w : world) :
  in_range d ->
  exists w',
    _update_live_stats d w = (Ok tt, w') /\
    get_live_stats d w = (Ok (live_stats w'), w') /\
    iocs w' = iocs w /\ events w' = events w /\
    reads w' = S (reads w) /\
    (threats_last_hour (live_stats w')
     <= threats_last_24h (live_stats w'))%nat /\
    In (current_threat_level (live_stats w')) threat_levels /\
    (read_fails d = false ->
     threats_last_hour (live_stats w')
     = length (List.filter (since (clock w (reads w) - Py.hours 1)) (iocs w))
     /\
     threats_last_24h (live_stats w')
     = length (List.filter (since (clock w (reads w) - Py.hours 24)) (iocs w))
     /\
     (threats_last_24h (live_stats w') <= length (iocs w))%nat) /\
    (read_fails d = true ->
     live_stats w'
     = {| threats_last_hour := fallback_last_hour d;
          threats_last_24h := fallback_last_24h d;
          current_threat_level := "medium" |}).
Proof.
  intros [Hh Hd].
  exists (snd (_update_live_stats d w)).
  unfold get_live_stats, _update_live_stats, try_except, bind, utcnow,
    count_documents, raise, ret.
  destruct (read_fails d); cbn [fst snd iocs events reads live_stats
    with_live_stats with_reads threats_last_hour threats_last_24h
    current_threat_level].
  - split; [reflexivity|]. split; [reflexivity|].
    split; [reflexivity|]. split; [reflexivity|]. split; [reflexivity|].
    split; [lia|]. split; [unfold threat_levels; simpl; tauto|].
    split; [discriminate|reflexivity].
  - split; [reflexivity|]. split; [reflexivity|].
    split; [reflexivity|]. split; [reflexivity|]. split; [reflexivity|].
    split; [|split; [apply threat_level_in_levels|split; [|discriminate]]].
    + apply filter_length_impl. intros x. unfold since.
      destruct (Ioc.timestamp x) as [ts|]; [|discriminate].
      rewrite !Z.leb_le. unfold Py.hours, Py.seconds. lia.
    + intros _. split; [reflexivity|]. split; [reflexivity|].
      apply filter_length_le.
Qed.

(** A read fails on a collection of one record: the figures are the
    fallback ones, 12 and 130, above the number of records. *)
Lemma live_stats_are_consistent_witness :
  let d := {| read_fails := true; fallback_last_hour := 12;
              fallback_last_24h := 130 |} in
  exists w',
    get_live_stats d (Demo.one_record 1) = (Ok (live_stats w'), w') /\
    iocs w' = iocs (Demo.one_record 1) /\
    live_stats w'
    = {| threats_last_hour := 12; threats_last_24h := 130;
         current_threat_level := "medium" |}.
Proof.
  intros d.
  destruct (live_stats_are_consistent d (Demo.one_record 1))
    as (w' & _ & Hget & Hio & _ & _ & _ & _ & _ & Hfail).
  - split; simpl; lia.
  - exists w'. split; [exact Hget|]. split; [exact Hio|].
    exact (Hfail eq_refl).
Defined.

(** Processing the threats of a cycle emits new-threat events only: one
    per threat when no error is raised. *)
Lemma simulate_events (draws : list draw) :
  forall w : world,
    exists news,
      events (snd (_simulate_threat_detection draws w))
      = (events w ++ news)%list /\
      new_threats news = news /\
      (fst (_simulate_threat_detection draws w) = Ok tt ->
       length news = length draws).
Proof.
  induction draws as [|d draws IH]; intros w.
  - exists []. simpl. rewrite app_nil_r. auto.
  - simpl. unfold bind.
    destruct (store_ioc_frame (threat_data d) w) as (_ & He & _).
    assert (Hd : (exists x w1, detect_one d w = (Raise x, w1) /\
                               events w1 = events w) \/
                 (exists w1 td ts,
                     detect_one d w = (Ok tt, w1) /\
                     events w1 = (events w ++ [NewThreat td ts])%list)).
    { unfold detect_one, bind, raise, ret, utcnow, emit.
      destruct (fault_is InGenerate d); simpl; [left; eauto|].
      destruct (fault_is InStore d); simpl; [left; eauto|].
      destruct (store_ioc (threat_data d) w) as [[r|x] w1]; simpl in *.
      - destruct (fault_is InEmit d); simpl.
        + left. eexists _, _. split; [reflexivity|]. exact He.
        + right. eexists _, _, _. split; [reflexivity|]. simpl.
          rewrite He. reflexivity.
      - left. eexists _, _. split; [reflexivity|]. exact He. }
    destruct Hd as [(x & w1 & -> & Hev)|(w1 & td & ts & -> & Hev)].
    + exists []. simpl. rewrite app_nil_r. split; [exact Hev|].
      split; [reflexivity|discriminate].
    + destruct (IH w1) as (news & Hevs & Hnews & Hlen).
      exists (NewThreat td ts :: news). rewrite Hevs, Hev, <- app_assoc.
      split; [reflexivity|]. split.
      * unfold new_threats in *. simpl. now rewrite Hnews.
      * intros Hok. simpl. now rewrite (Hlen Hok).
Qed.

Lemma sleeps_of_new_threats (news : list event) :
  new_threats news = news -> sleeps news = [].
Proof.
  unfold new_threats, sleeps. induction news as [|e news IH]; [reflexivity|].
  simpl. destruct e; simpl; intros H.
  - injection H as H. auto.
  - exfalso. pose proof (List.filter_length_le
      (fun e => match e with NewThreat _ _ => true | _ => false end) news) as L.
    rewrite H in L. simpl in L. lia.
  - exfalso. pose proof (List.filter_length_le
      (fun e => match e with NewThreat _ _ => true | _ => false end) news) as L.
    rewrite H in L. simpl in L. lia.
  - exfalso. pose proof (List.filter_length_le
      (fun e => match e with NewThreat _ _ => true | _ => false end) news) as L.
    rewrite H in L. simpl in L. lia.
Qed.

(** A cycle never raises: it ends with one sleep, of 10 seconds after a
    clean run and of 30 seconds after an error. *)
Lemma monitor_cycle_ok (draws : list draw) (w : world) :
  exists w' nap,
    monitor_cycle draws w = (Ok tt, w') /\
    monitoring w' = monitoring w /\
    sleeps (events w') = (sleeps (events w) ++ [Sleep nap])%list /\
    (nap = 10 \/ nap = 30).
Proof.
  destruct (simulate_frame draws w) as (_ & Hm & _).
  destruct (simulate_events draws w) as (news & Hev & Hnews & _).
  pose proof (sleeps_of_new_threats news Hnews) as Hs.
  unfold monitor_cycle, try_except, bind at 1.
  destruct (_simulate_threat_detection draws w) as [[[]|x] w1];
    simpl in Hm, Hev.
  - exists (snd ((_update_live_stats reads_succeed;; _broadcast_updates;;
                  emit (Sleep 10)) w1)), 10.
    split; [reflexivity|]. simpl. split; [exact Hm|].
    split; [|now left].
    unfold sleeps in *. rewrite Hev, !List.filter_app, Hs. simpl.
    now rewrite !app_nil_r.
  - exists (with_events (events w1 ++ [Sleep 30])%list w1), 30.
    split; [reflexivity|]. simpl. split; [exact Hm|].
    split; [|now right].
    unfold sleeps in *. rewrite Hev, !List.filter_app, Hs. simpl.
    now rewrite app_nil_r.
Qed.

(** The monitoring loop never lets an exception out.  Started with the
    flag set it runs every cycle it is given and sleeps once after each,
    10 or 30 seconds; with the flag cleared it does nothing at all.  It
    never changes the flag itself. *)
Theorem monitor_threats_never_raises (cycles : list (list draw)) :
  forall w : world,
    exists w' naps,
      _monitor_threats cycles w = (Ok tt, w') /\
      monitoring w' = monitoring w /\
      sleeps (events w') = (sleeps (events w) ++ naps)%list /\
      Forall (fun e => e = Sleep 10 \/ e = Sleep 30) naps /\
      length naps = (if monitoring w then length cycles else 0%nat) /\
      (monitoring w = false -> w' = w).
Proof.
  induction cycles as [|draws cycles IH]; intros w.
  - exists w, []. simpl. rewrite app_nil_r.
    repeat split; auto. now destruct (monitoring w).
  - simpl. destruct (monitoring w) eqn:Hmon.
    + destruct (monitor_cycle_ok draws w)
        as (w1 & nap & Hrun & Hm1 & Hs1 & Hnap).
      destruct (IH w1) as (w' & naps & Hrun' & Hm' & Hs' & Hall & Hlen & _).
      exists w', (Sleep nap :: naps). unfold bind. rewrite Hrun.
      split; [exact Hrun'|]. split; [congruence|].
      split; [rewrite Hs', Hs1, <- app_assoc; reflexivity|].
      split; [constructor; [destruct Hnap; subst; auto|exact Hall]|].
      split; [|discriminate].
      simpl. rewrite Hlen, Hm1, Hmon. reflexivity.
    + exists w, []. rewrite app_nil_r. repeat split; auto.
Qed.

Lemma store_ioc_keeps_records (w : world) (d : Ioc.t) :
  wf w -> fresh d ->
  exists r w1,
    store_ioc d w = (Ok r, w1) /\ wf w1 /\
    records_of (Ioc.value d) (Ioc.type d) w1 <> [] /\
    (forall v ty, records_of v ty w <> [] -> records_of v ty w1 <> []).
Proof.
  intros Hwf Hf.
  destruct (store_ioc_records w d Hwf Hf)
    as (r & w1 & Hrun & Hwf1 & Hframe & Hkey).
  exists r, w1. split; [exact Hrun|]. split; [exact Hwf1|].
  assert (Hk : records_of (Ioc.value d) (Ioc.type d) w1 <> []).
  { destruct (records_of (Ioc.value d) (Ioc.type d) w);
      destruct Hkey as [-> _]; discriminate. }
  split; [exact Hk|]. intros v ty Hne.
  destruct (Ioc.has_key v ty d) eqn:E.
  - apply has_key_true in E as [<- <-]. exact Hk.
  - now rewrite (Hframe v ty E).
Qed.

(** The loop body on a threat without an injected error. *)
Lemma detect_one_clean (w : world) (d : draw) :
  wf w -> fault d = None -> fresh (threat_data d) ->
  exists w1,
    fst (detect_one d w) = Ok tt /\
    iocs (snd (detect_one d w)) = iocs w1 /\
    next_oid (snd (detect_one d w)) = next_oid w1 /\
    wf w1 /\
    records_of (Ioc.value (threat_data d)) (Ioc.type (threat_data d)) w1
    <> [] /\
    (forall v ty, records_of v ty w <> [] -> records_of v ty w1 <> []).
Proof.
  intros Hwf Hfault Hf.
  destruct (store_ioc_keeps_records w (threat_data d) Hwf Hf)
    as (r & w1 & Hrun & Hwf1 & Hk & Hkeep).
  exists w1. unfold detect_one, fault_is, bind, raise, ret, utcnow, emit.
  rewrite Hfault. simpl. rewrite Hrun. simpl.
  split; [reflexivity|]. split; [reflexivity|]. split; [reflexivity|].
  split; [exact Hwf1|]. split; [exact Hk|exact Hkeep].
Qed.

Lemma wf_same_collection (w w1 : world) :
  iocs w = iocs w1 -> next_oid w = next_oid w1 -> wf w1 -> wf w.
Proof. unfold wf. intros -> ->. auto. Qed.

Lemma simulate_clean (draws : list draw) :
  forall w : world,
    wf w ->
    Forall (fun d => fault d = None /\ fresh (threat_data d)) draws ->
    fst (_simulate_threat_detection draws w) = Ok tt /\
    wf (snd (_simulate_threat_detection draws w)) /\
    (forall v ty,
       records_of v ty w <> [] ->
       records_of v ty (snd (_simulate_threat_detection draws w)) <> []) /\
    Forall (fun d =>
              records_of (Ioc.value (threat_data d))
                (Ioc.type (threat_data d))
                (snd (_simulate_threat_detection draws w)) <> [])
           draws.
Proof.
  induction draws as [|d draws IH]; intros w Hwf Hall.
  - simpl. split; [reflexivity|]. split; [exact Hwf|].
    split; [auto|constructor].
  - apply Forall_cons in Hall as [[Hfault Hf] Hall].
    destruct (detect_one_clean w d Hwf Hfault Hf)
      as (w1 & Hok & Hio & Hoid & Hwf1 & Hk & Hkeep).
    simpl. unfold bind.
    destruct (detect_one d w) as [[[]|x] w2]; simpl in *; [|discriminate].
    assert (Hwf2 : wf w2) by exact (wf_same_collection _ _ Hio Hoid Hwf1).
    assert (Hrec : forall v ty, records_of v ty w2 = records_of v ty w1).
    { intros v ty. unfold records_of. now rewrite Hio. }
    destruct (IH w2 Hwf2 Hall) as (Hok' & Hwf' & Hkeep' & Hall').
    split; [exact Hok'|]. split; [exact Hwf'|]. split.
    + intros v ty Hne. apply Hkeep'. rewrite Hrec. now apply Hkeep.
    + constructor; [|exact Hall']. apply Hkeep'. now rewrite Hrec.
Qed.

(** A cycle in which nothing goes wrong records every threat, emits one
    new-threat event per threat, then recomputes the statistics,
    broadcasts them once and sleeps 10 seconds. *)
Theorem clean_cycle_records_and_reports (w : world) (draws : list draw) :
  wf w ->
  Forall (fun d => fault d = None /\ fresh (threat_data d)) draws ->
  exists w' news,
    monitor_cycle draws w = (Ok tt, w') /\
    wf w' /\
    events w'
    = (events w ++ news ++ [LiveStatsUpdate (live_stats w'); Sleep 10])%list /\
    new_threats news = news /\ length news = length draws /\
    Forall (fun d =>
              records_of (Ioc.value (threat_data d))
                (Ioc.type (threat_data d)) w' <> [])
           draws /\
    (threats_last_hour (live_stats w')
     <= threats_last_24h (live_stats w') <= length (iocs w'))%nat.
Proof.
  intros Hwf Hall.
  destruct (simulate_clean draws w Hwf Hall) as (Hok & Hwf1 & _ & Hrecs).
  destruct (simulate_events draws w) as (news & Hev & Hnews & Hlen).
  specialize (Hlen Hok).
  destruct (_simulate_threat_detection draws w) as [o w1] eqn:Hsim.
  simpl in *. subst o.
  destruct (update_live_stats_reads w1)
    as (w2 & Hup & Hio & Hev2 & Hle1 & Hle2).
  exists (snd ((_broadcast_updates;; emit (Sleep 10)) w2)), news.
  split.
  { unfold monitor_cycle, try_except, bind at 1. rewrite Hsim.
    unfold bind at 1. rewrite Hup. reflexivity. }
  simpl. split.
  { apply (wf_same_collection _ w1); [exact Hio| |exact Hwf1].
    simpl. clear -Hup. unfold _update_live_stats, bind, utcnow,
      count_documents in Hup. simpl in Hup. now injection Hup as <-. }
  split; [rewrite Hev2, Hev, <- !app_assoc; reflexivity|].
  split; [exact Hnews|]. split; [exact Hlen|]. split.
  - eapply List.Forall_impl; [|exact Hrecs]. intros d Hd.
    unfold records_of in *. simpl. now rewrite Hio.
  - rewrite Hio. lia.
Qed.

(** A cycle of two threats at two addresses. *)
Lemma clean_cycle_records_and_reports_witness :
  let draws :=
    [ {| threat_data := Demo.threat "203.0.113.1" "honeypot" 80 "high" [];
         fault := None |};
      {| threat_data := Demo.threat "203.0.113.2" "honeypot" 80 "high" [];
         fault := None |} ] in
  exists w' news,
    monitor_cycle draws (Demo.empty_at 0 1) = (Ok tt, w') /\
    length news = 2%nat /\
    events w' = (news ++ [LiveStatsUpdate (live_stats w'); Sleep 10])%list.
Proof.
  intros draws.
  destruct (clean_cycle_records_and_reports (Demo.empty_at 0 1) draws
              (wf_empty_at 0 1))
    as (w' & news & Hrun & _ & Hev & _ & Hlen & _).
  - repeat constructor.
  - exists w', news. auto.
Defined.

End MonitorFacts.

(** ** Refreshing a stale record, and the three lookups *)

Section LookupFacts.
Import World Database Store ThreatIntel.

Lemma fan_out_answers (self : service) (ioc ioc_type : string)
  (w w' : world) :
  fst (fan_out self ioc ioc_type w') = fst (fan_out self ioc ioc_type w).
Proof.
  unfold fan_out. destruct (String.eqb ioc_type "ip"); [reflexivity|].
  destruct (String.eqb ioc_type "domain"); reflexivity.
Qed.

(** A lookup that finds a stale record asks the sources again and merges
    their answer into the record; what it returns is not the merged
    record but the dict built from the fresh answers, without ["_id"] and
    times, while the record keeps its id and classification and takes the
    larger of the two scores. *)
Theorem lookup_ioc_refresh_returns_fresh_answers (self : service)
  (ioc ioc_type : string) (w : world) (c : Ioc.t) (seen : Z)
  (r : Observation.t) (rs : list Observation.t) :
  wf w ->
  List.find (Ioc.has_key ioc ioc_type) (iocs w) = Some c ->
  Ioc.last_seen c = Some seen ->
  3600 <= Py.timedelta_seconds (clock w (reads w) - seen) ->
  fst (fan_out self ioc ioc_type w) = Ok (r :: rs) ->
  exists w' rec,
    lookup_ioc self ioc ioc_type w
    = (Ok (Some (aggregate ioc ioc_type r rs)), w') /\
    List.find (Ioc.has_key ioc ioc_type) (iocs w') = Some rec /\
    Ioc._id rec = Ioc._id c /\
    Ioc.threat_score rec = Some (Z.max (score_of c) (max_score r rs)) /\
    Ioc.classification rec = Ioc.classification c /\
    Ioc.timestamp rec = Ioc.timestamp c /\
    Ioc.last_seen rec = Some (clock w (S (reads w))) /\
    length (iocs w') = length (iocs w).
Proof.
  intros [Hids Hnd] F Hseen Hstale Hfan.
  set (w0 := with_reads (S (reads w)) w).
  destruct (fan_out_run self ioc ioc_type w0) as (results & calls & Hrun & _).
  rewrite <- (fan_out_answers self ioc ioc_type w w0), Hrun in Hfan.
  simpl in Hfan. injection Hfan as ->.
  set (w1 := with_events (events w0 ++ calls)%list w0) in *.
  destruct (find_some _ _ F) as [Hin Hk].
  destruct (proj1 (List.Forall_forall _ _) Hids c Hin) as (i & Hi & _).
  assert (F1 : List.find
                 (Ioc.has_key (Ioc.value (aggregate ioc ioc_type r rs))
                              (Ioc.type (aggregate ioc ioc_type r rs)))
                 (iocs w1) = Some c) by exact F.
  pose proof (store_ioc_merge w1 (aggregate ioc ioc_type r rs) c i F1 Hi)
    as Hst.
  destruct (update_first_found ioc ioc_type
              (update_data c (aggregate ioc ioc_type r rs)
                 (clock w1 (reads w1)))
              (iocs w) c i Hnd F Hi) as (pre & post & Hc & Hpre & Hup).
  change (iocs w1) with (iocs w) in Hst. rewrite Hup in Hst.
  eexists _, (update_data c (aggregate ioc ioc_type r rs)
                (clock w1 (reads w1)) c).
  split.
  { unfold lookup_ioc, get_ioc, bind at 1, find_one. rewrite F.
    unfold bind at 1, cache_hit, bind at 1, utcnow. rewrite Hseen.
    unfold ret at 1.
    replace (Py.timedelta_seconds (clock w (reads w) - seen) <? 3600)
      with false by (symmetry; apply Z.ltb_ge; exact Hstale).
    fold w0. unfold bind at 1. rewrite Hrun. fold w1.
    unfold bind. rewrite Hst. reflexivity. }
  split.
  { change (List.find (Ioc.has_key ioc ioc_type)
              (pre ++ update_data c (aggregate ioc ioc_type r rs)
                        (clock w1 (reads w1)) c :: post)%list
            = Some (update_data c (aggregate ioc ioc_type r rs)
                      (clock w1 (reads w1)) c)).
    apply find_after_prefix; [exact Hpre|].
    rewrite (has_key_keeps _ ioc ioc_type c
               (update_data_keeps_identity _ _ _)).
    exact Hk. }
  split; [reflexivity|]. split; [reflexivity|]. split; [reflexivity|].
  split; [reflexivity|]. split; [reflexivity|].
  change (length (pre ++ update_data c (aggregate ioc ioc_type r rs)
                           (clock w1 (reads w1)) c :: post)%list
          = length (iocs w)).
  rewrite Hc, !length_app. reflexivity.
Qed.

(** The sample record, two hours old, refreshed with a higher score. *)
Lemma lookup_ioc_refresh_returns_fresh_answers_witness :
  exists w' rec,
    lookup_ioc (Demo.virustotal_says 90) "198.51.100.7" "ip"
      (Demo.one_record (Py.hours 2))
    = (Ok (Some (aggregate "198.51.100.7" "ip"
                   (Demo.answer "virustotal" 90 "critical") [])), w') /\
    List.find (Ioc.has_key "198.51.100.7" "ip") (iocs w') = Some rec /\
    Ioc.threat_score rec = Some 90 /\
    Ioc.classification rec = Some "high".
Proof.
  destruct (lookup_ioc_refresh_returns_fresh_answers
              (Demo.virustotal_says 90) "198.51.100.7" "ip"
              (Demo.one_record (Py.hours 2))
              (Ioc.set_id 0
                 (Ioc.set_last_seen (Py.hours 2)
                    (Ioc.set_timestamp 0
                       (Demo.seen "honeypot" 70 "high" ["malware"]))))
              (Py.hours 2)
              (Demo.answer "virustotal" 90 "critical") []
              (wf_one_record (Py.hours 2)) eq_refl eq_refl)
    as (w' & rec & Hrun & Hfind & _ & Hsc & Hcl & _).
  - vm_compute. discriminate.
  - reflexivity.
  - exists w', rec. auto.
Defined.

End LookupFacts.

Section SourceFacts.
Import World Sources.

Lemma classify_min_100 (x : Q) :
  Score._classify_threat_score (Py.min_100 x)
  = Score._classify_threat_score x.
Proof.
  unfold Py.min_100. destruct (Py.ltb x 100) eqn:E; [reflexivity|].
  apply ltb_ge in E.
  assert (H : Py.geb x 80 = true) by (apply geb_ge; lra).
  unfold Score._classify_threat_score. now rewrite H.
Qed.

Lemma min_100_of_int (n : Z) :
  Py.min_100 (inject_Z n) = inject_Z (Z.min 100 n).
Proof.
  unfold Py.min_100. destruct (Py.ltb (inject_Z n) 100) eqn:E.
  - apply ltb_lt in E. change 100%Q with (inject_Z 100) in E.
    rewrite <- Zlt_Qlt in E. now rewrite Z.min_r by lia.
  - apply ltb_ge in E. change 100%Q with (inject_Z 100) in E.
    rewrite <- Zle_Qle in E. now rewrite Z.min_l by lia.
Qed.

Lemma vt_answer_spec (weight : Z) (details : list (string * detail))
  (data : vt_report) (a : answer) :
  0 <= weight ->
  vt_answer weight details data = Some a ->
  source a = "virustotal" /\
  threat_score a
  = inject_Z (Z.min 100
                (Z.of_nat (length (default [] (detected_urls data)))
                 * weight)) /\
  (0 <= threat_score a)%Q /\ (threat_score a <= 100)%Q /\
  classification a = Score._classify_threat_score (threat_score a).
Proof.
  intros Hw. unfold vt_answer. rewrite normalize_num.
  intros [= <-]. cbn [source threat_score classification].
  split; [reflexivity|]. split; [apply min_100_of_int|].
  split; [|split].
  - rewrite min_100_of_int. change 0%Q with (inject_Z 0).
    rewrite <- Zle_Qle. lia.
  - apply min_100_le.
  - symmetry. apply classify_min_100.
Qed.

Lemma vt_lookup_answer (api_key : option string) (url : string)
  (get : string -> http vt_report)
  (answer_of : vt_report -> option answer) (ioc : string) (w : world)
  (a : answer) :
  fst (vt_lookup api_key url get answer_of ioc w) = Ok (Some a) ->
  exists data,
    get ioc = Answers 200 (Some data) /\ response_code data = Some 1 /\
    answer_of data = Some a.
Proof.
  unfold vt_lookup, bind, emit, ret.
  destruct (no_key api_key); [discriminate|]. simpl.
  destruct (get ioc) as [|status json]; [discriminate|].
  destruct (status =? 200) eqn:E; [|discriminate].
  apply Z.eqb_eq in E. subst status.
  destruct json as [data|]; [|discriminate].
  destruct (bool_decide (response_code data = Some 1)) eqn:Ec;
    [|discriminate].
  apply bool_decide_eq_true_1 in Ec.
  simpl. intros [= H]. eauto.
Qed.

(** A lookup answers only from a response with status 200 (and, for
    VirusTotal, a report with response code 1), and what it answers is
    scored from that response and classified consistently: a VirusTotal
    score is [min(100, 10 * n)] for an address and [min(100, 5 * n)] for
    a domain, [n] being the number of detected URLs in the report (0 when
    the report lists none), and the details carry [n]; an AbuseIPDB score
    is [min(100, confidence)] for the confidence in the response (0 when
    it gives none).  The classification is that of the returned score,
    although the code classifies the raw score and returns the capped
    one. *)
Theorem lookup_answers_are_consistent (api_key : option string)
  (ioc : string) (w : world) (a : answer) :
  (forall get,
     fst (lookup_virustotal_ip api_key get ioc w) = Ok (Some a) ->
     exists data,
       get ioc = Answers 200 (Some data) /\ response_code data = Some 1 /\
       let n := Z.of_nat (length (default [] (detected_urls data))) in
       threat_score a = inject_Z (Z.min 100 (n * 10)) /\
       source a = "virustotal" /\
       classification a = Score._classify_threat_score (threat_score a) /\
       details a = [("detected_urls", DInt n);
                    ("country", DStr (default "Unknown" (country data)));
                    ("as_owner", DStr (default "Unknown" (as_owner data)))])
  /\
  (forall get,
     fst (lookup_virustotal_domain api_key get ioc w) = Ok (Some a) ->
     exists data,
       get ioc = Answers 200 (Some data) /\ response_code data = Some 1 /\
       let n := Z.of_nat (length (default [] (detected_urls data))) in
       threat_score a = inject_Z (Z.min 100 (n * 5)) /\
       source a = "virustotal" /\
       classification a = Score._classify_threat_score (threat_score a) /\
       details a = [("detected_urls", DInt n);
                    ("categories", DList (default [] (categories data)))])
  /\
  (forall get,
     fst (lookup_abuseipdb api_key get ioc w) = Ok (Some a) ->
     exists data,
       get ioc = Answers 200 (Some data) /\
       threat_score a
       = Py.min_100 (default 0%Q (abuseConfidencePercentage data)) /\
       (threat_score a <= 100)%Q /\
       source a = "abuseipdb" /\
       classification a = Score._classify_threat_score (threat_score a)).
Proof.
  split; [|split].
  - intros get H. apply vt_lookup_answer in H as (data & Hget & Hcode & H).
    exists data. split; [exact Hget|]. split; [exact Hcode|].
    pose proof (vt_answer_spec 10 _ _ _ ltac:(lia) H)
      as (Hs & Hsc & _ & _ & Hcl).
    split; [exact Hsc|]. split; [exact Hs|]. split; [exact Hcl|].
    unfold vt_answer in H. rewrite normalize_num in H.
    now injection H as <-.
  - intros get H. apply vt_lookup_answer in H as (data & Hget & Hcode & H).
    exists data. split; [exact Hget|]. split; [exact Hcode|].
    pose proof (vt_answer_spec 5 _ _ _ ltac:(lia) H)
      as (Hs & Hsc & _ & _ & Hcl).
    split; [exact Hsc|]. split; [exact Hs|]. split; [exact Hcl|].
    unfold vt_answer in H. rewrite normalize_num in H.
    now injection H as <-.
  - intros get. unfold lookup_abuseipdb, bind, emit, ret.
    destruct (no_key api_key); [discriminate|].
    cbn -[Score.normalize_threat_score].
    destruct (get ioc) as [|status json]; [discriminate|].
    destruct (status =? 200) eqn:E; [|discriminate].
    apply Z.eqb_eq in E. subst status.
    destruct json as [data|]; [|discriminate].
    rewrite normalize_num. simpl. intros [= <-]. simpl.
    exists data. split; [reflexivity|]. split; [reflexivity|].
    split; [apply min_100_le|]. split; [reflexivity|].
    now rewrite classify_min_100.
Qed.

(** VirusTotal reports 7 detected URLs for an address: score 70, high. *)
Lemma lookup_answers_are_consistent_witness :
  let report := {| response_code := Some 1;
                   detected_urls := Some (repeat "u" 7);
                   country := Some "NL"; as_owner := None;
                   categories := None |} in
  exists a,
    fst (lookup_virustotal_ip (Some "k") (fun _ => Answers 200 (Some report))
           "198.51.100.7" (Demo.empty_at 0 1)) = Ok (Some a) /\
    threat_score a = 70%Q /\ classification a = "high".
Proof.
  intros report. eexists. split; [reflexivity|].
  destruct (proj1 (lookup_answers_are_consistent (Some "k") "198.51.100.7"
                     (Demo.empty_at 0 1) _)
              (fun _ => Answers 200 (Some report)) eq_refl)
    as (data & Hget & _ & Hsc & _ & Hcl & _).
  injection Hget as <-. split; [exact Hsc|].
  rewrite Hcl, Hsc. reflexivity.
Defined.

(** Without an API key a lookup has no data and does nothing: no request
    is made and nothing is waited for. *)
Theorem lookup_without_key_makes_no_request (api_key : option string)
  (ioc : string) (w : world) :
  no_key api_key = true ->
  (forall get, lookup_virustotal_ip api_key get ioc w = (Ok None, w)) /\
  (forall get, lookup_virustotal_domain api_key get ioc w = (Ok None, w)) /\
  (forall get, lookup_abuseipdb api_key get ioc w = (Ok None, w)).
Proof.
  intros H. unfold lookup_virustotal_ip, lookup_virustotal_domain,
    vt_lookup, lookup_abuseipdb. rewrite H. repeat split.
Qed.

(** An empty key is no key. *)
Lemma lookup_without_key_makes_no_request_witness :
  lookup_abuseipdb (Some "") (fun _ => Fails) "198.51.100.7"
    (Demo.empty_at 0 1)
  = (Ok None, Demo.empty_at 0 1).
Proof.
  apply (proj2 (proj2 (lookup_without_key_makes_no_request (Some "")
                         "198.51.100.7" (Demo.empty_at 0 1) eq_refl))).
Defined.

(** The two IP lookups never raise, whatever the request comes to.  With
    a key each makes exactly one request; a VirusTotal lookup that gets a
    response it cannot use (another status than 200, or a response code
    other than 1) waits 15 seconds, and nothing else is waited for. *)
Theorem lookups_never_raise (api_key : option string) (ioc : string)
  (w : world) :
  no_key api_key = false ->
  (forall get,
     exists res w',
       lookup_virustotal_ip api_key get ioc w = (Ok res, w') /\
       Store.source_calls (events w')
       = (Store.source_calls (events w)
          ++ [SourceCall (vt_base_url ++ "/ip-address/report") ioc])%list /\
       Monitor.sleeps (events w')
       = (Monitor.sleeps (events w)
          ++ match get ioc with
             | Fails => []
             | Answers status json =>
                 if status =? 200 then
                   match json with
                   | Some data =>
                       if bool_decide (response_code data = Some 1)
                       then [] else [Sleep 15]
                   | None => []
                   end
                 else [Sleep 15]
             end)%list) /\
  (forall get,
     exists res w',
       lookup_abuseipdb api_key get ioc w = (Ok res, w') /\
       Store.source_calls (events w')
       = (Store.source_calls (events w)
          ++ [SourceCall (abuseipdb_base_url ++ "/check") ioc])%list /\
       Monitor.sleeps (events w') = Monitor.sleeps (events w)).
Proof.
  intros Hkey. split.
  - intros get. unfold lookup_virustotal_ip, vt_lookup, bind, emit, ret.
    rewrite Hkey. unfold Store.source_calls, Monitor.sleeps.
    destruct (get ioc) as [|status json]; simpl.
    + eexists _, _. split; [reflexivity|]. simpl.
      rewrite !List.filter_app. simpl. now rewrite !app_nil_r.
    + destruct (status =? 200).
      * destruct json as [data|].
        -- destruct (bool_decide (response_code data = Some 1)); simpl;
             eexists _, _; (split; [reflexivity|]); simpl;
             rewrite !List.filter_app; simpl; now rewrite ?app_nil_r.
        -- eexists _, _. split; [reflexivity|]. simpl.
           rewrite !List.filter_app. simpl. now rewrite !app_nil_r.
      * eexists _, _. split; [reflexivity|]. simpl.
        rewrite !List.filter_app. simpl. now rewrite ?app_nil_r.
  - intros get. unfold lookup_abuseipdb, bind, emit, ret.
    rewrite Hkey. unfold Store.source_calls, Monitor.sleeps.
    destruct (get ioc) as [|status json];
      cbn -[Score.normalize_threat_score].
    + eexists _, _. split; [reflexivity|]. simpl.
      rewrite !List.filter_app. simpl. now rewrite !app_nil_r.
    + destruct (status =? 200).
      * destruct json as [data|].
        -- rewrite normalize_num. eexists _, _. split; [reflexivity|]. simpl.
           rewrite !List.filter_app. simpl. now rewrite !app_nil_r.
        -- eexists _, _. split; [reflexivity|]. simpl.
           rewrite !List.filter_app. simpl. now rewrite !app_nil_r.
      * eexists _, _. split; [reflexivity|]. simpl.
        rewrite !List.filter_app. simpl. now rewrite !app_nil_r.
Qed.

(** VirusTotal answers 429 (rate limit): no data, after a 15 second wait. *)
Lemma lookups_never_raise_witness :
  exists res w',
    lookup_virustotal_ip (Some "k") (fun _ => Answers 429 None)
      "198.51.100.7" (Demo.empty_at 0 1) = (Ok res, w') /\
    Monitor.sleeps (events w') = [Sleep 15].
Proof.
  destruct (proj1 (lookups_never_raise (Some "k") "198.51.100.7"
                     (Demo.empty_at 0 1) eq_refl)
              (fun _ => Answers 429 None))
    as (res & w' & Hrun & _ & Hs).
  exists res, w'. auto.
Defined.

End SourceFacts.

(** ** Sorted, limited and paged reads *)

Section CursorFacts.
Import Cursor.

Variable key : Ioc.t -> option Z.

Let above (a b : Ioc.t) : Prop := key_leb (key b) (key a) = true.

Lemma key_leb_total (a b : option Z) :
  key_leb a b = false -> key_leb b a = true.
Proof.
  destruct a as [x|], b as [y|]; simpl; try discriminate; try reflexivity.
  rewrite Z.leb_gt, Z.leb_le. lia.
Qed.

Lemma key_leb_trans (a b c : option Z) :
  key_leb a b = true -> key_leb b c = true -> key_leb a c = true.
Proof.
  destruct a as [x|], b as [y|], c as [z|]; simpl; try discriminate;
    try reflexivity.
  rewrite !Z.leb_le. lia.
Qed.

Lemma insert_desc_perm (d : Ioc.t) (l : list Ioc.t) :
  Permutation (d :: l) (insert_desc key d l).
Proof.
  induction l as [|x l IH]; simpl; [reflexivity|].
  destruct (key_leb (key x) (key d)); [reflexivity|].
  rewrite perm_swap. now constructor.
Qed.

Lemma sort_desc_perm (l : list Ioc.t) : Permutation l (sort_desc key l).
Proof.
  induction l as [|d l IH]; simpl; [constructor|].
  rewrite <- insert_desc_perm. now constructor.
Qed.

Lemma sort_desc_length (l : list Ioc.t) :
  length (sort_desc key l) = length l.
Proof. symmetry. apply Permutation_length, sort_desc_perm. Qed.

Lemma insert_desc_sorted (d : Ioc.t) (l : list Ioc.t) :
  StronglySorted above l -> StronglySorted above (insert_desc key d l).
Proof.
  induction 1 as [|x l Hl IH Hx]; simpl.
  - constructor; constructor.
  - destruct (key_leb (key x) (key d)) eqn:E.
    + constructor; [now constructor|]. constructor; [exact E|].
      eapply List.Forall_impl; [|exact Hx]. intros y Hy. unfold above in *.
      exact (key_leb_trans _ _ _ Hy E).
    + constructor; [exact IH|].
      apply (Permutation_Forall (insert_desc_perm d l)).
      constructor; [|exact Hx]. exact (key_leb_total _ _ E).
Qed.

Lemma sort_desc_sorted (l : list Ioc.t) :
  StronglySorted above (sort_desc key l).
Proof.
  induction l as [|d l IH]; simpl; [constructor|].
  now apply insert_desc_sorted.
Qed.

Lemma key_leb_refl (a : option Z) : key_leb a a = true.
Proof. destruct a; simpl; [apply Z.leb_refl|reflexivity]. Qed.

Lemma sorted_descending (l : list Ioc.t) :
  StronglySorted above l -> descending key l.
Proof.
  induction 1 as [|x l Hl IH Hx]; intros i j a b Hij Ha Hb.
  - now rewrite lookup_nil in Ha.
  - destruct i as [|i], j as [|j]; simpl in Ha, Hb.
    + injection Ha as <-. injection Hb as <-. apply key_leb_refl.
    + injection Ha as <-.
      apply list_elem_of_lookup_2, list_elem_of_In in Hb.
      exact (proj1 (List.Forall_forall _ _) Hx b Hb).
    + lia.
    + apply (IH i j a b); [lia|exact Ha|exact Hb].
Qed.

Lemma sort_desc_descending (l : list Ioc.t) : descending key (sort_desc key l).
Proof. apply sorted_descending, sort_desc_sorted. Qed.

Lemma descending_drop (n : nat) (l : list Ioc.t) :
  descending key l -> descending key (drop n l).
Proof.
  intros H i j a b Hij Ha Hb. rewrite lookup_drop in Ha, Hb.
  apply (H (n + i)%nat (n + j)%nat a b); [lia|exact Ha|exact Hb].
Qed.

Lemma descending_take (n : nat) (l : list Ioc.t) :
  descending key l -> descending key (take n l).
Proof.
  intros H i j a b Hij Ha Hb.
  apply lookup_take_Some in Ha as [Ha _].
  apply lookup_take_Some in Hb as [Hb _].
  exact (H i j a b Hij Ha Hb).
Qed.

Lemma descending_limit (n : Z) (l : list Ioc.t) :
  descending key l -> descending key (limit n l).
Proof.
  unfold limit. destruct (n =? 0); [auto|]. apply descending_take.
Qed.

Lemma in_limit (n : Z) (l : list Ioc.t) (d : Ioc.t) :
  In d (limit n l) -> In d l.
Proof.
  unfold limit. destruct (n =? 0); [auto|].
  intros H. apply list_elem_of_In. apply list_elem_of_In in H.
  exact (subseteq_take _ _ _ H).
Qed.

Lemma key_leb_antisym (a b : option Z) :
  key_leb a b = true -> key_leb b a = true -> a = b.
Proof.
  destruct a as [x|], b as [y|]; simpl; try discriminate; try reflexivity.
  rewrite !Z.leb_le. intros H1 H2. f_equal. lia.
Qed.

Lemma descending_cons (a : Ioc.t) (l : list Ioc.t) :
  descending key (a :: l) ->
  descending key l /\ forall b, In b l -> key_leb (key b) (key a) = true.
Proof.
  intros H. split.
  - intros i j x y Hij Hx Hy.
    apply (H (S i) (S j) x y); [lia|exact Hx|exact Hy].
  - intros b Hb.
    apply list_elem_of_In, list_elem_of_lookup_1 in Hb as [j Hj].
    apply (H 0%nat (S j) a b); [lia|reflexivity|exact Hj].
Qed.

(** Where no two documents have the same key, the descending order is
    the only one there is. *)
Lemma descending_unique (l1 l2 : list Ioc.t) :
  NoDup (map key l1) -> Permutation l1 l2 ->
  descending key l1 -> descending key l2 -> l1 = l2.
Proof.
  revert l2. induction l1 as [|a l1 IH]; intros l2 Hnd Hp H1 H2.
  - apply Permutation.Permutation_nil in Hp. now subst.
  - destruct l2 as [|b l2].
    { apply Permutation_sym, Permutation.Permutation_nil in Hp.
      discriminate. }
    simpl in Hnd. apply NoDup_cons in Hnd as [Ha Hnd].
    apply descending_cons in H1 as [H1 Ha1].
    apply descending_cons in H2 as [H2 Hb2].
    assert (E : a = b).
    { destruct (decide (a = b)) as [E|E]; [exact E|]. exfalso.
      assert (Hb : In b l1).
      { pose proof (Permutation_in b (Permutation_sym Hp) (in_eq b l2)) as H.
        destruct H as [H|H]; [contradiction|exact H]. }
      assert (Hain : In a l2).
      { pose proof (Permutation_in a Hp (in_eq a l1)) as H.
        destruct H as [H|H]; [congruence|exact H]. }
      apply Ha. apply list_elem_of_fmap. exists b.
      split; [|apply list_elem_of_In; exact Hb].
      apply key_leb_antisym; [apply Hb2, Hain|apply Ha1, Hb]. }
    subst b. f_equal.
    apply IH; [exact Hnd| |exact H1|exact H2].
    exact (Permutation_cons_inv Hp).
Qed.

End CursorFacts.

Section PagingFacts.
Import World Paging.

Variable regex_search : string -> string -> bool.
Variable regex_valid : string -> bool.

Lemma matching_length (search tag_filter : string) (w : world) :
  length (matching regex_search search tag_filter w)
  = length (List.filter (query regex_search search tag_filter) (World.iocs w)).
Proof. apply sort_desc_length. Qed.

(** The call with a search that can be run, a [skip] that is not
    negative, a [limit] other than 0, and both within 8 bytes. *)
Lemma get_iocs_paginated_run (page limit : Z) (search tag_filter : string)
  (w : world) :
  searchable regex_valid search = true ->
  0 <= (page - 1) * limit <= Cursor.int64_max ->
  limit <> 0 -> Z.abs limit <= Cursor.int64_max ->
  get_iocs_paginated regex_search regex_valid page limit search tag_filter w
  = (Ok {| iocs := Cursor.limit limit
                     (drop (Z.to_nat ((page - 1) * limit))
                        (matching regex_search search tag_filter w));
           total := Z.of_nat (length (matching regex_search search
                                        tag_filter w));
           page := page;
           pages := (Z.of_nat (length (matching regex_search search
                                         tag_filter w)) + limit - 1)
                    / limit |}, w).
Proof.
  intros Hs Hskip Hlimit Habs.
  unfold get_iocs_paginated, bind, count_documents, ret, raise.
  rewrite Hs, <- matching_length.
  replace ((page - 1) * limit <? 0) with false
    by (symmetry; apply Z.ltb_ge; lia).
  replace (Cursor.int64_max <? (page - 1) * limit) with false
    by (symmetry; apply Z.ltb_ge; lia).
  replace (Cursor.int64_max <? Z.abs limit) with false
    by (symmetry; apply Z.ltb_ge; lia).
  replace (limit =? 0) with false
    by (symmetry; apply Z.eqb_neq; exact Hlimit).
  reflexivity.
Qed.

(** A pattern that Mongo cannot compile is refused by the count. *)
Lemma get_iocs_paginated_raise_pattern (page limit : Z)
  (search tag_filter : string) (w : world) :
  searchable regex_valid search = false ->
  get_iocs_paginated regex_search regex_valid page limit search tag_filter w
  = (Raise (Fault "OperationFailure"), w).
Proof.
  intros Hs. unfold get_iocs_paginated, bind, raise. now rewrite Hs.
Qed.

(** A negative [skip] is refused when the cursor is built. *)
Lemma get_iocs_paginated_raise_skip (page limit : Z)
  (search tag_filter : string) (w : world) :
  searchable regex_valid search = true ->
  (page - 1) * limit < 0 ->
  get_iocs_paginated regex_search regex_valid page limit search tag_filter w
  = (Raise (Fault "ValueError"), w).
Proof.
  intros Hs Hskip.
  unfold get_iocs_paginated, bind, count_documents, ret, raise.
  rewrite Hs.
  replace ((page - 1) * limit <? 0) with true
    by (symmetry; apply Z.ltb_lt; exact Hskip).
  reflexivity.
Qed.

(** A [skip] or a [limit] beyond 8 bytes cannot be sent. *)
Lemma get_iocs_paginated_raise_overflow (page limit : Z)
  (search tag_filter : string) (w : world) :
  searchable regex_valid search = true ->
  0 <= (page - 1) * limit ->
  Cursor.int64_max < (page - 1) * limit \/ Cursor.int64_max < Z.abs limit ->
  get_iocs_paginated regex_search regex_valid page limit search tag_filter w
  = (Raise (Fault "OverflowError"), w).
Proof.
  intros Hs Hskip Hbig.
  unfold get_iocs_paginated, bind, count_documents, ret, raise.
  rewrite Hs.
  replace ((page - 1) * limit <? 0) with false
    by (symmetry; apply Z.ltb_ge; exact Hskip).
  replace ((Cursor.int64_max <? (page - 1) * limit)
           || (Cursor.int64_max <? Z.abs limit)) with true; [reflexivity|].
  symmetry. apply orb_true_iff. rewrite !Z.ltb_lt. exact Hbig.
Qed.

(** A page size of 0 makes the page count a division by zero. *)
Lemma get_iocs_paginated_raise_zero (page : Z)
  (search tag_filter : string) (w : world) :
  searchable regex_valid search = true ->
  get_iocs_paginated regex_search regex_valid page 0 search tag_filter w
  = (Raise (Fault "ZeroDivisionError"), w).
Proof.
  intros Hs.
  unfold get_iocs_paginated, bind, count_documents, ret, raise.
  rewrite Hs.
  replace ((page - 1) * 0 <? 0) with false
    by (symmetry; apply Z.ltb_ge; lia).
  replace (Cursor.int64_max <? (page - 1) * 0) with false
    by (symmetry; apply Z.ltb_ge; unfold Cursor.int64_max; lia).
  reflexivity.
Qed.

(** What an answer tells of the arguments, and what it is. *)
Lemma get_iocs_paginated_ok (page limit : Z) (search tag_filter : string)
  (w w' : world) (res : result) :
  get_iocs_paginated regex_search regex_valid page limit search tag_filter w
  = (Ok res, w') ->
  searchable regex_valid search = true /\
  0 <= (page - 1) * limit <= Cursor.int64_max /\
  limit <> 0 /\ Z.abs limit <= Cursor.int64_max /\
  w' = w /\
  res = {| iocs := Cursor.limit limit
                     (drop (Z.to_nat ((page - 1) * limit))
                        (matching regex_search search tag_filter w));
           total := Z.of_nat (length (matching regex_search search
                                        tag_filter w));
           page := page;
           pages := (Z.of_nat (length (matching regex_search search
                                         tag_filter w)) + limit - 1)
                    / limit |}.
Proof.
  intros Hrun.
  destruct (searchable regex_valid search) eqn:Hs;
    [|rewrite get_iocs_paginated_raise_pattern in Hrun by exact Hs;
      discriminate].
  destruct (Z.eq_dec limit 0) as [->|Hlimit];
    [rewrite get_iocs_paginated_raise_zero in Hrun by exact Hs;
     discriminate|].
  destruct (Z_lt_le_dec ((page - 1) * limit) 0) as [Hskip|Hskip];
    [rewrite get_iocs_paginated_raise_skip in Hrun by assumption;
     discriminate|].
  destruct (Z_lt_le_dec Cursor.int64_max ((page - 1) * limit)) as [Hb1|Hb1];
    [rewrite get_iocs_paginated_raise_overflow in Hrun by auto;
     discriminate|].
  destruct (Z_lt_le_dec Cursor.int64_max (Z.abs limit)) as [Hb2|Hb2];
    [rewrite get_iocs_paginated_raise_overflow in Hrun by auto;
     discriminate|].
  rewrite get_iocs_paginated_run in Hrun by auto.
  injection Hrun as <- <-. auto 10.
Qed.

(** For a search that can be run, a page number and a page size of at
    least 1, and a size and a skip within 8 bytes, the call succeeds and
    only reads.  [total] counts the matching documents, [pages] is
    [total / limit] rounded up, the page holds the documents that are
    left after the earlier pages, at most [limit] of them, and a page
    beyond the last is empty. *)
Theorem get_iocs_paginated_counts (page limit : Z)
  (search tag_filter : string) (w : world) :
  searchable regex_valid search = true ->
  1 <= page -> 1 <= limit <= Cursor.int64_max ->
  (page - 1) * limit <= Cursor.int64_max ->
  exists res,
    get_iocs_paginated regex_search regex_valid page limit search
      tag_filter w
    = (Ok res, w) /\
    Paging.page res = page /\
    total res
    = Z.of_nat (length (List.filter
                          (query regex_search search tag_filter)
                          (World.iocs w))) /\
    total res <= pages res * limit /\
    pages res * limit < total res + limit /\
    Z.of_nat (length (iocs res))
    = Z.min limit (Z.max 0 (total res - (page - 1) * limit)) /\
    (pages res < page -> iocs res = []).
Proof.
  intros Hs Hpage Hlimit Hskip.
  rewrite get_iocs_paginated_run by (try exact Hs; nia).
  eexists. split; [reflexivity|]. cbn [Paging.page total pages iocs].
  rewrite <- matching_length.
  set (L := length (matching regex_search search tag_filter w)).
  assert (Hlen : Z.of_nat (length
                   (Cursor.limit limit
                      (drop (Z.to_nat ((page - 1) * limit))
                         (matching regex_search search tag_filter w))))
                 = Z.min limit (Z.max 0 (Z.of_nat L - (page - 1) * limit))).
  { unfold Cursor.limit.
    replace (limit =? 0) with false by (symmetry; apply Z.eqb_neq; lia).
    rewrite length_take, length_drop. fold L.
    assert (0 <= (page - 1) * limit) by nia. lia. }
  split; [reflexivity|]. split; [reflexivity|].
  assert (Hceil : Z.of_nat L <= (Z.of_nat L + limit - 1) / limit * limit
                  /\ (Z.of_nat L + limit - 1) / limit * limit
                     < Z.of_nat L + limit).
  { pose proof (Z.div_mod (Z.of_nat L + limit - 1) limit ltac:(lia)) as E.
    pose proof (Z.mod_pos_bound (Z.of_nat L + limit - 1) limit ltac:(lia)).
    nia. }
  split; [apply Hceil|]. split; [apply Hceil|]. split; [exact Hlen|].
  intros Hbeyond.
  apply length_zero_iff_nil. apply Nat2Z.inj. rewrite Hlen.
  assert ((Z.of_nat L + limit - 1) / limit * limit <= (page - 1) * limit)
    by nia.
  lia.
Qed.

(** The call answers exactly when the search can be run, the page size
    is not 0, the number of documents to skip is not negative, and size
    and skip are within 8 bytes.  Otherwise it raises, in this order of
    precedence: [OperationFailure] for a pattern that Mongo cannot
    compile; [ValueError] for a negative skip (page 0 or below with a
    positive size); [OverflowError] for a skip or size beyond 8 bytes;
    [ZeroDivisionError] for the size 0.  The collection is as before in
    every case. *)
Theorem get_iocs_paginated_answers_or_raises (page limit : Z)
  (search tag_filter : string) (w : world) :
  let run :=
    get_iocs_paginated regex_search regex_valid page limit search
      tag_filter w in
  let skip := (page - 1) * limit in
  snd run = w /\
  match fst run with
  | Ok res =>
      searchable regex_valid search = true /\ limit <> 0 /\
      0 <= skip <= Cursor.int64_max /\ Z.abs limit <= Cursor.int64_max
  | Raise e =>
      (searchable regex_valid search = false /\
       e = Fault "OperationFailure") \/
      (searchable regex_valid search = true /\
       ((skip < 0 /\ e = Fault "ValueError") \/
        (0 <= skip /\
         (Cursor.int64_max < skip \/ Cursor.int64_max < Z.abs limit) /\
         e = Fault "OverflowError") \/
        (limit = 0 /\ e = Fault "ZeroDivisionError")))
  end.
Proof.
  intros run skip. subst run skip.
  destruct (searchable regex_valid search) eqn:Hs.
  2:{ rewrite get_iocs_paginated_raise_pattern by exact Hs. simpl.
      split; [reflexivity|]. left. split; reflexivity. }
  destruct (Z.eq_dec limit 0) as [->|Hlimit].
  { rewrite get_iocs_paginated_raise_zero by exact Hs. simpl.
    split; [reflexivity|]. right. split; [reflexivity|].
    right. right. split; reflexivity. }
  destruct (Z_lt_le_dec ((page - 1) * limit) 0) as [Hskip|Hskip].
  { rewrite get_iocs_paginated_raise_skip by assumption. simpl.
    split; [reflexivity|]. right. split; [reflexivity|].
    left. split; [exact Hskip|reflexivity]. }
  destruct (Z_lt_le_dec Cursor.int64_max ((page - 1) * limit)) as [Hb1|Hb1].
  { rewrite get_iocs_paginated_raise_overflow by auto. simpl.
    split; [reflexivity|]. right. split; [reflexivity|].
    right. left. split; [exact Hskip|]. split; [now left|reflexivity]. }
  destruct (Z_lt_le_dec Cursor.int64_max (Z.abs limit)) as [Hb2|Hb2].
  { rewrite get_iocs_paginated_raise_overflow by auto. simpl.
    split; [reflexivity|]. right. split; [reflexivity|].
    right. left. split; [exact Hskip|]. split; [now right|reflexivity]. }
  rewrite get_iocs_paginated_run by auto. simpl.
  split; [reflexivity|]. auto.
Qed.

Lemma in_matching (search tag_filter : string) (w : world) (d : Ioc.t) :
  In d (matching regex_search search tag_filter w) <->
  In d (World.iocs w) /\ query regex_search search tag_filter d = true.
Proof.
  unfold matching. rewrite <- List.filter_In.
  split; apply Permutation_in; [symmetry|]; apply sort_desc_perm.
Qed.

Lemma wf_NoDup (w : world) : Store.wf w -> NoDup (World.iocs w).
Proof. intros [_ H]. exact (NoDup_fmap_1 _ _ H). Qed.

Lemma NoDup_list_filter (p : Ioc.t -> bool) (l : list Ioc.t) :
  NoDup l -> NoDup (List.filter p l).
Proof.
  induction 1 as [|x l Hx Hl IH]; simpl; [constructor|].
  destruct (p x); [|exact IH]. constructor; [|exact IH].
  intros Hin. apply Hx. apply list_elem_of_In in Hin.
  apply List.filter_In in Hin as [Hin _]. apply list_elem_of_In. exact Hin.
Qed.

Lemma NoDup_limit (n : Z) (l : list Ioc.t) :
  NoDup l -> NoDup (Cursor.limit n l).
Proof.
  unfold Cursor.limit. destruct (n =? 0); [auto|].
  intros H. exact (sublist_NoDup _ _ H (sublist_take _ _)).
Qed.

(** Whatever page is asked for, an answer holds only stored documents
    that match the search and the tag, newest first, no more of them than
    [total], and no document twice. *)
Theorem get_iocs_paginated_page_is_sound (page limit : Z)
  (search tag_filter : string) (w w' : world) (res : result) :
  get_iocs_paginated regex_search regex_valid page limit search tag_filter w
  = (Ok res, w') ->
  w' = w /\
  (forall d, In d (iocs res) ->
     In d (World.iocs w) /\ query regex_search search tag_filter d = true) /\
  Cursor.descending Ioc.timestamp (iocs res) /\
  Z.of_nat (length (iocs res)) <= total res /\
  (Store.wf w -> NoDup (iocs res)).
Proof.
  intros Hrun.
  apply get_iocs_paginated_ok in Hrun as (_ & Hskip & _ & _ & -> & ->).
  cbn [iocs total].
  split; [reflexivity|]. split; [|split; [|split]].
  - intros d Hd. apply in_matching.
    apply in_limit in Hd. apply list_elem_of_In in Hd.
    apply list_elem_of_In. exact (subseteq_drop _ _ _ Hd).
  - apply descending_limit, descending_drop, sort_desc_descending.
  - apply inj_le. unfold Cursor.limit.
    destruct (limit =? 0); [|rewrite length_take]; rewrite length_drop; lia.
  - intros Hwf. apply NoDup_limit.
    refine (sublist_NoDup _ _ _ (sublist_drop _ _)).
    unfold matching.
    rewrite <- (sort_desc_perm Ioc.timestamp).
    apply NoDup_list_filter, wf_NoDup, Hwf.
Qed.

(** Pages of [k] documents cut from a list, [n] of them being enough to
    hold it, give the list back when put one after the other. *)
Lemma pages_concat (k n : nat) (l : list Ioc.t) :
  (length l <= n * k)%nat ->
  concat (map (fun i => take k (drop (i * k) l)) (seq 0 n)) = l.
Proof.
  revert l. induction n as [|n IH]; intros l Hl.
  - destruct l; [reflexivity|simpl in Hl; lia].
  - cbn [seq map concat]. rewrite <- seq_shift, map_map.
    rewrite (map_ext _ (fun i => take k (drop (i * k) (drop k l)))).
    + rewrite IH; [apply take_drop|]. rewrite length_drop. simpl in Hl. lia.
    + intros i. rewrite drop_drop. do 2 f_equal.
Qed.

Lemma page_items_spec (page limit : Z) (search tag_filter : string)
  (w : world) :
  searchable regex_valid search = true ->
  1 <= page -> 1 <= limit <= Cursor.int64_max ->
  (page - 1) * limit <= Cursor.int64_max ->
  page_items regex_search regex_valid page limit search tag_filter w
  = take (Z.to_nat limit)
      (drop ((Z.to_nat page - 1) * Z.to_nat limit)
         (matching regex_search search tag_filter w)).
Proof.
  intros Hs Hpage Hlimit Hskip. unfold page_items.
  rewrite get_iocs_paginated_run by (try exact Hs; nia). cbn [fst iocs].
  unfold Cursor.limit.
  replace (limit =? 0) with false by (symmetry; apply Z.eqb_neq; lia).
  rewrite Zabs2Nat.abs_nat_nonneg by lia.
  rewrite Z2Nat.inj_mul, Z2Nat.inj_sub by lia. reflexivity.
Qed.

(** When no two matching documents have the same timestamp (so that the
    order by timestamp leaves Mongo no choice), the search can be run,
    the page size is at least 1 and the collection is not beyond 8 bytes
    in size, going through the pages 1 to [pages] gives every matching
    document exactly once, newest first: the pages put together are the
    one list of the matching documents that is in descending order of
    timestamp. *)
Theorem get_iocs_paginated_pages_cover (limit : Z)
  (search tag_filter : string) (w : world) :
  searchable regex_valid search = true ->
  1 <= limit <= Cursor.int64_max ->
  Z.of_nat (length (World.iocs w)) <= Cursor.int64_max ->
  NoDup (map Ioc.timestamp
           (List.filter (query regex_search search tag_filter)
              (World.iocs w))) ->
  let all := all_pages regex_search regex_valid limit search tag_filter w in
  Permutation (List.filter (query regex_search search tag_filter)
                 (World.iocs w)) all /\
  Cursor.descending Ioc.timestamp all /\
  (forall l,
     Permutation (List.filter (query regex_search search tag_filter)
                    (World.iocs w)) l ->
     Cursor.descending Ioc.timestamp l -> l = all).
Proof.
  intros Hs Hlimit Hsize Hnd all.
  assert (E : all = matching regex_search search tag_filter w).
  { unfold all, all_pages.
    rewrite get_iocs_paginated_run
      by (try exact Hs; unfold Cursor.int64_max in *; lia).
    cbn [fst pages].
    set (L := matching regex_search search tag_filter w).
    assert (HL : Z.of_nat (length L) <= Cursor.int64_max).
    { unfold L. rewrite matching_length.
      pose proof (filter_length_le (query regex_search search tag_filter)
                    (World.iocs w)). lia. }
    pose proof (Z.div_mod (Z.of_nat (length L) + limit - 1) limit
                  ltac:(lia)) as Hdiv.
    pose proof (Z.mod_pos_bound (Z.of_nat (length L) + limit - 1) limit
                  ltac:(lia)) as Hmod.
    assert (Hpos : 0 <= (Z.of_nat (length L) + limit - 1) / limit)
      by (apply Z.div_pos; lia).
    rewrite <- seq_shift, map_map.
    rewrite (map_ext_in _ (fun i => take (Z.to_nat limit)
                                      (drop (i * Z.to_nat limit) L))).
    - apply pages_concat.
      apply Nat2Z.inj_le. rewrite Nat2Z.inj_mul, !Z2Nat.id by lia. nia.
    - intros i Hi. apply in_seq in Hi. subst L.
      rewrite page_items_spec; try exact Hs; try lia.
      + rewrite Nat2Z.id. simpl. now rewrite Nat.sub_0_r.
      + assert (Z.of_nat i < (Z.of_nat (length
                   (matching regex_search search tag_filter w))
                 + limit - 1) / limit) by lia.
        nia. }
  rewrite E. unfold matching.
  split; [apply sort_desc_perm|]. split; [apply sort_desc_descending|].
  intros l Hp Hl. symmetry.
  apply (descending_unique Ioc.timestamp).
  - rewrite <- (sort_desc_perm Ioc.timestamp). exact Hnd.
  - rewrite <- Hp. symmetry. apply sort_desc_perm.
  - apply sort_desc_descending.
  - exact Hl.
Qed.

End PagingFacts.

(** Three records, two per page: the second of two pages holds one. *)
Lemma get_iocs_paginated_counts_witness :
  exists res,
    Paging.get_iocs_paginated Samples.finds_nothing Samples.no_leading_star
      2 2 "" "" Samples.three_records
    = (World.Ok res, Samples.three_records) /\
    Paging.total res = 3 /\ Paging.pages res = 2 /\
    length (Paging.iocs res) = 1%nat.
Proof.
  destruct (get_iocs_paginated_counts Samples.finds_nothing
              Samples.no_leading_star 2 2 "" "" Samples.three_records)
    as (res & Hrun & _ & Htotal & Hp1 & Hp2 & Hlen & _);
    [reflexivity|lia|unfold Cursor.int64_max; lia
    |unfold Cursor.int64_max; lia|].
  assert (Ht : Paging.total res = 3)
    by (rewrite Htotal; vm_compute; reflexivity).
  rewrite Ht in Hp1, Hp2, Hlen.
  exists res. split; [exact Hrun|]. split; [exact Ht|]. split; lia.
Defined.

(** The first page of two of the three records. *)
Lemma get_iocs_paginated_page_is_sound_witness :
  exists res,
    Paging.get_iocs_paginated Samples.finds_nothing Samples.no_leading_star
      1 2 "" "" Samples.three_records
    = (World.Ok res, Samples.three_records) /\
    (forall d, In d (Paging.iocs res) ->
       In d (World.iocs Samples.three_records)) /\
    Cursor.descending Ioc.timestamp (Paging.iocs res).
Proof.
  pose proof (get_iocs_paginated_run Samples.finds_nothing
                Samples.no_leading_star 1 2 "" ""
                Samples.three_records eq_refl
                ltac:(unfold Cursor.int64_max; lia) ltac:(lia)
                ltac:(unfold Cursor.int64_max; lia)) as Hrun.
  destruct (get_iocs_paginated_page_is_sound _ _ _ _ _ _ _ _ _ Hrun)
    as (_ & Hin & Hsorted & _).
  eexists. split; [exact Hrun|]. split; [|exact Hsorted].
  intros d Hd. exact (proj1 (Hin d Hd)).
Defined.

(** The four refusals, on the three records: a pattern that starts with
    a star, page 0, a page size beyond 8 bytes, and the page size 0. *)
Lemma get_iocs_paginated_refusals :
  let call page limit search :=
    fst (Paging.get_iocs_paginated Samples.finds_nothing
           Samples.no_leading_star page limit search ""
           Samples.three_records) in
  call 1 2 "*abc" = World.Raise (World.Fault "OperationFailure") /\
  call 0 2 "" = World.Raise (World.Fault "ValueError") /\
  call 1 (2 ^ 63) "" = World.Raise (World.Fault "OverflowError") /\
  call 1 0 "" = World.Raise (World.Fault "ZeroDivisionError").
Proof. vm_compute. repeat split. Qed.

(** The two pages of the three records, two per page. *)
Lemma get_iocs_paginated_pages_cover_witness :
  Permutation
    (List.filter (Paging.query Samples.finds_nothing "" "")
       (World.iocs Samples.three_records))
    (Paging.all_pages Samples.finds_nothing Samples.no_leading_star 2 "" ""
       Samples.three_records).
Proof.
  apply (get_iocs_paginated_pages_cover Samples.finds_nothing
           Samples.no_leading_star 2 "" "" Samples.three_records).
  - reflexivity.
  - unfold Cursor.int64_max. lia.
  - vm_compute. discriminate.
  - apply (bool_decide_unpack _). vm_compute. exact I.
Defined.

(** ** The dashboard statistics *)

Section StatsFacts.
Import World Stats.

Let group (groups : list (option string * nat)) (d : Ioc.t) :=
  bump (Ioc.classification d) groups.

Lemma bump_count_same (k : option string) (g : list (option string * nat)) :
  count_of k (bump k g) = S (count_of k g).
Proof.
  unfold count_of. induction g as [|[k' n] g IH]; simpl.
  - rewrite bool_decide_eq_true_2 by reflexivity. reflexivity.
  - destruct (decide (k = k')) as [->|Hne]; simpl.
    + rewrite bool_decide_eq_true_2 by reflexivity. reflexivity.
    + rewrite bool_decide_eq_false_2 by congruence. exact IH.
Qed.

Lemma bump_count_other (k k' : option string)
  (g : list (option string * nat)) :
  k' <> k -> count_of k' (bump k g) = count_of k' g.
Proof.
  intros Hne. unfold count_of. induction g as [|[k0 n] g IH]; simpl.
  - rewrite bool_decide_eq_false_2 by congruence. reflexivity.
  - destruct (decide (k = k0)) as [->|Hk]; simpl.
    + rewrite bool_decide_eq_false_2 by congruence. reflexivity.
    + destruct (bool_decide (k0 = k')); [reflexivity|exact IH].
Qed.

Lemma group_count (k : option string) (c : list Ioc.t)
  (g : list (option string * nat)) :
  count_of k (fold_left group c g)
  = (count_of k g + length (List.filter (has_classification k) c))%nat.
Proof.
  revert g. induction c as [|d c IH]; intros g;
    cbn [fold_left List.filter length]; [lia|].
  rewrite IH. unfold group.
  destruct (has_classification k d) eqn:E.
  - apply bool_decide_eq_true_1 in E. rewrite E, bump_count_same.
    cbn [length]. lia.
  - apply bool_decide_eq_false_1 in E.
    rewrite bump_count_other by congruence. reflexivity.
Qed.

Lemma bump_keys (k k' : option string) (g : list (option string * nat)) :
  k' ∈ map fst (bump k g) <-> k' = k \/ k' ∈ map fst g.
Proof.
  induction g as [|[k0 n] g IH]; simpl.
  - rewrite list_elem_of_singleton, elem_of_nil. tauto.
  - destruct (decide (k = k0)) as [->|Hk]; simpl.
    + rewrite elem_of_cons. tauto.
    + rewrite !elem_of_cons, IH. tauto.
Qed.

Lemma bump_NoDup (k : option string) (g : list (option string * nat)) :
  NoDup (map fst g) -> NoDup (map fst (bump k g)).
Proof.
  induction g as [|[k0 n] g IH]; simpl; intros H.
  - apply NoDup_singleton.
  - apply NoDup_cons in H as [Hk0 H].
    destruct (decide (k = k0)) as [->|Hk]; simpl.
    + apply NoDup_cons. split; assumption.
    + apply NoDup_cons. split; [|auto].
      rewrite bump_keys. intros [E|E]; [congruence|contradiction].
Qed.

Lemma bump_positive (k : option string) (g : list (option string * nat)) :
  Forall (fun x => 0 < snd x)%nat g ->
  Forall (fun x => 0 < snd x)%nat (bump k g).
Proof.
  induction 1 as [|[k0 n] g Hn Hg IH]; simpl.
  - constructor; [simpl; lia|constructor].
  - destruct (decide (k = k0)); constructor; simpl in *; auto; lia.
Qed.

Lemma bump_sum (k : option string) (g : list (option string * nat)) :
  list_sum (map snd (bump k g)) = S (list_sum (map snd g)).
Proof.
  induction g as [|[k0 n] g IH]; simpl; [reflexivity|].
  destruct (decide (k = k0)); simpl; [reflexivity|]. rewrite IH. lia.
Qed.

Lemma group_fold_keeps (P : list (option string * nat) -> Prop) :
  (forall k g, P g -> P (bump k g)) ->
  forall c g, P g -> P (fold_left group c g).
Proof.
  intros Hstep c. induction c as [|d c IH]; intros g Hg; simpl; [exact Hg|].
  apply IH, Hstep, Hg.
Qed.

Lemma group_sum (c : list Ioc.t) (g : list (option string * nat)) :
  list_sum (map snd (fold_left group c g))
  = (list_sum (map snd g) + length c)%nat.
Proof.
  revert g. induction c as [|d c IH]; intros g;
    cbn [fold_left length]; [lia|].
  rewrite IH. unfold group. rewrite bump_sum. lia.
Qed.

Lemma count_of_in (k : option string) (n : nat)
  (g : list (option string * nat)) :
  NoDup (map fst g) -> (k, n) ∈ g -> count_of k g = n.
Proof.
  unfold count_of. induction g as [|[k0 n0] g IH]; simpl; intros Hnd Hin.
  - now apply elem_of_nil in Hin.
  - apply NoDup_cons in Hnd as [Hk0 Hnd].
    apply elem_of_cons in Hin as [E|Hin].
    + injection E as -> ->.
      rewrite bool_decide_eq_true_2 by reflexivity. reflexivity.
    + rewrite bool_decide_eq_false_2; [exact (IH Hnd Hin)|].
      intros ->. apply Hk0.
      apply list_elem_of_fmap. exists (k, n). split; [reflexivity|exact Hin].
Qed.

Lemma count_of_positive (k : option string) (n : nat)
  (g : list (option string * nat)) :
  count_of k g = n -> (0 < n)%nat -> In (k, n) g.
Proof.
  unfold count_of. intros E Hn.
  destruct (List.find _ g) as [[k0 n0]|] eqn:F; [|simpl in E; lia].
  apply List.find_some in F as [Hin Hk].
  apply bool_decide_eq_true_1 in Hk. simpl in Hk, E. now subst.
Qed.

Lemma filter_all (c : list Ioc.t) : List.filter (fun _ => true) c = c.
Proof. induction c as [|d c IH]; simpl; [reflexivity|now rewrite IH]. Qed.

(** The call when every read succeeds: one reading of the clock, the
    collection only read. *)
Lemma get_threat_stats_run (w : world) :
  get_threat_stats None w
  = (Ok {| classification_stats := group_by_classification (iocs w);
           recent_count :=
             length (List.filter
                       (RealtimeFeeds.since
                          (clock w (reads w) - Py.hours 24)) (iocs w));
           top_malicious :=
             Cursor.limit 10
               (Cursor.sort_desc Ioc.threat_score
                  (List.filter malicious (iocs w)));
           total_iocs := length (iocs w) |},
     with_reads (S (reads w)) w).
Proof.
  unfold get_threat_stats, try_except, read, bind, utcnow, count_documents,
    ret.
  cbn [iocs with_reads bool_decide decide_rel]. simpl.
  now rewrite filter_all.
Qed.

(** The call when a read fails: the zeroed result, the collection and
    the events as they were. *)
Lemma get_threat_stats_fails (p : failing_read) (w : world) :
  exists w',
    get_threat_stats (Some p) w = (Ok zeroed, w') /\
    iocs w' = iocs w /\ events w' = events w.
Proof.
  destruct p; eexists; (split; [reflexivity|split; reflexivity]).
Qed.

(** [get_threat_stats] never raises and only reads.  When a read fails
    its result is the zeroed one of the [except] branch.  When none does,
    it has read the clock once; its groups have distinct classifications,
    a classification has a group exactly when a stored document carries
    it (a missing classification counting as null) and the group's count
    is the number of these documents; so the counts add up to
    [total_iocs], the size of the collection, and [recent_count] is not
    above it. *)
Theorem get_threat_stats_groups_add_up (failure : option failing_read)
  (w : world) :
  exists res w',
    get_threat_stats failure w = (Ok res, w') /\
    iocs w' = iocs w /\ events w' = events w /\
    (failure <> None -> res = zeroed) /\
    (failure = None ->
     w' = with_reads (S (reads w)) w /\
     NoDup (map fst (classification_stats res)) /\
     (forall k n,
        In (k, n) (classification_stats res) <->
        (0 < n)%nat /\
        n = length (List.filter (has_classification k) (iocs w))) /\
     list_sum (map snd (classification_stats res)) = total_iocs res /\
     total_iocs res = length (iocs w) /\
     (recent_count res <= total_iocs res)%nat).
Proof.
  destruct failure as [p|].
  { destruct (get_threat_stats_fails p w) as (w' & Hrun & Hio & Hev).
    exists zeroed, w'. split; [exact Hrun|]. split; [exact Hio|].
    split; [exact Hev|]. split; [reflexivity|discriminate]. }
  rewrite get_threat_stats_run. eexists _, _. split; [reflexivity|].
  split; [reflexivity|]. split; [reflexivity|].
  split; [intros H; now contradiction H|]. intros _.
  split; [reflexivity|].
  cbn [classification_stats recent_count total_iocs].
  unfold group_by_classification. fold group.
  assert (Hnd : NoDup (map fst (fold_left group (iocs w) []))).
  { apply (group_fold_keeps (fun g => NoDup (map fst g)));
      [exact bump_NoDup|constructor]. }
  assert (Hpos : Forall (fun x => 0 < snd x)%nat
                   (fold_left group (iocs w) [])).
  { apply (group_fold_keeps (Forall (fun x => 0 < snd x)%nat));
      [exact bump_positive|constructor]. }
  split; [exact Hnd|]. split; [|split; [|split]].
  - intros k n. split.
    + intros Hin. split.
      * exact (proj1 (List.Forall_forall _ _) Hpos (k, n) Hin).
      * apply list_elem_of_In in Hin.
        rewrite <- (count_of_in k n _ Hnd Hin). apply group_count.
    + intros [Hn ->]. apply count_of_positive; [|exact Hn].
      apply group_count.
  - rewrite group_sum. reflexivity.
  - reflexivity.
  - apply filter_length_le.
Qed.

(** [top_malicious] holds at most 10 documents, all of them stored and
    classified critical, high or malicious, in descending order of
    threat score (a missing score counting lowest); it is empty when a
    read fails.  When none fails, no such document is left out for one
    with a lower score, and none is left out at all when there are 10 or
    fewer. *)
Theorem get_threat_stats_top_are_the_highest
  (failure : option failing_read) (w : world) :
  exists res w',
    get_threat_stats failure w = (Ok res, w') /\
    (length (top_malicious res) <= 10)%nat /\
    (forall d, In d (top_malicious res) ->
       In d (iocs w) /\ malicious d = true) /\
    Cursor.descending Ioc.threat_score (top_malicious res) /\
    (failure <> None -> top_malicious res = []) /\
    (failure = None ->
     (forall d t,
        In d (iocs w) -> malicious d = true ->
        ~ In d (top_malicious res) -> In t (top_malicious res) ->
        Cursor.key_leb (Ioc.threat_score d) (Ioc.threat_score t) = true) /\
     ((length (List.filter malicious (iocs w)) <= 10)%nat ->
      Permutation (List.filter malicious (iocs w)) (top_malicious res))).
Proof.
  destruct failure as [p|].
  { destruct (get_threat_stats_fails p w) as (w' & Hrun & _).
    exists zeroed, w'. split; [exact Hrun|]. simpl.
    split; [lia|]. split; [intros d []|].
    split; [intros i j a b _ Ha; now rewrite lookup_nil in Ha|].
    split; [reflexivity|discriminate]. }
  rewrite get_threat_stats_run. eexists _, _. split; [reflexivity|].
  cbn [top_malicious].
  change (Cursor.limit 10 ?l) with (take 10 l).
  set (sorted := Cursor.sort_desc Ioc.threat_score
                   (List.filter malicious (iocs w))).
  assert (Hperm : Permutation (List.filter malicious (iocs w)) sorted)
    by apply sort_desc_perm.
  assert (Hdesc : Cursor.descending Ioc.threat_score sorted)
    by apply sort_desc_descending.
  split; [rewrite length_take; lia|]. split; [|split; [|split]].
  - intros d Hd. apply List.filter_In.
    apply (Permutation_in _ (Permutation_sym Hperm)).
    apply list_elem_of_In. apply list_elem_of_In in Hd.
    exact (subseteq_take _ _ _ Hd).
  - apply descending_take, Hdesc.
  - intros H. now contradiction H.
  - intros _. split.
    + intros d t Hd Hmal Hout Ht.
      assert (HdS : In d sorted).
      { apply (Permutation_in _ Hperm). apply List.filter_In. now split. }
      rewrite <- (take_drop 10 sorted) in HdS.
      apply List.in_app_or in HdS as [HdS|HdS]; [contradiction|].
      apply list_elem_of_In, list_elem_of_lookup_1 in HdS as [j Hj].
      apply list_elem_of_In, list_elem_of_lookup_1 in Ht as [i Hi].
      rewrite lookup_drop in Hj. apply lookup_take_Some in Hi as [Hi Hlt].
      apply (Hdesc i (10 + j)%nat t d); [lia|exact Hi|exact Hj].
    + intros Hfew. rewrite take_ge; [exact Hperm|].
      rewrite <- (Permutation_length Hperm). exact Hfew.
Qed.

End StatsFacts.
